(** * API metering library: the batching / flush subsystem

    A shallow embedding of
      - [src/types/errors.ts]                          (the error classes),
      - [src/stripe/batched-usage-record-strategy.ts]  (BatchedUsageRecordStrategy),
      - [src/stripe/immediate-meter-event-strategy.ts] (ImmediateMeterEventStrategy),
    and the properties of their record / flush / dispose life cycle.

    Modelling conventions.
      - A JavaScript [number] is an integer-valued number, modelled as [Z].
      - An [async] method is run to completion: a computation takes the
        world before the call to an outcome ([Resolved] or [Rejected], the
        two ways a promise settles) and the world after it.
      - The world is the strategy instance together with the trace of the
        effects it has performed on its collaborators (Stripe client,
        subscription resolver, timers, console), oldest first.
      - The collaborators are oracles: their answer may depend on the
        whole trace so far, so a backend may fail once and succeed later. *)

From Stdlib Require Import ZArith Ascii String List Bool Lia DecimalString.
From Stdlib Require DecimalPos DecimalZ.
Import ListNotations.

Open Scope string_scope.
Open Scope list_scope.
Open Scope Z_scope.

(* ================================================================== *)
(** ** JavaScript values that can be thrown                            *)
(* ================================================================== *)

(** The classes of [src/types/errors.ts], with the two built-in classes
    the code meets ([Error], [TypeError]). *)
Inductive ErrorClass : Type :=
| Error
| TypeError
| MeteringError
| ConfigurationError
| StripeApiError
| InvalidInputError
| DependencyError.

(** An instance of [Error] (or of a subclass).  [code] and [statusCode]
    are the properties a Stripe error carries; [stripeCode] and
    [statusCode] are the ones [StripeApiError] declares; [cause] is the
    one [MeteringError] declares.  [None] is [undefined]. *)
#[warnings="-register-all"] Inductive JsError : Type :=
  mkJsError {
    name : ErrorClass;
    message : string;
    code : option string;
    statusCode : option Z;
    stripeCode : option string;
    cause : option JsError
  }.

(** What a [catch (error: unknown)] clause receives: an [Error], a
    string, or a plain object with its [code] and [statusCode]
    properties.  The two handlers that wrap a backend failure read [code]
    and [statusCode] off the caught value after casting it to the object
    type [{ code?: string; statusCode?: number }]; the values that cast
    rules out, [undefined] and [null], on which such a read would itself
    throw, are not among the thrown values of this model. *)
Inductive JsValue : Type :=
| VString (s : string)
| VObject (code : option string) (statusCode : option Z)
| VError (e : JsError).

(** [new Error(message)] and [new TypeError(message)]. *)
Definition new_Error (message : string) : JsError :=
  mkJsError Error message None None None None.

Definition new_TypeError (message : string) : JsError :=
  mkJsError TypeError message None None None None.

(** [new InvalidInputError(message)]: [MeteringError]'s constructor with
    no cause, then [this.name = 'InvalidInputError']. *)
Definition new_InvalidInputError (message : string) : JsError :=
  mkJsError InvalidInputError message None None None None.

(** JavaScript truthiness of an optional string and of an optional number. *)
Definition truthy_string (s : option string) : bool :=
  match s with
  | None => false
  | Some s => negb (String.eqb s EmptyString)
  end.

Definition truthy_number (n : option Z) : bool :=
  match n with
  | None => false
  | Some n => negb (n =? 0)
  end.

(** [new StripeApiError(message, stripeError, cause)]:
    [if (stripeError) { this.stripeCode = stripeError.code;
                        this.statusCode = stripeError.statusCode; }].
    [stripeError] is [null] ([None]) or an object [{ code, statusCode }]. *)
Definition new_StripeApiError (message : string)
    (stripeError : option (option string * option Z))
    (cause : option JsError) : JsError :=
  match stripeError with
  | Some (code, statusCode) =>
      mkJsError StripeApiError message None statusCode code cause
  | None =>
      mkJsError StripeApiError message None None None cause
  end.

(** [error instanceof Error]. *)
Definition instanceof_Error (error : JsValue) : bool :=
  match error with
  | VError _ => true
  | _ => false
  end.

(** [e instanceof StripeApiError], [e instanceof InvalidInputError]. *)
Definition instanceof_StripeApiError (error : JsValue) : bool :=
  match error with
  | VError e => match name e with StripeApiError => true | _ => false end
  | _ => false
  end.

Definition instanceof_InvalidInputError (error : JsValue) : bool :=
  match error with
  | VError e => match name e with InvalidInputError => true | _ => false end
  | _ => false
  end.

Definition class_name (c : ErrorClass) : string :=
  match c with
  | Error => "Error"
  | TypeError => "TypeError"
  | MeteringError => "MeteringError"
  | ConfigurationError => "ConfigurationError"
  | StripeApiError => "StripeApiError"
  | InvalidInputError => "InvalidInputError"
  | DependencyError => "DependencyError"
  end.

(** [String(error)]. *)
Definition String_of (error : JsValue) : string :=
  match error with
  | VString s => s
  | VObject _ _ => "[object Object]"
  | VError e => (class_name (name e) ++ ": " ++ message e)%string
  end.

(* ================================================================== *)
(** ** Stripe request parameters ([src/stripe/types.ts])               *)
(* ================================================================== *)

Inductive StripeUsageAction : Type := INCREMENT | SET.

Inductive StripeAggregationMethod : Type :=
| SUM | LAST_DURING_PERIOD | MAX | LAST_EVER.

(** The second argument of [subscriptionItems.createUsageRecord]:
    [{ quantity, timestamp, action }]. *)
Record UsageRecordParams : Type := {
  quantity : Z;
  ur_timestamp : Z;
  ur_action : StripeUsageAction
}.

(** The argument of [billingPortal.meterEvents.create]. *)
Record MeterEventParams : Type := {
  customer : string;
  value : Z;
  me_action : StripeUsageAction;
  aggregation_method : StripeAggregationMethod;
  idempotency_key : string;
  api_endpoint : string (* metadata.api_endpoint *)
}.

(* ================================================================== *)
(** ** Outcomes, effects and the world                                 *)
(* ================================================================== *)

(** The two ways a promise settles. *)
Inductive Outcome (A : Type) : Type :=
| Resolved (a : A)
| Rejected (error : JsValue).

Arguments Resolved {A} a.
Arguments Rejected {A} error.

(** The effects a strategy performs.  [EvFlushBatch] and
    [EvFlushAllBatches] record the entry into the two private methods:
    what a spy on the method sees. *)
Inductive Event : Type :=
| EvSetInterval (ms : Z)
| EvClearInterval
| EvGetSubscriptionItemId (customerId : string)
| EvCreateUsageRecord (subscriptionItemId : string) (params : UsageRecordParams)
| EvMeterEventsCreate (params : MeterEventParams)
| EvConsoleError (label : string) (error : JsValue)
| EvFlushBatch (subscriptionItemId : string)
| EvFlushAllBatches.

(** The collaborators.  Each answer may depend on the trace so far.
      - [getSubscriptionItemId]: the overridable resolution hook;
      - [createUsageRecord]: [stripe.subscriptionItems.createUsageRecord];
      - [meterEventsCreate]: [stripe.billingPortal.meterEvents.create];
      - [Date_now]: [Date.now()], milliseconds;
      - [Math_random_suffix]: [Math.random().toString(36).substring(2, 15)]. *)
Record Env : Type := {
  getSubscriptionItemId : list Event -> string -> Outcome string;
  createUsageRecord : list Event -> string -> UsageRecordParams -> Outcome unit;
  meterEventsCreate : list Event -> MeterEventParams -> Outcome unit;
  Date_now : list Event -> Z;
  Math_random_suffix : string
}.

(** A strategy instance [this] of type [T] and the trace of its effects. *)
Record World (T : Type) : Type := {
  this : T;
  trace : list Event
}.

Arguments this {T} w.
Arguments trace {T} w.

(** Computations over a world: state passing with rejection. *)
Definition M (T A : Type) : Type := World T -> Outcome A * World T.

Section Computations.
Context {T : Type}.

Definition ret {A : Type} (a : A) : M T A :=
  fun w => (Resolved a, w).

Definition throw {A : Type} (error : JsValue) : M T A :=
  fun w => (Rejected error, w).

Definition bind {A B : Type} (m : M T A) (k : A -> M T B) : M T B :=
  fun w =>
    match m w with
    | (Resolved a, w') => k a w'
    | (Rejected error, w') => (Rejected error, w')
    end.

(** [try { body } catch (error) { handler }]. *)
Definition try_catch {A : Type} (body : M T A) (handler : JsValue -> M T A)
  : M T A :=
  fun w =>
    match body w with
    | (Resolved a, w') => (Resolved a, w')
    | (Rejected error, w') => handler error w'
    end.

Definition gets {A : Type} (f : T -> A) : M T A :=
  fun w => (Resolved (f (this w)), w).

Definition modify (f : T -> T) : M T unit :=
  fun w => (Resolved tt, {| this := f (this w); trace := trace w |}).

Definition emit (ev : Event) : M T unit :=
  fun w => (Resolved tt, {| this := this w; trace := trace w ++ [ev] |}).

(** Ask an oracle of the environment: its answer is read off the trace. *)
Definition ask {A : Type} (f : list Event -> A) : M T A :=
  fun w => (Resolved (f (trace w)), w).

(** [await collaborator(...)]: the call is logged as [ev] and settles
    as the oracle says, given the trace before the call. *)
Definition await_call {A : Type} (ev : Event)
    (f : list Event -> Outcome A) : M T A :=
  fun w => (f (trace w), {| this := this w; trace := trace w ++ [ev] |}).

(** [for (const x of xs) { body x }]. *)
Fixpoint for_of {A : Type} (xs : list A) (body : A -> M T unit) : M T unit :=
  match xs with
  | [] => ret tt
  | x :: xs' => bind (body x) (fun _ => for_of xs' body)
  end.

(** [console.error(label, error)]. *)
Definition console_error (label : string) (error : JsValue) : M T unit :=
  emit (EvConsoleError label error).
End Computations.

Notation "x <- m ;; k" := (bind m (fun x => k))
  (at level 61, m at next level, right associativity).
Notation "m ;;; k" := (bind m (fun _ => k))
  (at level 61, right associativity).

(* ================================================================== *)
(** ** Wrapping a backend failure                                      *)
(* ================================================================== *)

(** The [catch] clause that [flushBatch] and the immediate strategy's
    [recordUsage] both have, word for word up to the message prefix:
    - [errorMessage = error instanceof Error ? error.message : String(error)];
    - [stripeError = error], read at its [code] and [statusCode];
    - [errorDetails = stripeError.code && stripeError.statusCode
         ? { code: stripeError.code, statusCode: stripeError.statusCode } : null];
    - [throw new StripeApiError(prefix + ': ' + errorMessage, errorDetails,
         error instanceof Error ? error : new Error(String(error)))]. *)

Definition errorMessage_of (error : JsValue) : string :=
  match error with
  | VError e => message e
  | _ => String_of error
  end.

(** [error instanceof Error ? error : new Error(String(error))]. *)
Definition cause_of (error : JsValue) : JsError :=
  match error with
  | VError e => e
  | _ => new_Error (String_of error)
  end.

(** [stripeError.code] and [stripeError.statusCode]; a string has
    neither property. *)
Definition code_of (error : JsValue) : option string :=
  match error with
  | VString _ => None
  | VObject code _ => code
  | VError e => code e
  end.

Definition statusCode_of (error : JsValue) : option Z :=
  match error with
  | VString _ => None
  | VObject _ statusCode => statusCode
  | VError e => statusCode e
  end.

Definition errorDetails_of (code : option string) (statusCode : option Z)
  : option (option string * option Z) :=
  if truthy_string code && truthy_number statusCode
  then Some (code, statusCode)
  else None.

Definition wrap_backend_error {T A : Type} (prefix : string) (error : JsValue)
  : M T A :=
  let errorMessage := errorMessage_of error in
  let errorDetails := errorDetails_of (code_of error) (statusCode_of error) in
  throw (VError (new_StripeApiError
                   (prefix ++ ": " ++ errorMessage)%string
                   errorDetails
                   (Some (cause_of error)))).

(* ================================================================== *)
(** ** A JavaScript [Map] with string keys                             *)
(* ================================================================== *)

(** Entries in insertion order, as [Map.prototype.keys] iterates them. *)
Definition JsMap (V : Type) : Type := list (string * V).

Fixpoint Map_get {V : Type} (k : string) (m : JsMap V) : option V :=
  match m with
  | [] => None
  | (k', v) :: m' => if String.eqb k k' then Some v else Map_get k m'
  end.

Definition Map_has {V : Type} (k : string) (m : JsMap V) : bool :=
  match Map_get k m with
  | Some _ => true
  | None => false
  end.

(** [m.set(k, v)]: an existing key keeps its place, a new one goes last. *)
Fixpoint Map_set {V : Type} (k : string) (v : V) (m : JsMap V) : JsMap V :=
  match m with
  | [] => [(k, v)]
  | (k', v') :: m' =>
      if String.eqb k k' then (k, v) :: m' else (k', v') :: Map_set k v m'
  end.

(** [Array.from(m.keys())]. *)
Definition Map_keys {V : Type} (m : JsMap V) : list string := map fst m.

(** A [Map] holds each key once. *)
Definition Map_wf {V : Type} (m : JsMap V) : Prop := NoDup (Map_keys m).

(* ================================================================== *)
(** ** BatchedUsageRecordStrategy                                      *)
(* ================================================================== *)

Module BatchedUsageRecordStrategy.

(** [BatchedUsageRecordConfig]; [None] is an absent option. *)
Record BatchedUsageRecordConfig : Type := {
  stripeApiKey : string;
  cfg_batchIntervalMs : option Z;
  cfg_maxBatchSize : option Z;
  cfg_flushOnDispose : option bool
}.

Record BatchedUsageRecord : Type := {
  customerId : string;
  usageValue : Z;
  apiEndpoint : option string;
  timestamp : Z
}.

(** The handle [setInterval] returns. *)
Inductive Timeout : Type := Timer (ms : Z).

(** The fields of an instance. *)
Record Strategy : Type := {
  batchIntervalMs : Z;
  maxBatchSize : Z;
  flushOnDispose : bool;
  pendingUsage : JsMap (list BatchedUsageRecord);
  flushInterval : option Timeout;
  disposed : bool
}.

Definition set_pendingUsage (f : JsMap (list BatchedUsageRecord) ->
                                 JsMap (list BatchedUsageRecord))
    (s : Strategy) : Strategy :=
  {| batchIntervalMs := batchIntervalMs s;
     maxBatchSize := maxBatchSize s;
     flushOnDispose := flushOnDispose s;
     pendingUsage := f (pendingUsage s);
     flushInterval := flushInterval s;
     disposed := disposed s |}.

Definition set_flushInterval (t : option Timeout) (s : Strategy) : Strategy :=
  {| batchIntervalMs := batchIntervalMs s;
     maxBatchSize := maxBatchSize s;
     flushOnDispose := flushOnDispose s;
     pendingUsage := pendingUsage s;
     flushInterval := t;
     disposed := disposed s |}.

Definition set_disposed (b : bool) (s : Strategy) : Strategy :=
  {| batchIntervalMs := batchIntervalMs s;
     maxBatchSize := maxBatchSize s;
     flushOnDispose := flushOnDispose s;
     pendingUsage := pendingUsage s;
     flushInterval := flushInterval s;
     disposed := b |}.

(** [x || d] on an optional number: [undefined] and [0] are falsy. *)
Definition or_default (x : option Z) (d : Z) : Z :=
  match x with
  | None => d
  | Some n => if n =? 0 then d else n
  end.

(** The constructor: the new instance and the trace of its effects
    (the timer it arms), or the error it throws. *)
Definition constructor (config : BatchedUsageRecordConfig)
  : Outcome (World Strategy) :=
  if String.eqb (stripeApiKey config) EmptyString then
    Rejected (VError (new_Error "Stripe API key is required"))
  else
    let batchIntervalMs := or_default (cfg_batchIntervalMs config) 60000 in
    let maxBatchSize := or_default (cfg_maxBatchSize config) 100 in
    let flushOnDispose :=
      match cfg_flushOnDispose config with
      | Some false => false
      | _ => true
      end in
    Resolved
      {| this := {| batchIntervalMs := batchIntervalMs;
                    maxBatchSize := maxBatchSize;
                    flushOnDispose := flushOnDispose;
                    pendingUsage := [];
                    flushInterval := Some (Timer batchIntervalMs);
                    disposed := false |};
         trace := [EvSetInterval batchIntervalMs] |}.

(** [usageRecords.reduce((sum, record) => sum + record.usageValue, 0)]. *)
Definition totalUsage (usageRecords : list BatchedUsageRecord) : Z :=
  fold_left (fun sum record => sum + usageValue record) usageRecords 0.

Section Methods.
Variable env : Env.

(** [private async flushBatch(subscriptionItemId)]. *)
Definition flushBatch (subscriptionItemId : string) : M Strategy unit :=
  emit (EvFlushBatch subscriptionItemId) ;;;
  usageRecords <- gets (fun s => Map_get subscriptionItemId (pendingUsage s)) ;;
  match usageRecords with
  | None | Some [] => ret tt
  | Some usageRecords =>
      try_catch
        (let totalUsage := totalUsage usageRecords in
         now <- ask (Date_now env) ;;
         let params := {| quantity := totalUsage;
                          ur_timestamp := now / 1000;
                          ur_action := INCREMENT |} in
         await_call (EvCreateUsageRecord subscriptionItemId params)
           (fun t => createUsageRecord env t subscriptionItemId params) ;;;
         (* usageRecords.length = 0 *)
         modify (set_pendingUsage (Map_set subscriptionItemId [])))
        (wrap_backend_error
           ("Failed to flush usage records for subscription item "
            ++ subscriptionItemId)%string)
  end.

(** [private async flushAllBatches()]. *)
Definition flushAllBatches : M Strategy unit :=
  emit EvFlushAllBatches ;;;
  subscriptionItemIds <- gets (fun s => Map_keys (pendingUsage s)) ;;
  for_of subscriptionItemIds (fun subscriptionItemId =>
    try_catch
      (flushBatch subscriptionItemId)
      (fun error =>
         console_error
           ("Error flushing batch for " ++ subscriptionItemId ++ ":")%string
           error)).

(** The callback the constructor hands to [setInterval]. *)
Definition interval_callback : M Strategy unit :=
  try_catch flushAllBatches
    (fun error => console_error "Error flushing batched usage:" error).

(** [async recordUsage(customerId, usageValue, apiEndpoint?)];
    a missing [customerId] is [None]. *)
Definition recordUsage (customerId : option string) (usageValue : Z)
    (apiEndpoint : option string) : M Strategy unit :=
  isDisposed <- gets disposed ;;
  if isDisposed then
    throw (VError (new_Error
             "Strategy has been disposed and cannot record usage"))
  else
  match customerId with
  | None | Some EmptyString =>
      throw (VError (new_InvalidInputError "Customer ID is required"))
  | Some customerId =>
  if usageValue <=? 0 then
    throw (VError (new_InvalidInputError
             "Usage value must be greater than zero"))
  else
    try_catch
      (subscriptionItemId <-
         await_call (EvGetSubscriptionItemId customerId)
           (fun t => getSubscriptionItemId env t customerId) ;;
       has <- gets (fun s => Map_has subscriptionItemId (pendingUsage s)) ;;
       (if negb has
        then modify (set_pendingUsage (Map_set subscriptionItemId []))
        else ret tt) ;;;
       usageRecords <-
         gets (fun s => Map_get subscriptionItemId (pendingUsage s)) ;;
       match usageRecords with
       | None =>
           throw (VError (new_TypeError
             "Cannot read properties of undefined (reading 'push')"))
       | Some usageRecords =>
           now <- ask (Date_now env) ;;
           let usageRecords :=
             usageRecords ++ [ {| customerId := customerId;
                                  usageValue := usageValue;
                                  apiEndpoint := apiEndpoint;
                                  timestamp := now |} ] in
           modify (set_pendingUsage
                     (Map_set subscriptionItemId usageRecords)) ;;;
           max <- gets maxBatchSize ;;
           if Z.of_nat (length usageRecords) >=? max
           then flushBatch subscriptionItemId
           else ret tt
       end)
      (fun error =>
         match error with
         | VError e => throw (VError e)
         | _ => throw (VError (new_Error
                  ("Unknown error in recordUsage: " ++ String_of error)))
         end)
  end.

(** [async dispose()]. *)
Definition dispose : M Strategy unit :=
  isDisposed <- gets disposed ;;
  if isDisposed then ret tt
  else
    timer <- gets flushInterval ;;
    match timer with
    | Some _ =>
        emit EvClearInterval ;;;
        modify (set_flushInterval None)
    | None => ret tt
    end ;;;
    flush <- gets flushOnDispose ;;
    (if flush
     then try_catch flushAllBatches
            (fun error =>
               console_error "Error flushing batches during disposal:" error)
     else ret tt) ;;;
    modify (set_disposed true).
End Methods.

End BatchedUsageRecordStrategy.

(* ================================================================== *)
(** ** ImmediateMeterEventStrategy                                     *)
(* ================================================================== *)

(** A number inside a template literal: its decimal digits. *)
Definition Number_toString (n : Z) : string :=
  NilZero.string_of_int (Z.to_int n).

Module ImmediateMeterEventStrategy.

(** [ImmediateMeterEventConfig]; [None] is an absent option. *)
Record ImmediateMeterEventConfig : Type := {
  stripeApiKey : string;
  cfg_idempotencyKeyPrefix : option string
}.

(** The fields of an instance. *)
Record Strategy : Type := {
  idempotencyKeyPrefix : string;
  disposed : bool
}.

Definition set_disposed (b : bool) (s : Strategy) : Strategy :=
  {| idempotencyKeyPrefix := idempotencyKeyPrefix s; disposed := b |}.

Section Methods.
Variable env : Env.

Definition constructor (config : ImmediateMeterEventConfig)
  : Outcome (World Strategy) :=
  if String.eqb (stripeApiKey config) EmptyString then
    Rejected (VError (new_Error "Stripe API key is required"))
  else
    Resolved
      {| this :=
           {| idempotencyKeyPrefix :=
                if truthy_string (cfg_idempotencyKeyPrefix config)
                then match cfg_idempotencyKeyPrefix config with
                     | Some prefix => prefix
                     | None => EmptyString
                     end
                else ("meter_event_" ++ Math_random_suffix env)%string;
              disposed := false |};
         trace := [] |}.

(** [async recordUsage(customerId, usageValue, apiEndpoint?)];
    a missing [customerId] is [None]. *)
Definition recordUsage (customerId : option string) (usageValue : Z)
    (apiEndpoint : option string) : M Strategy unit :=
  isDisposed <- gets disposed ;;
  if isDisposed then
    throw (VError (new_Error
             "Strategy has been disposed and cannot record usage"))
  else
  match customerId with
  | None | Some EmptyString =>
      throw (VError (new_InvalidInputError "Customer ID is required"))
  | Some customerId =>
  if usageValue <=? 0 then
    throw (VError (new_InvalidInputError
             "Usage value must be greater than zero"))
  else
    try_catch
      (timestamp <- ask (Date_now env) ;;
       prefix <- gets idempotencyKeyPrefix ;;
       let idempotencyKey :=
         (prefix ++ "_" ++ customerId ++ "_"
            ++ Number_toString timestamp)%string in
       let params :=
         {| customer := customerId;
            value := usageValue;
            me_action := INCREMENT;
            aggregation_method := SUM;
            idempotency_key := idempotencyKey;
            api_endpoint :=
              if truthy_string apiEndpoint
              then match apiEndpoint with
                   | Some endpoint => endpoint
                   | None => EmptyString
                   end
              else "not_specified" |} in
       await_call (EvMeterEventsCreate params)
         (fun t => meterEventsCreate env t params))
      (wrap_backend_error
         ("Failed to record meter event for customer " ++ customerId)%string)
  end.

(** [async dispose()]. *)
Definition dispose : M Strategy unit :=
  modify (set_disposed true).
End Methods.

End ImmediateMeterEventStrategy.

(* ================================================================== *)
(** ** MeteringService                                                 *)
(* ================================================================== *)

Module MeteringService.

(** [enhancedError.message = ...]: the same error object, its message
    replaced. *)
Definition set_message (message' : string) (e : JsError) : JsError :=
  mkJsError (name e) message' (code e) (statusCode e) (stripeCode e) (cause e).

(** [async recordApiCall(customerId, usageValue, apiEndpoint?)], over the
    [recordUsage] of the strategy the service was built with. *)
Definition recordApiCall {T : Type}
    (strategy_recordUsage : option string -> Z -> option string -> M T unit)
    (customerId : option string) (usageValue : Z) (apiEndpoint : option string)
  : M T unit :=
  match customerId with
  | None | Some EmptyString =>
      throw (VError (new_Error "Customer ID is required"))
  | Some _ =>
      if usageValue <=? 0 then
        throw (VError (new_Error "Usage value must be greater than zero"))
      else
        try_catch
          (strategy_recordUsage customerId usageValue apiEndpoint)
          (fun error =>
             let enhancedError :=
               match error with
               | VError e => e
               | _ => new_Error "Unknown error occurred"
               end in
             throw (VError (set_message
                              ("Failed to record API call: "
                               ++ message enhancedError)%string
                              enhancedError)))
  end.

End MeteringService.

(* ================================================================== *)
(** ** The collaborators of the test suites                            *)
(* ================================================================== *)

(** A collaborator set in the style of the mocks of
    [tests/stripe/batched-usage-record-strategy.test.ts]: the resolver
    and the backend are given per customer and per subscription item,
    the clock stands still. *)
Definition mock_env (resolve : string -> Outcome string)
    (submit : string -> Outcome unit) : Env :=
  {| getSubscriptionItemId := fun _ customerId => resolve customerId;
     createUsageRecord := fun _ subscriptionItemId _ => submit subscriptionItemId;
     meterEventsCreate := fun _ params => submit (customer params);
     Date_now := fun _ => 1700000000123;
     Math_random_suffix := "k2j9x0q" |}.

(** The resolver of [TestBatchedStrategy]. *)
Definition test_resolve (customerId : string) : Outcome string :=
  if String.eqb customerId "cus_unknown" then
    Rejected (VError (new_Error "Unknown customer"))
  else if String.eqb customerId "cus_string_error" then
    Rejected (VString "String error")
  else if String.eqb customerId "cus_error" then Resolved "si_error"
  else if String.eqb customerId "cus_a" then Resolved "si_1"
  else Resolved "si_123".

(** The mocked [createUsageRecord] (and [meterEvents.create]). *)
Definition test_submit (id : string) : Outcome unit :=
  if String.eqb id "si_error" || String.eqb id "cus_error" then
    Rejected (VError (new_Error "Stripe API error"))
  else Resolved tt.

Definition test_env : Env := mock_env test_resolve test_submit.

(* ================================================================== *)
(** ** Observations on traces                                          *)
(* ================================================================== *)

(** The submissions the backend reporter received. *)
Fixpoint backend_calls (t : list Event) : list (string * UsageRecordParams) :=
  match t with
  | [] => []
  | EvCreateUsageRecord subscriptionItemId params :: t' =>
      (subscriptionItemId, params) :: backend_calls t'
  | _ :: t' => backend_calls t'
  end.

(** The keys [flushBatch] was called with. *)
Fixpoint flush_calls (t : list Event) : list string :=
  match t with
  | [] => []
  | EvFlushBatch subscriptionItemId :: t' => subscriptionItemId :: flush_calls t'
  | _ :: t' => flush_calls t'
  end.

(** The customers the resolver was asked about. *)
Fixpoint resolver_calls (t : list Event) : list string :=
  match t with
  | [] => []
  | EvGetSubscriptionItemId customerId :: t' => customerId :: resolver_calls t'
  | _ :: t' => resolver_calls t'
  end.

(** What [console.error] printed. *)
Fixpoint console_errors (t : list Event) : list (string * JsValue) :=
  match t with
  | [] => []
  | EvConsoleError label error :: t' => (label, error) :: console_errors t'
  | _ :: t' => console_errors t'
  end.

(** The number of [clearInterval] calls. *)
Fixpoint clear_calls (t : list Event) : nat :=
  match t with
  | [] => O
  | EvClearInterval :: t' => S (clear_calls t')
  | _ :: t' => clear_calls t'
  end.

(** The events of [w'] that came after those of [w]. *)
Definition new_events {T : Type} (w w' : World T) : list Event :=
  skipn (length (trace w)) (trace w').

(** The sum of a list of numbers. *)
Definition Zsum (l : list Z) : Z := fold_right Z.add 0 l.

(** The world a computation leaves. *)
Definition after {T A : Type} (m : M T A) (w : World T) : World T := snd (m w).

(** Whether a promise settled by rejecting with a [StripeApiError]. *)
Definition rejects_with_StripeApiError {A : Type} (o : Outcome A) : bool :=
  match o with
  | Resolved _ => false
  | Rejected error => instanceof_StripeApiError error
  end.

(** The world [w] after the events [evs]. *)
Definition log {T : Type} (w : World T) (evs : list Event) : World T :=
  {| this := this w; trace := trace w ++ evs |}.

Import BatchedUsageRecordStrategy.

(** The error the [catch] clause throws. *)
Definition wrapped (prefix : string) (error : JsValue) : JsError :=
  new_StripeApiError
    (prefix ++ ": " ++ errorMessage_of error)%string
    (errorDetails_of (code_of error) (statusCode_of error))
    (Some (cause_of error)).

(** The submission [flushBatch] makes for the batch [usageRecords]. *)
Definition flush_params (env : Env) (key : string) (w : World Strategy)
    (usageRecords : list BatchedUsageRecord) : UsageRecordParams :=
  {| quantity := Zsum (map usageValue usageRecords);
     ur_timestamp := Date_now env (trace w ++ [EvFlushBatch key]) / 1000;
     ur_action := INCREMENT |}.

Definition flush_prefix (key : string) : string :=
  ("Failed to flush usage records for subscription item " ++ key)%string.

(** The meter event the immediate strategy sends for a call. *)
Definition meter_params (env : Env) (customerId : string) (usageValue : Z)
    (apiEndpoint : option string)
    (w : World ImmediateMeterEventStrategy.Strategy) : MeterEventParams :=
  {| customer := customerId;
     value := usageValue;
     me_action := INCREMENT;
     aggregation_method := SUM;
     idempotency_key :=
       (ImmediateMeterEventStrategy.idempotencyKeyPrefix (this w) ++ "_"
          ++ customerId ++ "_" ++ Number_toString (Date_now env (trace w)))%string;
     api_endpoint :=
       match apiEndpoint with
       | Some (String a endpoint) => String a endpoint
       | _ => "not_specified"
       end |}.

Definition meter_prefix (customerId : string) : string :=
  ("Failed to record meter event for customer " ++ customerId)%string.

(** The error [new Error('Rate limited')] with a [code] and no [statusCode]. *)
Definition error_with_code_only : JsError :=
  mkJsError Error "Rate limited" (Some "rate_limit") None None None.

(** The Stripe error of the test suite: [code] and [statusCode] both set. *)
Definition error_resource_missing : JsError :=
  mkJsError Error "Resource not found" (Some "resource_missing") (Some 404)
    None None.

(** An error with a [statusCode] and no [code]. *)
Definition error_with_status_only : JsError :=
  mkJsError Error "Service unavailable" None (Some 503) None None.

(** How the wrapping error [e] relates to the failure [error] it wraps:
    the cause is the original error; its code and status are on [e] when
    the failure has both, and neither is when it lacks one of them. *)
Definition wraps (error : JsValue) (e : JsError) : Prop :=
  name e = StripeApiError
  /\ cause e = Some (cause_of error)
  /\ (truthy_string (code_of error) = true ->
      truthy_number (statusCode_of error) = true ->
      stripeCode e = code_of error /\ statusCode e = statusCode_of error)
  /\ (truthy_string (code_of error) = false
      \/ truthy_number (statusCode_of error) = false ->
      stripeCode e = None /\ statusCode e = None).

(** The batch of a key; an absent key has no entry. *)
Definition batch_of (key : string) (w : World Strategy)
  : list BatchedUsageRecord :=
  match Map_get key (pendingUsage (this w)) with
  | Some usageRecords => usageRecords
  | None => []
  end.

(** The entry [recordUsage] pushes, stamped after the resolver answered. *)
Definition new_entry (env : Env) (customerId : string) (usageValue : Z)
    (apiEndpoint : option string) (w : World Strategy) : BatchedUsageRecord :=
  {| customerId := customerId;
     usageValue := usageValue;
     apiEndpoint := apiEndpoint;
     timestamp := Date_now env (trace w ++ [EvGetSubscriptionItemId customerId]) |}.

(** The world once [recordUsage] has resolved [customerId] to [key] and
    pushed the entry, before it looks at the batch length. *)
Definition appended (env : Env) (customerId : string) (usageValue : Z)
    (apiEndpoint : option string) (key : string) (w : World Strategy)
  : World Strategy :=
  {| this := set_pendingUsage
               (Map_set key (batch_of key w
                             ++ [new_entry env customerId usageValue apiEndpoint w]))
               (this w);
     trace := trace w ++ [EvGetSubscriptionItemId customerId] |}.

(** What the [catch] clause of [recordUsage] throws for a caught value. *)
Definition rethrown (error : JsValue) : JsError :=
  match error with
  | VError e => e
  | _ => new_Error ("Unknown error in recordUsage: " ++ String_of error)
  end.

(** The label [flushAllBatches] reports a failed key under. *)
Definition sweep_label (key : string) : string :=
  ("Error flushing batch for " ++ key ++ ":")%string.

(** One turn of the loop of [flushAllBatches]:
    [try { await this.flushBatch(id) } catch (error) { console.error(...) }]. *)
Definition guarded_flush (env : Env) (subscriptionItemId : string)
  : M Strategy unit :=
  try_catch (flushBatch env subscriptionItemId)
    (fun error => console_error (sweep_label subscriptionItemId) error).

(** The loop of [flushAllBatches] over a snapshot of keys. *)
Definition sweep (env : Env) (subscriptionItemIds : list string)
  : M Strategy unit :=
  for_of subscriptionItemIds (guarded_flush env).

(** The turn of [key] in a sweep from [w] to [w'] whose events are [evs]:
    [flushBatch] was entered for [key] in a world [wk], reached after the
    events [pre], in which the batch of [key] was still as in [w]; if that
    flush rejects, its error is on the console under the label of the key
    and the batch ends as it began; if it resolves, the batch ends empty. *)
Definition turn_of (env : Env) (key : string) (w w' : World Strategy)
    (evs : list Event) : Prop :=
  exists wk pre post,
    evs = pre ++ EvFlushBatch key :: post
    /\ trace wk = trace w ++ pre
    /\ batch_of key wk = batch_of key w
    /\ (forall error,
          fst (flushBatch env key wk) = Rejected error ->
          In (sweep_label key, error) (console_errors evs)
          /\ batch_of key w' = batch_of key w)
    /\ (fst (flushBatch env key wk) = Resolved tt -> batch_of key w' = []).

(** Two instances that differ at most in their pending usage. *)
Definition same_settings (s s' : Strategy) : Prop :=
  batchIntervalMs s' = batchIntervalMs s
  /\ maxBatchSize s' = maxBatchSize s
  /\ flushOnDispose s' = flushOnDispose s
  /\ flushInterval s' = flushInterval s
  /\ disposed s' = disposed s.

(** What can happen to a batched strategy: a caller records usage or
    disposes of it, or the timer of the constructor fires (which it only
    does while the interval is armed). *)
Inductive Call : Type :=
| CallRecordUsage (customerId : option string) (usageValue : Z)
    (apiEndpoint : option string)
| CallDispose
| TimerFires.

Definition timer_fires (env : Env) : M Strategy unit :=
  timer <- gets flushInterval ;;
  match timer with
  | Some _ => interval_callback env
  | None => ret tt
  end.

Definition run_call (env : Env) (call : Call) : M Strategy unit :=
  match call with
  | CallRecordUsage customerId usageValue apiEndpoint =>
      recordUsage env customerId usageValue apiEndpoint
  | CallDispose => dispose env
  | TimerFires => timer_fires env
  end.

(** The world after a sequence of calls, settled one after the other. *)
Fixpoint run_calls (env : Env) (calls : list Call) (w : World Strategy)
  : World Strategy :=
  match calls with
  | [] => w
  | call :: calls' => run_calls env calls' (after (run_call env call) w)
  end.

(** The same for the immediate strategy. *)
Inductive ImmediateCall : Type :=
| ImmediateRecordUsage (customerId : option string) (usageValue : Z)
    (apiEndpoint : option string)
| ImmediateDispose.

Definition run_immediate_call (env : Env) (call : ImmediateCall)
  : M ImmediateMeterEventStrategy.Strategy unit :=
  match call with
  | ImmediateRecordUsage customerId usageValue apiEndpoint =>
      ImmediateMeterEventStrategy.recordUsage env customerId usageValue apiEndpoint
  | ImmediateDispose => ImmediateMeterEventStrategy.dispose
  end.

Fixpoint run_immediate_calls (env : Env) (calls : list ImmediateCall)
    (w : World ImmediateMeterEventStrategy.Strategy)
  : World ImmediateMeterEventStrategy.Strategy :=
  match calls with
  | [] => w
  | call :: calls' =>
      run_immediate_calls env calls' (after (run_immediate_call env call) w)
  end.

(** The error of a call on a disposed strategy. *)
Definition disposed_error : JsError :=
  new_Error "Strategy has been disposed and cannot record usage".

(** The world [dispose] flushes from: the timer has been cleared. *)
Definition timer_cleared (w : World Strategy) : World Strategy :=
  match flushInterval (this w) with
  | Some _ => {| this := set_flushInterval None (this w);
                 trace := trace w ++ [EvClearInterval] |}
  | None => w
  end.

(* ================================================================== *)
(** ** Scenarios                                                       *)
(* ================================================================== *)

(** The configuration [{ maxBatchSize: 5, batchIntervalMs: 60000 }]. *)
Definition scenario_config : BatchedUsageRecordConfig :=
  {| stripeApiKey := "test_key";
     cfg_batchIntervalMs := Some 60000;
     cfg_maxBatchSize := Some 5;
     cfg_flushOnDispose := None |}.

(** The instance its constructor builds. *)
Definition scenario_start : World Strategy :=
  {| this := {| batchIntervalMs := 60000;
                maxBatchSize := 5;
                flushOnDispose := true;
                pendingUsage := [];
                flushInterval := Some (Timer 60000);
                disposed := false |};
     trace := [EvSetInterval 60000] |}.

(** Usage 1 recorded three times for [cus_a], which resolves to [si_1]. *)
Definition scenario_three : World Strategy :=
  after (recordUsage test_env (Some "cus_a") 1 None)
    (after (recordUsage test_env (Some "cus_a") 1 None)
       (after (recordUsage test_env (Some "cus_a") 1 None) scenario_start)).

(** An immediate strategy built with the prefix [test_prefix]. *)
Definition immediate_start : World ImmediateMeterEventStrategy.Strategy :=
  {| this := {| ImmediateMeterEventStrategy.idempotencyKeyPrefix := "test_prefix";
                ImmediateMeterEventStrategy.disposed := false |};
     trace := [] |}.

(** Collaborators whose backend always rejects with [error]. *)
Definition failing_env (error : JsValue) : Env :=
  mock_env test_resolve (fun _ => Rejected error).

(** Collaborators whose resolver completes with the empty key. *)
Definition empty_key_env : Env :=
  mock_env (fun _ => Resolved EmptyString) test_submit.

(** The instance of the test suite after [setMaxBatchSize(2)]. *)
Definition scenario_small : World Strategy :=
  {| this := {| batchIntervalMs := 1000;
                maxBatchSize := 2;
                flushOnDispose := true;
                pendingUsage := [];
                flushInterval := Some (Timer 1000);
                disposed := false |};
     trace := [EvSetInterval 1000] |}.

(** Two pending batches, the first of which the backend refuses
    ([addTestRecords('si_error', 1)], [addTestRecords('si_123', 2)]). *)
Definition test_record : BatchedUsageRecord :=
  {| customerId := "cus_test"; usageValue := 1; apiEndpoint := None;
     timestamp := 1700000000123 |}.

Definition scenario_isolation : World Strategy :=
  {| this := {| batchIntervalMs := 1000;
                maxBatchSize := 5;
                flushOnDispose := true;
                pendingUsage := [("si_error", [test_record]);
                                 ("si_123", [test_record; test_record])];
                flushInterval := Some (Timer 1000);
                disposed := false |};
     trace := [EvSetInterval 1000] |}.

(** The same instance with one entry pending for [si_123]: the next
    record for that key reaches the maximum. *)
Definition scenario_one_of_two : World Strategy :=
  after (recordUsage test_env (Some "cus_123") 1 None) scenario_small.

(* ================================================================== *)
(** ** MeteringServiceFactory                                          *)
(* ================================================================== *)

Module MeteringServiceFactory.

(** The configuration object as [createService] reads it: the union of
    the fields of the two configurations, with the tag as it is at run
    time (any string).  [None] is an absent option. *)
Record MeteringConfig : Type := {
  strategyType : string;
  stripeApiKey : string;
  idempotencyKeyPrefix : option string;
  batchIntervalMs : option Z;
  maxBatchSize : option Z;
  flushOnDispose : option bool
}.

(** The service built: [new MeteringService(strategy)] around a new
    strategy, which is always an object, with the effects of its
    constructor. *)
Inductive MeteringService : Type :=
| ImmediateService (strategy : World ImmediateMeterEventStrategy.Strategy)
| BatchedService (strategy : World BatchedUsageRecordStrategy.Strategy).

(** [new ConfigurationError(message)]. *)
Definition new_ConfigurationError (message : string) : JsError :=
  mkJsError ConfigurationError message None None None None.

(** [public static createService(config)]; an absent [config] is [None]. *)
Definition createService (env : Env) (config : option MeteringConfig)
  : Outcome MeteringService :=
  match config with
  | None =>
      Rejected (VError (new_ConfigurationError "Configuration is required"))
  | Some config =>
      if String.eqb (stripeApiKey config) EmptyString then
        Rejected (VError (new_ConfigurationError "Stripe API key is required"))
      else if String.eqb (strategyType config) "immediate" then
        match ImmediateMeterEventStrategy.constructor env
                {| ImmediateMeterEventStrategy.stripeApiKey := stripeApiKey config;
                   ImmediateMeterEventStrategy.cfg_idempotencyKeyPrefix :=
                     idempotencyKeyPrefix config |} with
        | Resolved strategy => Resolved (ImmediateService strategy)
        | Rejected error => Rejected error
        end
      else if String.eqb (strategyType config) "batched" then
        match BatchedUsageRecordStrategy.constructor
                {| BatchedUsageRecordStrategy.stripeApiKey := stripeApiKey config;
                   BatchedUsageRecordStrategy.cfg_batchIntervalMs :=
                     batchIntervalMs config;
                   BatchedUsageRecordStrategy.cfg_maxBatchSize :=
                     maxBatchSize config;
                   BatchedUsageRecordStrategy.cfg_flushOnDispose :=
                     flushOnDispose config |} with
        | Resolved strategy => Resolved (BatchedService strategy)
        | Rejected error => Rejected error
        end
      else
        Rejected (VError (new_ConfigurationError
                   ("Unknown strategy type: " ++ strategyType config)))
  end.

End MeteringServiceFactory.

(* ================================================================== *)
(** ** More of MeteringService and of the resolution hook              *)
(* ================================================================== *)

(** [recordApiCall] with its default parameter [usageValue: number = 1]:
    an omitted usage value is [None]. *)
Definition recordApiCall_default {T : Type}
    (strategy_recordUsage : option string -> Z -> option string -> M T unit)
    (customerId : option string) (usageValue : option Z)
    (apiEndpoint : option string) : M T unit :=
  MeteringService.recordApiCall strategy_recordUsage customerId
    match usageValue with
    | Some v => v
    | None => 1
    end
    apiEndpoint.

(** [MeteringService.dispose()]: the [dispose] of the strategy when it
    has one that is a function ([Some]), nothing otherwise. *)
Definition service_dispose {T : Type} (strategy_dispose : option (M T unit))
  : M T unit :=
  match strategy_dispose with
  | Some dispose => dispose
  | None => ret tt
  end.

(** [protected async getSubscriptionItemId(customerId)] as the class
    itself has it, when no subclass overrides it. *)
Definition base_getSubscriptionItemId (customerId : string) : Outcome string :=
  Rejected (VError (new_Error
    "Subscription item ID resolution is not implemented in this example")).

(** The error of the hook. *)
Definition hook_error : JsError :=
  new_Error "Subscription item ID resolution is not implemented in this example".

(** Collaborators whose resolver is the hook of the class itself. *)
Definition uses_base_hook (env : Env) : Prop :=
  forall t customerId,
    getSubscriptionItemId env t customerId = base_getSubscriptionItemId customerId.

Definition base_env : Env :=
  mock_env base_getSubscriptionItemId test_submit.

(* ================================================================== *)
(** ** Accounting of usage                                             *)
(* ================================================================== *)

(** The usage pending in the store: the sum over every batch. *)
Definition batch_total (usageRecords : list BatchedUsageRecord) : Z :=
  Zsum (map usageValue usageRecords).

Definition pending_total (w : World Strategy) : Z :=
  Zsum (map (fun entry => batch_total (snd entry)) (pendingUsage (this w))).

(** The usage the backend accepted among the events [evs] that follow
    the trace [pre]: the quantity of each submission that the backend,
    asked again with the trace it was asked with, resolves. *)
Fixpoint accepted (env : Env) (pre evs : list Event) : Z :=
  match evs with
  | [] => 0
  | ev :: evs' =>
      match ev with
      | EvCreateUsageRecord subscriptionItemId params =>
          match createUsageRecord env pre subscriptionItemId params with
          | Resolved _ => quantity params
          | Rejected _ => 0
          end
      | _ => 0
      end + accepted env (pre ++ [ev]) evs'
  end.

(** The usage a call puts into the store in the world [w]: the value of a
    [recordUsage] that passes the checks and whose customer resolves. *)
Definition appended_by (env : Env) (call : Call) (w : World Strategy) : Z :=
  match call with
  | CallRecordUsage (Some (String a c)) usageValue _ =>
      if disposed (this w) then 0
      else if usageValue <=? 0 then 0
      else match getSubscriptionItemId env (trace w) (String a c) with
           | Resolved _ => usageValue
           | Rejected _ => 0
           end
  | _ => 0
  end.

(** The same along a sequence of calls. *)
Fixpoint recorded (env : Env) (calls : list Call) (w : World Strategy) : Z :=
  match calls with
  | [] => 0
  | call :: calls' =>
      appended_by env call w
      + recorded env calls' (after (run_call env call) w)
  end.

(** The submissions a sweep owes for a store: one per batch that is not
    empty, in the order of the keys, with the sum of the batch. *)
Fixpoint owed (store : JsMap (list BatchedUsageRecord)) : list (string * Z) :=
  match store with
  | [] => []
  | (key, []) :: store' => owed store'
  | (key, usageRecords) :: store' =>
      (key, batch_total usageRecords) :: owed store'
  end.

(** The key and the quantity of each submission. *)
Definition quantities (calls : list (string * UsageRecordParams))
  : list (string * Z) :=
  map (fun call => (fst call, quantity (snd call))) calls.

(** A backend that accepts every submission. *)
Definition backend_accepts (env : Env) : Prop :=
  forall t subscriptionItemId params,
    createUsageRecord env t subscriptionItemId params = Resolved tt.

(** [l1] begins [l2]. *)
Definition begins {A : Type} (l1 l2 : list A) : Prop :=
  exists rest, l2 = l1 ++ rest.

(** The collaborators of the test suite with a clock that advances by
    one millisecond at every effect. *)
Definition ticking_env : Env :=
  {| getSubscriptionItemId := fun _ customerId => test_resolve customerId;
     createUsageRecord := fun _ subscriptionItemId _ => test_submit subscriptionItemId;
     meterEventsCreate := fun _ params => test_submit (customer params);
     Date_now := fun t => 1700000000000 + Z.of_nat (length t);
     Math_random_suffix := "k2j9x0q" |}.

(** A backend that refuses the first submission it gets and accepts
    every later one. *)
Definition flaky_env : Env :=
  {| getSubscriptionItemId := fun _ customerId => test_resolve customerId;
     createUsageRecord := fun t _ _ =>
       match backend_calls t with
       | [] => Rejected (VError (new_Error "Stripe API error"))
       | _ => Resolved tt
       end;
     meterEventsCreate := fun _ params => test_submit (customer params);
     Date_now := fun _ => 1700000000123;
     Math_random_suffix := "k2j9x0q" |}.

(** The two pending batches, in a strategy built with
    [flushOnDispose: false]. *)
Definition scenario_no_flush : World Strategy :=
  {| this := {| batchIntervalMs := 1000;
                maxBatchSize := 5;
                flushOnDispose := false;
                pendingUsage := [("si_error", [test_record]);
                                 ("si_123", [test_record; test_record])];
                flushInterval := Some (Timer 1000);
                disposed := false |};
     trace := [EvSetInterval 1000] |}.

(** Collaborators whose backend accepts every submission. *)
Definition accepting_env : Env :=
  mock_env test_resolve (fun _ => Resolved tt).

(** From [w] to [w'] the usage is accounted for: the trace has grown,
    and what is pending in [w'] plus what the backend accepted on the way
    is what was pending in [w] plus [added]. *)
Definition conserves (env : Env) (w w' : World Strategy) (added : Z) : Prop :=
  exists evs,
    trace w' = trace w ++ evs
    /\ pending_total w' + accepted env (trace w) evs = pending_total w + added.

(* ================================================================== *)
(** ** A flush in two halves                                           *)
(* ================================================================== *)

(** [flushBatch] suspends once, at [await createUsageRecord(...)]: other
    calls can run on the instance between the moment the submission
    leaves and the moment it settles.  The first half runs up to that
    point: it returns [None] when there is nothing to send, and otherwise
    how the submission will settle. *)
Definition flushBatch_until_await (env : Env) (subscriptionItemId : string)
  : M Strategy (option (Outcome unit)) :=
  emit (EvFlushBatch subscriptionItemId) ;;;
  usageRecords <- gets (fun s => Map_get subscriptionItemId (pendingUsage s)) ;;
  match usageRecords with
  | None | Some [] => ret None
  | Some usageRecords =>
      let totalUsage := totalUsage usageRecords in
      now <- ask (Date_now env) ;;
      let params := {| quantity := totalUsage;
                       ur_timestamp := now / 1000;
                       ur_action := INCREMENT |} in
      settled <- ask (fun t => createUsageRecord env t subscriptionItemId params) ;;
      emit (EvCreateUsageRecord subscriptionItemId params) ;;;
      ret (Some settled)
  end.

(** The second half, from the settlement on.  [usageRecords] is the
    array that is in the store: [usageRecords.length = 0] empties it
    with whatever it holds by then. *)
Definition flushBatch_from_await (subscriptionItemId : string)
    (settled : Outcome unit) : M Strategy unit :=
  try_catch
    (match settled with
     | Resolved _ =>
         modify (set_pendingUsage (Map_set subscriptionItemId []))
     | Rejected error => throw error
     end)
    (wrap_backend_error
       ("Failed to flush usage records for subscription item "
        ++ subscriptionItemId)%string).

(** The two halves one after the other. *)
Definition flushBatch_resumed (env : Env) (subscriptionItemId : string)
  : M Strategy unit :=
  settled <- flushBatch_until_await env subscriptionItemId ;;
  match settled with
  | None => ret tt
  | Some settled => flushBatch_from_await subscriptionItemId settled
  end.

(* ================================================================== *)
(** * Properties                                                       *)
(* ================================================================== *)

(** ** Maps *)

Section MapFacts.
Context {V : Type}.
Implicit Types (m : JsMap V) (k : string) (v : V).

Lemma Map_get_set_eq k v m : Map_get k (Map_set k v m) = Some v.
Proof.
  induction m as [|[k' v'] m IH]; simpl.
  - now rewrite String.eqb_refl.
  - destruct (String.eqb k k') eqn:E; simpl.
    + now rewrite String.eqb_refl.
    + now rewrite E.
Qed.

Lemma Map_get_set_ne k k' v m :
  k <> k' -> Map_get k' (Map_set k v m) = Map_get k' m.
Proof.
  intros Hne. induction m as [|[k0 v0] m IH]; simpl.
  - destruct (String.eqb k' k) eqn:E; [|reflexivity].
    apply String.eqb_eq in E. congruence.
  - destruct (String.eqb k k0) eqn:E; simpl.
    + apply String.eqb_eq in E. subst k0.
      destruct (String.eqb k' k) eqn:E'; [|reflexivity].
      apply String.eqb_eq in E'. congruence.
    + now rewrite IH.
Qed.

Lemma Map_get_In_keys k m :
  In k (Map_keys m) <-> exists v, Map_get k m = Some v.
Proof.
  induction m as [|[k' v'] m IH]; simpl.
  - split; [tauto | intros [v H]; discriminate].
  - destruct (String.eqb k k') eqn:E.
    + apply String.eqb_eq in E. subst. split; eauto.
    + apply String.eqb_neq in E. rewrite <- IH. split.
      * intros [H|H]; [congruence | exact H].
      * auto.
Qed.

Lemma Map_keys_set_present k v m :
  In k (Map_keys m) -> Map_keys (Map_set k v m) = Map_keys m.
Proof.
  induction m as [|[k' v'] m IH]; simpl; [tauto|].
  intros H. destruct (String.eqb k k') eqn:E; simpl.
  - apply String.eqb_eq in E. now subst.
  - apply String.eqb_neq in E. f_equal. apply IH.
    destruct H; [congruence | assumption].
Qed.

Lemma Map_keys_set_absent k v m :
  ~ In k (Map_keys m) -> Map_keys (Map_set k v m) = Map_keys m ++ [k].
Proof.
  induction m as [|[k' v'] m IH]; simpl; [reflexivity|].
  intros H. destruct (String.eqb k k') eqn:E; simpl.
  - apply String.eqb_eq in E. subst. tauto.
  - f_equal. apply IH. tauto.
Qed.

(** [set] keeps the keys distinct. *)
Lemma Map_wf_set k v m : Map_wf m -> Map_wf (Map_set k v m).
Proof.
  unfold Map_wf. intros Hwf.
  destruct (in_dec string_dec k (Map_keys m)) as [Hin|Hin].
  - now rewrite Map_keys_set_present.
  - rewrite Map_keys_set_absent by assumption.
    apply NoDup_app; try assumption.
    + constructor; [simpl; tauto | constructor].
    + intros x Hx [Hk|[]]. subst. tauto.
Qed.
End MapFacts.

(** ** Traces *)

Lemma backend_calls_app t1 t2 :
  backend_calls (t1 ++ t2) = backend_calls t1 ++ backend_calls t2.
Proof.
  induction t1 as [|ev t1 IH]; simpl; [reflexivity|].
  destruct ev; simpl; now rewrite ?IH.
Qed.

Lemma flush_calls_app t1 t2 :
  flush_calls (t1 ++ t2) = flush_calls t1 ++ flush_calls t2.
Proof.
  induction t1 as [|ev t1 IH]; simpl; [reflexivity|].
  destruct ev; simpl; now rewrite ?IH.
Qed.

Lemma console_errors_app t1 t2 :
  console_errors (t1 ++ t2) = console_errors t1 ++ console_errors t2.
Proof.
  induction t1 as [|ev t1 IH]; simpl; [reflexivity|].
  destruct ev; simpl; now rewrite ?IH.
Qed.

Lemma skipn_length_app {A : Type} (l1 l2 : list A) :
  skipn (length l1) (l1 ++ l2) = l2.
Proof. induction l1; simpl; auto. Qed.

Lemma new_events_log {T : Type} (w : World T) (this' : T) (evs : list Event) :
  new_events w {| this := this'; trace := trace w ++ evs |} = evs.
Proof. unfold new_events. simpl. apply skipn_length_app. Qed.

(** ** The sum [flushBatch] computes *)


Lemma fold_usage_acc (l : list BatchedUsageRecord) (acc : Z) :
  fold_left (fun sum record => sum + usageValue record) l acc
  = acc + Zsum (map usageValue l).
Proof.
  revert acc. induction l as [|r l IH]; intros acc; simpl.
  - unfold Zsum. simpl. lia.
  - rewrite IH. unfold Zsum. simpl. lia.
Qed.

(** The left-to-right [reduce] is the sum of the usage values. *)
Lemma totalUsage_sum (l : list BatchedUsageRecord) :
  totalUsage l = Zsum (map usageValue l).
Proof. unfold totalUsage. rewrite fold_usage_acc. lia. Qed.

(** ** One flush *)

Lemma wrap_backend_error_throws {T A : Type} prefix error (w : World T) :
  @wrap_backend_error T A prefix error w
  = (Rejected (VError (wrapped prefix error)), w).
Proof. reflexivity. Qed.

Lemma flushBatch_idle env key (w : World Strategy) :
  Map_get key (pendingUsage (this w)) = None
  \/ Map_get key (pendingUsage (this w)) = Some [] ->
  flushBatch env key w = (Resolved tt, log w [EvFlushBatch key]).
Proof.
  intros H. unfold flushBatch, bind, emit, gets, ret, log. simpl.
  destruct H as [-> | ->]; reflexivity.
Qed.

Lemma flushBatch_run env key (w : World Strategy) usageRecords :
  Map_get key (pendingUsage (this w)) = Some usageRecords ->
  usageRecords <> [] ->
  let params := flush_params env key w usageRecords in
  flushBatch env key w =
    match createUsageRecord env (trace w ++ [EvFlushBatch key]) key params with
    | Resolved _ =>
        (Resolved tt,
         {| this := set_pendingUsage (Map_set key []) (this w);
            trace := trace w ++ [EvFlushBatch key; EvCreateUsageRecord key params] |})
    | Rejected error =>
        (Rejected (VError (wrapped (flush_prefix key) error)),
         log w [EvFlushBatch key; EvCreateUsageRecord key params])
    end.
Proof.
  intros Hget Hne params.
  unfold flushBatch, bind, emit, gets, ret, try_catch, ask, await_call, modify, log.
  simpl. rewrite Hget.
  destruct usageRecords as [|r l]; [congruence|].
  rewrite totalUsage_sum. cbn [this trace]. fold (flush_params env key w (r :: l)).
  fold params. rewrite <- !app_assoc. cbn [app].
  destruct (createUsageRecord env _ key params) as [[]|error]; cbn.
  - reflexivity.
  - now rewrite wrap_backend_error_throws.
Qed.

(** ** The test suites of the repository, replayed on the model *)

Example scenario_constructor : constructor scenario_config = Resolved scenario_start.
Proof. reflexivity. Qed.

Example constructor_requires_api_key :
  constructor {| stripeApiKey := EmptyString; cfg_batchIntervalMs := None;
                 cfg_maxBatchSize := None; cfg_flushOnDispose := None |}
  = Rejected (VError (new_Error "Stripe API key is required")).
Proof. reflexivity. Qed.

Example recordUsage_adds_to_the_batch :
  Map_keys (pendingUsage
              (this (after (recordUsage test_env (Some "cus_123") 1 None)
                       scenario_start))) = ["si_123"]
  /\ length (batch_of "si_123"
               (after (recordUsage test_env (Some "cus_123") 1 None)
                  scenario_start)) = 1%nat.
Proof. split; reflexivity. Qed.

Example recordUsage_unknown_customer :
  fst (recordUsage test_env (Some "cus_unknown") 1 None scenario_start)
  = Rejected (VError (new_Error "Unknown customer")).
Proof. reflexivity. Qed.

Example recordUsage_non_Error_exception :
  fst (recordUsage test_env (Some "cus_string_error") 1 None scenario_start)
  = Rejected (VError (new_Error "Unknown error in recordUsage: String error")).
Proof. reflexivity. Qed.

Example flushBatch_StripeApiError :
  rejects_with_StripeApiError
    (fst (flushBatch test_env "si_error" scenario_isolation)) = true.
Proof. reflexivity. Qed.

Example flushAllBatches_continues_after_a_failure :
  pendingUsage (this (after (flushAllBatches test_env) scenario_isolation))
  = [("si_error", [test_record]); ("si_123", [])].
Proof. reflexivity. Qed.

Example immediate_default_endpoint :
  trace (after (ImmediateMeterEventStrategy.recordUsage test_env
                  (Some "cus_123") 1 None) immediate_start)
  = [EvMeterEventsCreate
       {| customer := "cus_123"; value := 1; me_action := INCREMENT;
          aggregation_method := SUM;
          idempotency_key := "test_prefix_cus_123_1700000000123";
          api_endpoint := "not_specified" |}].
Proof. reflexivity. Qed.

(** ** C1: one flush *)

(** C1.  For a key whose batch is non-empty, [flushBatch] makes exactly one
    backend call, for that key, whose quantity is the sum of the
    [usageValue] of every entry of the batch, whose timestamp is the
    current time in seconds and whose action is [increment]; when the
    backend accepts it, [flushBatch] resolves and the batch of the key is
    left empty.  For a key whose batch is absent or empty, [flushBatch]
    resolves without any backend call and without touching the instance. *)
Theorem C1_flushBatch_one_aggregate_submission
    (env : Env) (key : string) (w : World Strategy) :
  (forall usageRecords,
      Map_get key (pendingUsage (this w)) = Some usageRecords ->
      usageRecords <> [] ->
      let w' := after (flushBatch env key) w in
      let now := Date_now env (trace w ++ [EvFlushBatch key]) in
      let params := {| quantity := Zsum (map usageValue usageRecords);
                       ur_timestamp := now / 1000;
                       ur_action := INCREMENT |} in
      backend_calls (new_events w w') = [(key, params)]
      /\ (createUsageRecord env (trace w ++ [EvFlushBatch key]) key params
           = Resolved tt ->
          fst (flushBatch env key w) = Resolved tt
          /\ Map_get key (pendingUsage (this w')) = Some []))
  /\ (Map_get key (pendingUsage (this w)) = None
      \/ Map_get key (pendingUsage (this w)) = Some [] ->
      fst (flushBatch env key w) = Resolved tt
      /\ backend_calls (new_events w (after (flushBatch env key) w)) = []
      /\ this (after (flushBatch env key) w) = this w).
Proof.
  split.
  - intros usageRecords Hget Hne w' now params. subst w'. unfold after.
    rewrite (flushBatch_run env key w usageRecords Hget Hne).
    fold now. change (flush_params env key w usageRecords) with params.
    split.
    + destruct (createUsageRecord env _ key params);
        unfold log; cbn [snd]; rewrite new_events_log; reflexivity.
    + intros ->. cbn. split; [reflexivity|]. apply Map_get_set_eq.
  - intros H. unfold after. rewrite (flushBatch_idle env key w H).
    unfold log. cbn [fst snd this]. rewrite new_events_log. auto.
Qed.

(** C1 at the scenario of the specification: three records of 1 for
    [si_1], then a flush; and a flush of a key that has no batch. *)
Lemma C1_witness :
  backend_calls
    (new_events scenario_three (after (flushBatch test_env "si_1") scenario_three))
  = [("si_1", {| quantity := 3; ur_timestamp := 1700000000;
                 ur_action := INCREMENT |})]
  /\ fst (flushBatch test_env "si_1" scenario_three) = Resolved tt
  /\ Map_get "si_1"
       (pendingUsage (this (after (flushBatch test_env "si_1") scenario_three)))
     = Some []
  /\ backend_calls
       (new_events scenario_start
          (after (flushBatch test_env "si_1") scenario_start)) = [].
Proof.
  destruct (C1_flushBatch_one_aggregate_submission test_env "si_1" scenario_three)
    as [Hfull _].
  destruct (C1_flushBatch_one_aggregate_submission test_env "si_1" scenario_start)
    as [_ Hidle].
  destruct (Hfull _ eq_refl ltac:(discriminate)) as [Hcall Hok].
  destruct (Hok eq_refl) as [Hres Hempty].
  destruct (Hidle (or_introl eq_refl)) as [_ [Hnone _]].
  exact (conj Hcall (conj Hres (conj Hempty Hnone))).
Defined.

(** ** C2: backend failures *)

Lemma append_assoc (a b c : string) : ((a ++ b) ++ c = a ++ (b ++ c))%string.
Proof. induction a as [|x a IH]; cbn; [reflexivity | now rewrite IH]. Qed.

Lemma flushBatch_rejected env key (w : World Strategy) usageRecords error :
  Map_get key (pendingUsage (this w)) = Some usageRecords ->
  usageRecords <> [] ->
  createUsageRecord env (trace w ++ [EvFlushBatch key]) key
    (flush_params env key w usageRecords) = Rejected error ->
  flushBatch env key w =
    (Rejected (VError (wrapped (flush_prefix key) error)),
     log w [EvFlushBatch key;
            EvCreateUsageRecord key (flush_params env key w usageRecords)]).
Proof.
  intros Hget Hne Hrej.
  rewrite (flushBatch_run env key w usageRecords Hget Hne).
  cbv zeta. now rewrite Hrej.
Qed.

(** The fields of the error the [catch] clause builds. *)
Lemma wrapped_fields prefix error :
  name (wrapped prefix error) = StripeApiError
  /\ message (wrapped prefix error) = (prefix ++ ": " ++ errorMessage_of error)%string
  /\ cause (wrapped prefix error) = Some (cause_of error)
  /\ code (wrapped prefix error) = None.
Proof.
  unfold wrapped.
  destruct (errorDetails_of (code_of error) (statusCode_of error)) as [[? ?]|];
    cbn; auto.
Qed.

(** The details are copied when both are truthy, and only then. *)
Lemma wrapped_details prefix error :
  (stripeCode (wrapped prefix error), statusCode (wrapped prefix error))
  = if truthy_string (code_of error) && truthy_number (statusCode_of error)
    then (code_of error, statusCode_of error)
    else (None, None).
Proof.
  unfold wrapped, errorDetails_of.
  destruct (truthy_string (code_of error) && truthy_number (statusCode_of error));
    reflexivity.
Qed.

(** Whatever the failure, a rejected flush leaves the instance as it was. *)
Lemma flushBatch_rejection_keeps_instance env key (w : World Strategy) error :
  fst (flushBatch env key w) = Rejected error ->
  this (after (flushBatch env key) w) = this w.
Proof.
  unfold after.
  destruct (Map_get key (pendingUsage (this w))) as [[|r l]|] eqn:Hget.
  - rewrite flushBatch_idle by auto. discriminate.
  - rewrite (flushBatch_run env key w (r :: l) Hget) by discriminate.
    cbv zeta.
    destruct (createUsageRecord env _ key _); cbn; [discriminate|reflexivity].
  - rewrite flushBatch_idle by auto. discriminate.
Qed.

(** C2.  When the backend call made by [flushBatch] fails, [flushBatch]
    rejects with a [StripeApiError] whose message names the key and
    carries the message of the failure, and whose cause is the original
    error (for a thrown value that is not an [Error], an [Error] made of
    its string form); the instance, and so the batch of the key and of
    every other key, is exactly as it was before the attempt. *)
Theorem C2_flushBatch_failure_wrapped_batch_kept
    (env : Env) (key : string) (w : World Strategy)
    (usageRecords : list BatchedUsageRecord) (error : JsValue) :
  Map_get key (pendingUsage (this w)) = Some usageRecords ->
  usageRecords <> [] ->
  createUsageRecord env (trace w ++ [EvFlushBatch key]) key
    (flush_params env key w usageRecords) = Rejected error ->
  exists e,
    fst (flushBatch env key w) = Rejected (VError e)
    /\ name e = StripeApiError
    /\ message e =
         ("Failed to flush usage records for subscription item " ++ key
            ++ ": " ++ errorMessage_of error)%string
    /\ cause e = Some (cause_of error)
    /\ (forall original, error = VError original -> cause e = Some original)
    /\ this (after (flushBatch env key) w) = this w
    /\ Map_get key (pendingUsage (this (after (flushBatch env key) w)))
       = Some usageRecords.
Proof.
  intros Hget Hne Hrej. unfold after.
  rewrite (flushBatch_rejected env key w usageRecords error Hget Hne Hrej).
  exists (wrapped (flush_prefix key) error). cbn [fst snd log this].
  destruct (wrapped_fields (flush_prefix key) error) as (Hn & Hm & Hc & _).
  rewrite Hn, Hm, Hc. unfold flush_prefix. rewrite append_assoc.
  repeat split; try assumption.
  intros original ->. reflexivity.
Qed.

(** C2 at the same batch, with a backend that refuses it. *)
Lemma C2_witness :
  exists e,
    fst (flushBatch (failing_env (VError error_resource_missing)) "si_1"
           scenario_three) = Rejected (VError e)
    /\ name e = StripeApiError
    /\ message e =
         "Failed to flush usage records for subscription item si_1: Resource not found"
    /\ cause e = Some error_resource_missing
    /\ pendingUsage
         (this (after (flushBatch (failing_env (VError error_resource_missing))
                         "si_1") scenario_three))
       = pendingUsage (this scenario_three).
Proof.
  destruct (C2_flushBatch_failure_wrapped_batch_kept
              (failing_env (VError error_resource_missing)) "si_1"
              scenario_three _ (VError error_resource_missing)
              eq_refl ltac:(discriminate) eq_refl)
    as (e & Hout & Hname & Hmsg & Hcause & _ & Hthis & _).
  exists e. rewrite Hthis.
  exact (conj Hout (conj Hname (conj Hmsg (conj Hcause eq_refl)))).
Defined.

(** The immediate strategy: one backend call per valid record. *)
Lemma immediate_recordUsage_run env a c usageValue apiEndpoint
    (w : World ImmediateMeterEventStrategy.Strategy) :
  ImmediateMeterEventStrategy.disposed (this w) = false ->
  0 < usageValue ->
  let customerId := String a c in
  let params := meter_params env customerId usageValue apiEndpoint w in
  ImmediateMeterEventStrategy.recordUsage env (Some customerId) usageValue
    apiEndpoint w =
    match meterEventsCreate env (trace w) params with
    | Resolved _ => (Resolved tt, log w [EvMeterEventsCreate params])
    | Rejected error =>
        (Rejected (VError (wrapped (meter_prefix customerId) error)),
         log w [EvMeterEventsCreate params])
    end.
Proof.
  intros Hd Hpos customerId params.
  unfold ImmediateMeterEventStrategy.recordUsage, bind, gets, try_catch, ask,
    await_call, ret.
  cbn [fst snd this trace]. rewrite Hd.
  destruct (usageValue <=? 0) eqn:E; [apply Z.leb_le in E; lia|].
  assert (Hp : {| customer := customerId;
                  value := usageValue;
                  me_action := INCREMENT;
                  aggregation_method := SUM;
                  idempotency_key :=
                    (ImmediateMeterEventStrategy.idempotencyKeyPrefix (this w)
                       ++ "_" ++ customerId ++ "_"
                       ++ Number_toString (Date_now env (trace w)))%string;
                  api_endpoint :=
                    if truthy_string apiEndpoint
                    then match apiEndpoint with
                         | Some endpoint => endpoint
                         | None => EmptyString
                         end
                    else "not_specified" |} = params).
  { unfold params, meter_params. f_equal.
    destruct apiEndpoint as [[|x e]|]; reflexivity. }
  unfold customerId in *. rewrite Hp.
  destruct (meterEventsCreate env (trace w) params) as [[]|error]; reflexivity.
Qed.

Lemma wrapped_wraps prefix error : wraps error (wrapped prefix error).
Proof.
  destruct (wrapped_fields prefix error) as (Hn & _ & Hc & _).
  pose proof (wrapped_details prefix error) as Hd.
  unfold wraps. split; [exact Hn|]. split; [exact Hc|]. split.
  - intros Hcode Hstatus. rewrite Hcode, Hstatus in Hd. cbn in Hd.
    split; congruence.
  - intros Hmissing.
    assert (Hboth : truthy_string (code_of error)
                    && truthy_number (statusCode_of error) = false).
    { destruct Hmissing as [H|H]; rewrite H;
        [reflexivity | apply andb_false_r]. }
    rewrite Hboth in Hd. split; congruence.
Qed.

(** ** Recording usage *)

Lemma Map_set_set {V : Type} (k : string) (v1 v2 : V) (m : JsMap V) :
  Map_set k v2 (Map_set k v1 m) = Map_set k v2 m.
Proof.
  induction m as [|[k' v'] m IH]; cbn.
  - now rewrite String.eqb_refl.
  - destruct (String.eqb k k') eqn:E; cbn.
    + now rewrite String.eqb_refl.
    + now rewrite E, IH.
Qed.

(** [flushBatch] only ever rejects with an [Error]. *)
Lemma flushBatch_rejects_with_Error env key (w : World Strategy) error :
  fst (flushBatch env key w) = Rejected error -> exists e, error = VError e.
Proof.
  destruct (Map_get key (pendingUsage (this w))) as [[|r l]|] eqn:Hget.
  - rewrite flushBatch_idle by auto. discriminate.
  - rewrite (flushBatch_run env key w (r :: l) Hget) by discriminate.
    cbv zeta. destruct (createUsageRecord env _ key _); cbn; [discriminate|].
    intros H. inversion H. eauto.
  - rewrite flushBatch_idle by auto. discriminate.
Qed.

(** The run of [recordUsage] on an active strategy and a valid input. *)
Lemma recordUsage_run env a c usageValue apiEndpoint (w : World Strategy) :
  disposed (this w) = false ->
  0 < usageValue ->
  let customerId := String a c in
  recordUsage env (Some customerId) usageValue apiEndpoint w =
    match getSubscriptionItemId env (trace w) customerId with
    | Rejected error =>
        (Rejected (VError (rethrown error)),
         log w [EvGetSubscriptionItemId customerId])
    | Resolved key =>
        let w1 := appended env customerId usageValue apiEndpoint key w in
        if Z.of_nat (length (batch_of key w1)) >=? maxBatchSize (this w)
        then flushBatch env key w1
        else (Resolved tt, w1)
    end.
Proof.
  intros Hd Hpos customerId. subst customerId.
  unfold recordUsage, bind, gets, try_catch, await_call, modify, ask, ret, throw.
  cbn beta iota. cbn [this trace]. rewrite Hd.
  destruct (usageValue <=? 0) eqn:E; [apply Z.leb_le in E; lia|].
  destruct (getSubscriptionItemId env (trace w) (String a c)) as [key|error].
  - unfold appended, batch_of, Map_has, new_entry.
    destruct (Map_get key (pendingUsage (this w))) as [old|] eqn:Hget;
      unfold set_pendingUsage;
      cbn [negb this trace pendingUsage maxBatchSize batchIntervalMs
           flushOnDispose flushInterval disposed];
      rewrite ?Hget, ?Map_get_set_eq;
      cbn [negb this trace app pendingUsage maxBatchSize batchIntervalMs
           flushOnDispose flushInterval disposed];
      rewrite ?Map_set_set;
      (destruct (Z.of_nat _ >=? maxBatchSize (this w)) eqn:Hlen;
       cbn [app] in Hlen; rewrite ?Hlen; [|reflexivity]);
      match goal with
      | |- context [flushBatch env key ?w1] =>
          destruct (flushBatch env key w1) as [[[]|error] w2] eqn:Hf;
          [reflexivity|];
          destruct (flushBatch_rejects_with_Error env key w1 error) as [e ->];
          [now rewrite Hf | reflexivity]
      end.
  - unfold log. destruct error; reflexivity.
Qed.

Lemma new_events_same {T : Type} (w : World T) : new_events w w = [].
Proof.
  unfold new_events. induction (trace w) as [|ev t IH]; cbn; auto.
Qed.

(** C7.  On an active strategy, [recordUsage] with a missing or empty
    [customerId], or with a [usageValue] that is zero or negative, rejects
    with an [InvalidInputError] and leaves the world exactly as it was:
    the batch store is unchanged, and neither the resolver nor the
    backend has been called. *)
Theorem C7_invalid_input_rejected_before_any_effect
    (env : Env) (customerId : option string) (usageValue : Z)
    (apiEndpoint : option string) (w : World Strategy) :
  disposed (this w) = false ->
  customerId = None \/ customerId = Some EmptyString \/ usageValue <= 0 ->
  let r := recordUsage env customerId usageValue apiEndpoint w in
  (exists e, fst r = Rejected (VError e) /\ name e = InvalidInputError)
  /\ snd r = w
  /\ pendingUsage (this (snd r)) = pendingUsage (this w)
  /\ resolver_calls (new_events w (snd r)) = []
  /\ backend_calls (new_events w (snd r)) = [].
Proof.
  intros Hd Hbad r.
  assert (H : exists e, r = (Rejected (VError e), w) /\ name e = InvalidInputError).
  { subst r. unfold recordUsage, bind, gets, throw. cbn [this]. rewrite Hd.
    destruct customerId as [[|a c]|]; try (eexists; split; reflexivity).
    destruct Hbad as [Hbad|[Hbad|Hbad]]; try discriminate.
    apply Z.leb_le in Hbad. rewrite Hbad. eexists; split; reflexivity. }
  destruct H as (e & -> & Hname). cbn [fst snd].
  rewrite new_events_same. repeat split; eauto.
Qed.

(** C7 at the two calls of the rejection law: [recordUsage('', 1)] and
    [recordUsage('cus_x', 0)]. *)
Lemma C7_witness :
  (exists e,
      fst (recordUsage test_env (Some EmptyString) 1 None scenario_three)
      = Rejected (VError e) /\ name e = InvalidInputError)
  /\ snd (recordUsage test_env (Some EmptyString) 1 None scenario_three)
     = scenario_three
  /\ (exists e,
        fst (recordUsage test_env (Some "cus_x") 0 None scenario_three)
        = Rejected (VError e) /\ name e = InvalidInputError)
  /\ snd (recordUsage test_env (Some "cus_x") 0 None scenario_three)
     = scenario_three.
Proof.
  destruct (C7_invalid_input_rejected_before_any_effect test_env
              (Some EmptyString) 1 None scenario_three eq_refl
              (or_intror (or_introl eq_refl))) as (He1 & Hw1 & _).
  destruct (C7_invalid_input_rejected_before_any_effect test_env
              (Some "cus_x") 0 None scenario_three eq_refl
              (or_intror (or_intror (Z.le_refl 0)))) as (He2 & Hw2 & _).
  exact (conj He1 (conj Hw1 (conj He2 Hw2))).
Defined.

(** ** C10: the defaults of the constructor *)

(** C10.  A configured [batchIntervalMs] or [maxBatchSize] of 0 is treated
    by the constructor exactly as an absent one: the instance built is the
    same, its interval is the default 60000 ms and its flush threshold is
    the default 100, not 0. *)
Theorem C10_zero_option_is_default
    (key : string) (interval max : option Z) (flush : option bool) :
  constructor {| stripeApiKey := key; cfg_batchIntervalMs := interval;
                 cfg_maxBatchSize := Some 0; cfg_flushOnDispose := flush |}
  = constructor {| stripeApiKey := key; cfg_batchIntervalMs := interval;
                   cfg_maxBatchSize := None; cfg_flushOnDispose := flush |}
  /\ constructor {| stripeApiKey := key; cfg_batchIntervalMs := Some 0;
                    cfg_maxBatchSize := max; cfg_flushOnDispose := flush |}
     = constructor {| stripeApiKey := key; cfg_batchIntervalMs := None;
                      cfg_maxBatchSize := max; cfg_flushOnDispose := flush |}
  /\ (forall w,
        constructor {| stripeApiKey := key; cfg_batchIntervalMs := interval;
                       cfg_maxBatchSize := Some 0; cfg_flushOnDispose := flush |}
        = Resolved w ->
        maxBatchSize (this w) = 100)
  /\ (forall w,
        constructor {| stripeApiKey := key; cfg_batchIntervalMs := Some 0;
                       cfg_maxBatchSize := max; cfg_flushOnDispose := flush |}
        = Resolved w ->
        batchIntervalMs (this w) = 60000
        /\ flushInterval (this w) = Some (Timer 60000)
        /\ trace w = [EvSetInterval 60000]).
Proof.
  unfold constructor. cbn [stripeApiKey cfg_batchIntervalMs cfg_maxBatchSize
                           cfg_flushOnDispose or_default Z.eqb].
  split; [reflexivity|]. split; [reflexivity|].
  split; intros w Hw; destruct (String.eqb key EmptyString);
    try discriminate; inversion Hw; cbn; auto.
Qed.

(** C10 at two configurations with a zero option. *)
Lemma C10_witness :
  (exists w,
      constructor {| stripeApiKey := "test_key"; cfg_batchIntervalMs := Some 1000;
                     cfg_maxBatchSize := Some 0; cfg_flushOnDispose := None |}
      = Resolved w /\ maxBatchSize (this w) = 100)
  /\ (exists w,
        constructor {| stripeApiKey := "test_key"; cfg_batchIntervalMs := Some 0;
                       cfg_maxBatchSize := Some 5; cfg_flushOnDispose := None |}
        = Resolved w /\ batchIntervalMs (this w) = 60000).
Proof.
  destruct (C10_zero_option_is_default "test_key" (Some 1000) (Some 5) None)
    as (_ & _ & Hmax & Hint).
  split; eexists; (split; [reflexivity|]).
  - exact (Hmax _ eq_refl).
  - exact (proj1 (Hint _ eq_refl)).
Defined.

(** ** C8: the resolved key *)

Lemma batch_of_appended env customerId usageValue apiEndpoint key
    (w : World Strategy) :
  batch_of key (appended env customerId usageValue apiEndpoint key w)
  = batch_of key w ++ [new_entry env customerId usageValue apiEndpoint w].
Proof.
  unfold batch_of at 1, appended. cbn [this pendingUsage set_pendingUsage].
  now rewrite Map_get_set_eq.
Qed.

Lemma Map_get_appended env customerId usageValue apiEndpoint key
    (w : World Strategy) :
  Map_get key
    (pendingUsage (this (appended env customerId usageValue apiEndpoint key w)))
  = Some (batch_of key w ++ [new_entry env customerId usageValue apiEndpoint w]).
Proof.
  unfold appended. cbn [this pendingUsage set_pendingUsage].
  apply Map_get_set_eq.
Qed.

(** Appending under one key leaves the batches of the others alone. *)
Lemma batch_of_appended_other env customerId usageValue apiEndpoint key key'
    (w : World Strategy) :
  key <> key' ->
  batch_of key' (appended env customerId usageValue apiEndpoint key w)
  = batch_of key' w.
Proof.
  intros Hne. unfold batch_of, appended.
  cbn [this pendingUsage set_pendingUsage].
  now rewrite Map_get_set_ne.
Qed.

(** C8, as stated, fails: when the resolver completes with the empty key,
    [recordUsage] resolves and the entry is appended to the batch stored
    under that key. *)
Lemma C8_counterexample :
  getSubscriptionItemId empty_key_env (trace scenario_start) "cus_x"
  = Resolved EmptyString
  /\ fst (recordUsage empty_key_env (Some "cus_x") 1 None scenario_start)
     = Resolved tt
  /\ batch_of EmptyString
       (after (recordUsage empty_key_env (Some "cus_x") 1 None) scenario_start)
     = [ {| customerId := "cus_x"; usageValue := 1; apiEndpoint := None;
            timestamp := 1700000000123 |} ].
Proof. repeat split. Qed.

(** C8, amended.  [recordUsage] uses the key of a resolver call that
    completes as it is, without any check: the entry is appended to the
    batch stored under that key, the empty key included, and the call
    then resolves, or flushes that batch when its length has reached the
    threshold.  Only a resolver call that throws is a resolution failure:
    [recordUsage] rejects with the [Error] thrown, and for a thrown value
    that is not an [Error] with a new [Error] whose message is [Unknown
    error in recordUsage: ] followed by the string form of that value;
    no entry is appended to any batch, the instance is as it was, and
    the only effect is the call of the resolver. *)
Theorem C8_resolved_key_used_unchecked
    (env : Env) (a : ascii) (c : string) (usageValue : Z)
    (apiEndpoint : option string) (w : World Strategy) :
  disposed (this w) = false ->
  0 < usageValue ->
  let customerId := String a c in
  (forall key,
      getSubscriptionItemId env (trace w) customerId = Resolved key ->
      let w1 := appended env customerId usageValue apiEndpoint key w in
      batch_of key w1
      = batch_of key w ++ [new_entry env customerId usageValue apiEndpoint w]
      /\ recordUsage env (Some customerId) usageValue apiEndpoint w
         = if Z.of_nat (length (batch_of key w1)) >=? maxBatchSize (this w)
           then flushBatch env key w1
           else (Resolved tt, w1))
  /\ (forall error,
        getSubscriptionItemId env (trace w) customerId = Rejected error ->
        exists e,
          fst (recordUsage env (Some customerId) usageValue apiEndpoint w)
          = Rejected (VError e)
          /\ (forall original, error = VError original -> e = original)
          /\ this (after (recordUsage env (Some customerId) usageValue apiEndpoint) w)
             = this w
          /\ e = match error with
                 | VError original => original
                 | _ => new_Error ("Unknown error in recordUsage: "
                                   ++ String_of error)
                 end
          /\ new_events w
               (after (recordUsage env (Some customerId) usageValue apiEndpoint) w)
             = [EvGetSubscriptionItemId customerId]).
Proof.
  intros Hd Hpos customerId. split.
  - intros key Hres w1. split; [apply batch_of_appended|].
    unfold customerId.
    rewrite (recordUsage_run env a c usageValue apiEndpoint w Hd Hpos).
    cbv zeta. fold customerId. now rewrite Hres.
  - intros error Hrej. unfold after, customerId.
    rewrite (recordUsage_run env a c usageValue apiEndpoint w Hd Hpos).
    cbv zeta. fold customerId. rewrite Hrej.
    exists (rethrown error). cbn [fst snd].
    split; [reflexivity|].
    split; [intros original ->; reflexivity|].
    split; [reflexivity|].
    split; [destruct error; reflexivity|].
    unfold log. apply new_events_log.
Qed.

(** C8 at a resolver that completes with the empty key, and at the
    resolver of the test suite throwing an [Error] for [cus_unknown] and
    a string for [cus_string_error]. *)
Lemma C8_witness :
  batch_of EmptyString
    (after (recordUsage empty_key_env (Some "cus_x") 1 None) scenario_start)
  = [new_entry empty_key_env "cus_x" 1 None scenario_start]
  /\ (exists e,
        fst (recordUsage test_env (Some "cus_unknown") 1 None scenario_start)
        = Rejected (VError e)
        /\ e = new_Error "Unknown customer"
        /\ this (after (recordUsage test_env (Some "cus_unknown") 1 None)
                   scenario_start) = this scenario_start)
  /\ (exists e,
        fst (recordUsage test_env (Some "cus_string_error") 1 None scenario_start)
        = Rejected (VError e)
        /\ e = new_Error "Unknown error in recordUsage: String error"
        /\ this (after (recordUsage test_env (Some "cus_string_error") 1 None)
                   scenario_start) = this scenario_start).
Proof.
  destruct (C8_resolved_key_used_unchecked empty_key_env "c" "us_x" 1 None
              scenario_start eq_refl eq_refl) as [Hok _].
  destruct (C8_resolved_key_used_unchecked test_env "c" "us_unknown" 1 None
              scenario_start eq_refl eq_refl) as [_ Hfail].
  destruct (C8_resolved_key_used_unchecked test_env "c" "us_string_error" 1 None
              scenario_start eq_refl eq_refl) as [_ Hfail'].
  destruct (Hok EmptyString eq_refl) as [Hbatch Hrun].
  destruct (Hfail (VError (new_Error "Unknown customer")) eq_refl)
    as (e & Hout & Horig & Hthis & _).
  destruct (Hfail' (VString "String error") eq_refl)
    as (e' & Hout' & _ & Hthis' & He' & _).
  split; [|split].
  - unfold after. rewrite Hrun. exact Hbatch.
  - exists e. exact (conj Hout (conj (Horig _ eq_refl) Hthis)).
  - exists e'. exact (conj Hout' (conj He' Hthis')).
Defined.

(** ** C4: the size threshold *)

Lemma Zsum_usage_snoc (l : list BatchedUsageRecord) (r : BatchedUsageRecord) :
  Zsum (map usageValue (l ++ [r])) = Zsum (map usageValue l) + usageValue r.
Proof.
  unfold Zsum. induction l as [|x l IH]; cbn; [lia|].
  rewrite IH. lia.
Qed.

(** The trace of a flush of a non-empty batch, whatever the backend says. *)
Lemma flushBatch_trace env key (w : World Strategy) usageRecords :
  Map_get key (pendingUsage (this w)) = Some usageRecords ->
  usageRecords <> [] ->
  trace (after (flushBatch env key) w)
  = trace w ++ [EvFlushBatch key;
                EvCreateUsageRecord key (flush_params env key w usageRecords)].
Proof.
  intros Hget Hne. unfold after.
  rewrite (flushBatch_run env key w usageRecords Hget Hne). cbv zeta.
  destruct (createUsageRecord env _ key _); reflexivity.
Qed.

Lemma new_events_app {T : Type} (w w' : World T) (evs : list Event) :
  trace w' = trace w ++ evs -> new_events w w' = evs.
Proof. unfold new_events. intros ->. apply skipn_length_app. Qed.

Lemma snoc_not_nil {A : Type} (l : list A) (x : A) : l ++ [x] <> [].
Proof. destruct l; discriminate. Qed.

(** The two sides of the threshold test of [recordUsage]. *)
Lemma recordUsage_threshold (env : Env) :
  forall a c v apiEndpoint key (w : World Strategy),
      disposed (this w) = false ->
      0 < v ->
      getSubscriptionItemId env (trace w) (String a c) = Resolved key ->
      let customerId := String a c in
      let w1 := appended env customerId v apiEndpoint key w in
      let w' := after (recordUsage env (Some customerId) v apiEndpoint) w in
      (maxBatchSize (this w) <= Z.of_nat (length (batch_of key w)) + 1 ->
       recordUsage env (Some customerId) v apiEndpoint w
       = flushBatch env key w1
       /\ flush_calls (new_events w w') = [key]
       /\ backend_calls (new_events w w')
          = [(key, {| quantity := Zsum (map usageValue (batch_of key w))
                                  + v;
                      ur_timestamp :=
                        Date_now env (trace w1 ++ [EvFlushBatch key]) / 1000;
                      ur_action := INCREMENT |})])
      /\ (Z.of_nat (length (batch_of key w)) + 1 < maxBatchSize (this w) ->
          recordUsage env (Some customerId) v apiEndpoint w
          = (Resolved tt, w1)
          /\ flush_calls (new_events w w') = []
          /\ backend_calls (new_events w w') = []).
Proof.
  intros a c v apiEndpoint key w Hd Hpos Hres customerId w1 w'.
  assert (Hrun : recordUsage env (Some customerId) v apiEndpoint w
                 = if Z.of_nat (length (batch_of key w1)) >=? maxBatchSize (this w)
                   then flushBatch env key w1 else (Resolved tt, w1)).
  { unfold customerId.
    rewrite (recordUsage_run env a c v apiEndpoint w Hd Hpos).
    cbv zeta. now rewrite Hres. }
  assert (Hlen : Z.of_nat (length (batch_of key w1))
                 = Z.of_nat (length (batch_of key w)) + 1).
  { unfold w1. rewrite batch_of_appended, length_app. cbn. lia. }
  split; intros Hcmp.
  - assert (Hge : (Z.of_nat (length (batch_of key w1)) >=? maxBatchSize (this w))
                  = true) by (apply Z.geb_le; lia).
    rewrite Hge in Hrun. split; [exact Hrun|].
    assert (Ht : trace w'
                 = trace w ++ [EvGetSubscriptionItemId customerId;
                               EvFlushBatch key;
                               EvCreateUsageRecord key
                                 (flush_params env key w1
                                    (batch_of key w
                                     ++ [new_entry env customerId v
                                           apiEndpoint w]))]).
    { unfold w', after. rewrite Hrun.
      change (snd (flushBatch env key w1)) with (after (flushBatch env key) w1).
      rewrite (flushBatch_trace env key w1 _
                 (Map_get_appended env customerId v apiEndpoint key w)
                 (snoc_not_nil _ _)).
      unfold w1 at 1, appended. cbn [trace]. now rewrite <- app_assoc. }
    rewrite (new_events_app w w' _ Ht). cbn [flush_calls backend_calls].
    split; [reflexivity|].
    unfold flush_params. rewrite Zsum_usage_snoc. reflexivity.
  - assert (Hlt : (Z.of_nat (length (batch_of key w1)) >=? maxBatchSize (this w))
                  = false).
    { destruct (Z.geb_spec (Z.of_nat (length (batch_of key w1)))
                  (maxBatchSize (this w))); [lia | reflexivity]. }
    rewrite Hlt in Hrun. split; [exact Hrun|].
    unfold w', after. rewrite Hrun. cbn [snd].
    rewrite (new_events_app w w1 [EvGetSubscriptionItemId customerId] eq_refl).
    split; reflexivity.
Qed.

(** C4.  When the entry [recordUsage] appends takes the batch of the
    resolved key to the maximum size of the strategy, [recordUsage] is,
    from there on, the flush of that one key: [flushBatch] is called once,
    for that key, and the backend receives one submission whose quantity
    is the sum of the batch with the new entry; below the maximum no flush
    happens.  A strategy built without [maxBatchSize] has the maximum 100.
    With the maximum 2 and an empty batch, two calls that resolve to the
    same key cause no flush during the first call and exactly one during
    the second, whose quantity is the sum of the two usage values. *)
Theorem C4_flush_when_batch_reaches_maximum (env : Env) :
  (forall a c v apiEndpoint key (w : World Strategy),
      disposed (this w) = false ->
      0 < v ->
      getSubscriptionItemId env (trace w) (String a c) = Resolved key ->
      let customerId := String a c in
      let w1 := appended env customerId v apiEndpoint key w in
      let w' := after (recordUsage env (Some customerId) v apiEndpoint) w in
      (maxBatchSize (this w) <= Z.of_nat (length (batch_of key w)) + 1 ->
       recordUsage env (Some customerId) v apiEndpoint w
       = flushBatch env key w1
       /\ flush_calls (new_events w w') = [key]
       /\ backend_calls (new_events w w')
          = [(key, {| quantity := Zsum (map usageValue (batch_of key w))
                                  + v;
                      ur_timestamp :=
                        Date_now env (trace w1 ++ [EvFlushBatch key]) / 1000;
                      ur_action := INCREMENT |})])
      /\ (Z.of_nat (length (batch_of key w)) + 1 < maxBatchSize (this w) ->
          recordUsage env (Some customerId) v apiEndpoint w
          = (Resolved tt, w1)
          /\ flush_calls (new_events w w') = []
          /\ backend_calls (new_events w w') = []))
  /\ (forall config w,
        cfg_maxBatchSize config = None ->
        constructor config = Resolved w ->
        maxBatchSize (this w) = 100)
  /\ (forall a1 c1 a2 c2 v1 v2 e1 e2 key (w : World Strategy),
        disposed (this w) = false ->
        maxBatchSize (this w) = 2 ->
        batch_of key w = [] ->
        0 < v1 -> 0 < v2 ->
        getSubscriptionItemId env (trace w) (String a1 c1) = Resolved key ->
        getSubscriptionItemId env
          (trace w ++ [EvGetSubscriptionItemId (String a1 c1)]) (String a2 c2)
        = Resolved key ->
        let w1 := after (recordUsage env (Some (String a1 c1)) v1 e1) w in
        let w2 := after (recordUsage env (Some (String a2 c2)) v2 e2) w1 in
        fst (recordUsage env (Some (String a1 c1)) v1 e1 w) = Resolved tt
        /\ flush_calls (new_events w w1) = []
        /\ backend_calls (new_events w w1) = []
        /\ flush_calls (new_events w1 w2) = [key]
        /\ exists seconds,
             backend_calls (new_events w1 w2)
             = [(key, {| quantity := v1 + v2;
                         ur_timestamp := seconds;
                         ur_action := INCREMENT |})]).
Proof.
  pose proof (recordUsage_threshold env) as Hgen.
  split; [exact Hgen|]. split.
  - intros config w Hnone. unfold constructor. rewrite Hnone.
    destruct (String.eqb (stripeApiKey config) EmptyString); [discriminate|].
    intros Hw. inversion Hw. reflexivity.
  - intros a1 c1 a2 c2 v1 v2 e1 e2 key w Hd Hmax Hempty Hv1 Hv2 Hr1 Hr2 w1 w2.
    destruct (Hgen a1 c1 v1 e1 key w Hd Hv1 Hr1) as [_ Hbelow].
    destruct Hbelow as (Hrun1 & Hf1 & Hb1);
      [rewrite Hempty, Hmax; cbn; lia|].
    assert (Hw1 : w1 = appended env (String a1 c1) v1 e1 key w)
      by (unfold w1, after; now rewrite Hrun1).
    fold w1 in Hf1, Hb1.
    split; [now rewrite Hrun1|]. split; [exact Hf1|]. split; [exact Hb1|].
    assert (Hbatch1 : batch_of key w1 = [new_entry env (String a1 c1) v1 e1 w])
      by (rewrite Hw1, batch_of_appended, Hempty; reflexivity).
    assert (Hd1 : disposed (this w1) = false) by (rewrite Hw1; exact Hd).
    assert (Hmax1 : maxBatchSize (this w1) = 2) by (rewrite Hw1; exact Hmax).
    assert (Hr2' : getSubscriptionItemId env (trace w1) (String a2 c2) = Resolved key)
      by (rewrite Hw1; exact Hr2).
    destruct (Hgen a2 c2 v2 e2 key w1 Hd1 Hv2 Hr2') as [Hreach _].
    destruct Hreach as (_ & Hf2 & Hb2);
      [rewrite Hbatch1, Hmax1; cbn; lia|].
    fold w2 in Hf2, Hb2. split; [exact Hf2|].
    eexists. rewrite Hb2, Hbatch1. unfold Zsum. cbn.
    rewrite Z.add_0_r. reflexivity.
Qed.

(** C4 at the threshold test of the suite: maximum 2, two records for the
    same key. *)
Lemma C4_witness :
  let w1 := after (recordUsage test_env (Some "cus_123") 3 None) scenario_small in
  let w2 := after (recordUsage test_env (Some "cus_123") 4 None) w1 in
  flush_calls (new_events scenario_small w1) = []
  /\ flush_calls (new_events w1 w2) = ["si_123"]
  /\ backend_calls (new_events w1 w2)
     = [("si_123", {| quantity := 7; ur_timestamp := 1700000000;
                      ur_action := INCREMENT |})]
  /\ (forall w,
        constructor {| stripeApiKey := "test_key"; cfg_batchIntervalMs := None;
                       cfg_maxBatchSize := None; cfg_flushOnDispose := None |}
        = Resolved w -> maxBatchSize (this w) = 100).
Proof.
  destruct (C4_flush_when_batch_reaches_maximum test_env)
    as (_ & Hdefault & Htwo).
  destruct (Htwo "c"%char "us_123" "c"%char "us_123" 3 4 None None "si_123"
              scenario_small eq_refl eq_refl eq_refl eq_refl eq_refl
              eq_refl eq_refl)
    as (_ & Hf1 & _ & Hf2 & seconds & Hb2).
  cbv zeta. split; [exact Hf1|]. split; [exact Hf2|]. split; [reflexivity|].
  intros w. apply Hdefault. reflexivity.
Defined.

(** ** C3: the sweep *)

Lemma flushAllBatches_sweep env (w : World Strategy) :
  flushAllBatches env w
  = sweep env (Map_keys (pendingUsage (this w))) (log w [EvFlushAllBatches]).
Proof. reflexivity. Qed.

(** One flush: what it logs and what it touches. *)
Lemma flushBatch_spec env key (w : World Strategy) :
  let w' := after (flushBatch env key) w in
  same_settings (this w) (this w')
  /\ (forall key', key' <> key -> batch_of key' w' = batch_of key' w)
  /\ (exists post,
        trace w' = trace w ++ EvFlushBatch key :: post
        /\ flush_calls post = [] /\ console_errors post = [])
  /\ (forall error, fst (flushBatch env key w) = Rejected error ->
        this w' = this w)
  /\ (fst (flushBatch env key w) = Resolved tt -> batch_of key w' = []).
Proof.
  unfold after.
  destruct (Map_get key (pendingUsage (this w))) as [[|r l]|] eqn:Hget.
  - rewrite flushBatch_idle by auto. cbn [fst snd log this trace].
    split; [repeat split|]. split; [reflexivity|].
    split; [exists []; auto|]. split; [reflexivity|].
    intros _. unfold batch_of, log. cbn [this]. now rewrite Hget.
  - rewrite (flushBatch_run env key w (r :: l) Hget) by discriminate.
    cbv zeta.
    destruct (createUsageRecord env _ key _) as [[]|error];
      cbn [fst snd log this trace].
    + split; [repeat split|]. split.
      * intros key' Hne. unfold batch_of.
        cbn [this pendingUsage set_pendingUsage].
        rewrite Map_get_set_ne by congruence. reflexivity.
      * split; [eexists; split; [reflexivity | auto]|].
        split; [discriminate|]. intros _. unfold batch_of.
        cbn [this pendingUsage set_pendingUsage]. now rewrite Map_get_set_eq.
    + split; [repeat split|]. split; [reflexivity|].
      split; [eexists; split; [reflexivity | auto]|].
      split; [reflexivity | discriminate].
  - rewrite flushBatch_idle by auto. cbn [fst snd log this trace].
    split; [repeat split|]. split; [reflexivity|].
    split; [exists []; auto|]. split; [reflexivity|].
    intros _. unfold batch_of, log. cbn [this]. now rewrite Hget.
Qed.

(** One turn of the loop is the flush, with a rejection turned into a
    line on the console. *)
Lemma guarded_flush_run env key (w : World Strategy) :
  guarded_flush env key w
  = match flushBatch env key w with
    | (Resolved a, w1) => (Resolved a, w1)
    | (Rejected error, w1) =>
        (Resolved tt, log w1 [EvConsoleError (sweep_label key) error])
    end.
Proof. reflexivity. Qed.

(** What one turn of the loop guarantees. *)
Lemma guarded_flush_spec env key (w : World Strategy) :
  let w' := after (guarded_flush env key) w in
  fst (guarded_flush env key w) = Resolved tt
  /\ same_settings (this w) (this w')
  /\ (forall key', key' <> key -> batch_of key' w' = batch_of key' w)
  /\ (exists post,
        trace w' = trace w ++ EvFlushBatch key :: post
        /\ flush_calls post = []
        /\ (forall error, fst (flushBatch env key w) = Rejected error ->
              In (sweep_label key, error) (console_errors post)
              /\ batch_of key w' = batch_of key w)
        /\ (fst (flushBatch env key w) = Resolved tt -> batch_of key w' = [])).
Proof.
  destruct (flushBatch_spec env key w)
    as (Hset & Hother & (post & Ht & Hf & Hc) & Hkeep & Hempty).
  unfold after in *. rewrite guarded_flush_run.
  destruct (flushBatch env key w) as [[[]|error] w1];
    cbn [fst snd log this trace] in *.
  - split; [reflexivity|]. split; [exact Hset|]. split; [exact Hother|].
    exists post. split; [exact Ht|]. split; [exact Hf|].
    split; [discriminate | exact Hempty].
  - split; [reflexivity|]. split; [exact Hset|]. split; [exact Hother|].
    exists (post ++ [EvConsoleError (sweep_label key) error]).
    split; [rewrite Ht, <- app_assoc; reflexivity|].
    split; [rewrite flush_calls_app, Hf; reflexivity|].
    split; [|discriminate].
    intros error' Herr. inversion Herr; subst error'. split.
    + rewrite console_errors_app. apply in_or_app. right. cbn. auto.
    + unfold batch_of, log. cbn [this]. now rewrite (Hkeep error eq_refl).
Qed.

Lemma same_settings_trans (s1 s2 s3 : Strategy) :
  same_settings s1 s2 -> same_settings s2 s3 -> same_settings s1 s3.
Proof.
  unfold same_settings. intros (?&?&?&?&?) (?&?&?&?&?).
  repeat split; congruence.
Qed.

(** The loop, by induction on the snapshot of keys: it resolves, enters
    [flushBatch] once per key in the order of the snapshot, touches no
    batch outside the snapshot, and gives each key of the snapshot its
    turn. *)
Lemma sweep_spec env (ids : list string) :
  forall w : World Strategy,
    let w' := after (sweep env ids) w in
    fst (sweep env ids w) = Resolved tt
    /\ same_settings (this w) (this w')
    /\ (forall key, ~ In key ids -> batch_of key w' = batch_of key w)
    /\ (exists evs,
          trace w' = trace w ++ evs
          /\ flush_calls evs = ids
          /\ (NoDup ids ->
              forall key, In key ids -> turn_of env key w w' evs)).
Proof.
  induction ids as [|id ids IH]; intros w w'.
  - subst w'. unfold after, sweep. cbn.
    split; [reflexivity|]. split; [repeat split|]. split; [reflexivity|].
    exists []. rewrite app_nil_r. split; [reflexivity|]. split; [reflexivity|].
    intros _ key [].
  - destruct (guarded_flush_spec env id w)
      as (Hres & Hset & Hother & post1 & Ht1 & Hf1 & Hrej & Hok).
    set (w1 := after (guarded_flush env id) w) in *.
    destruct (IH w1) as (Hres2 & Hset2 & Hout2 & evs2 & Ht2 & Hf2 & Hin2).
    assert (Hstep : sweep env (id :: ids) w = sweep env ids w1).
    { unfold sweep at 1. cbn [for_of]. unfold bind.
      destruct (guarded_flush env id w) as [o w0] eqn:Hg.
      cbn [fst] in Hres. subst o. unfold w1, after. now rewrite Hg. }
    assert (Hw' : w' = after (sweep env ids) w1)
      by (unfold w', after; now rewrite Hstep).
    rewrite Hstep, Hw'.
    split; [exact Hres2|].
    split; [exact (same_settings_trans _ _ _ Hset Hset2)|].
    split.
    + intros key Hnot. rewrite Hout2 by (cbn in Hnot; tauto).
      apply Hother. cbn in Hnot. intros ->. tauto.
    + exists ((EvFlushBatch id :: post1) ++ evs2).
      split; [rewrite Ht2, Ht1; symmetry; apply app_assoc|].
      split; [rewrite flush_calls_app; cbn [flush_calls]; rewrite Hf1, Hf2;
              reflexivity|].
      intros Hnd key Hin. inversion Hnd as [|? ? Hnotin Hnd']; subst.
      destruct (string_dec key id) as [->|Hne].
      * exists w, [], (post1 ++ evs2).
        split; [reflexivity|]. split; [now rewrite app_nil_r|].
        split; [reflexivity|]. rewrite (Hout2 id Hnotin). split.
        -- intros error Herr. destruct (Hrej error Herr) as [Hin1 Hsame].
           split; [|exact Hsame].
           rewrite console_errors_app. apply in_or_app. left.
           cbn [console_errors]. exact Hin1.
        -- exact Hok.
      * destruct Hin as [Heq|Hin]; [congruence|].
        destruct (Hin2 Hnd' key Hin)
          as (wk & pre & post & Hevs & Htk & Hbk & Hrejk & Hokk).
        exists wk, ((EvFlushBatch id :: post1) ++ pre), post.
        split; [rewrite Hevs; apply app_assoc|].
        split; [rewrite Htk, Ht1; symmetry; apply app_assoc|].
        split; [rewrite Hbk; now apply Hother|]. split.
        -- intros error Herr. destruct (Hrejk error Herr) as [Hin1 Hsame].
           split; [|rewrite Hsame; now apply Hother].
           rewrite console_errors_app. apply in_or_app. now right.
        -- exact Hokk.
Qed.


Lemma turn_of_shift env key (w0 w w' : World Strategy) pre0 evs :
  trace w = trace w0 ++ pre0 ->
  batch_of key w = batch_of key w0 ->
  turn_of env key w w' evs ->
  turn_of env key w0 w' (pre0 ++ evs).
Proof.
  intros Ht Hb (wk & pre & post & Hevs & Htk & Hbk & Hrej & Hok).
  exists wk, (pre0 ++ pre), post.
  split; [rewrite Hevs; apply app_assoc|].
  split; [rewrite Htk, Ht; symmetry; apply app_assoc|].
  split; [congruence|]. split; [|exact Hok].
  intros error Herr. destruct (Hrej error Herr) as [Hin Hsame].
  split; [|congruence].
  rewrite console_errors_app. apply in_or_app. now right.
Qed.

Lemma sweep_of_store env (w : World Strategy) :
  let keys := Map_keys (pendingUsage (this w)) in
  let w' := after (flushAllBatches env) w in
  fst (flushAllBatches env w) = Resolved tt
  /\ same_settings (this w) (this w')
  /\ (forall key, ~ In key keys -> batch_of key w' = batch_of key w)
  /\ (exists evs,
        trace w' = trace w ++ evs
        /\ flush_calls evs = keys
        /\ (NoDup keys -> forall key, In key keys -> turn_of env key w w' evs)).
Proof.
  intros keys w'. subst w'. unfold after. rewrite flushAllBatches_sweep.
  fold keys.
  destruct (sweep_spec env keys (log w [EvFlushAllBatches]))
    as (Hres & Hset & Hout & evs & Ht & Hf & Hin).
  unfold after in *.
  split; [exact Hres|]. split; [exact Hset|]. split; [exact Hout|].
  exists ([EvFlushAllBatches] ++ evs).
  split; [rewrite Ht; unfold log; cbn [trace]; now rewrite <- app_assoc|].
  split; [exact Hf|].
  intros Hnd key Hkey.
  apply (turn_of_shift env key w (log w [EvFlushAllBatches])); auto.
Qed.

(** C3.  [flushAllBatches] never rejects.  It enters [flushBatch] once for
    each key that was in the store when the sweep began, in the order of
    the keys.  Each of those keys gets its turn with its batch as it was
    at the start of the sweep: if its flush rejects, the error is caught
    and reported on the console under the label of the key, the batch is
    kept, and the sweep goes on to the other keys; if its flush resolves,
    the batch ends empty. *)
Theorem C3_sweep_attempts_every_key_once (env : Env) (w : World Strategy) :
  Map_wf (pendingUsage (this w)) ->
  let keys := Map_keys (pendingUsage (this w)) in
  let w' := after (flushAllBatches env) w in
  fst (flushAllBatches env w) = Resolved tt
  /\ flush_calls (new_events w w') = keys
  /\ (forall key, In key keys ->
        count_occ string_dec (flush_calls (new_events w w')) key = 1%nat)
  /\ (forall key, In key keys -> turn_of env key w w' (new_events w w')).
Proof.
  intros Hwf keys w'.
  destruct (sweep_of_store env w) as (Hres & _ & _ & evs & Ht & Hf & Hin).
  fold keys in Hf, Hin. fold w' in Ht, Hin.
  rewrite (new_events_app w w' evs Ht).
  split; [exact Hres|]. split; [exact Hf|]. split.
  - intros key Hkey. rewrite Hf.
    apply (proj1 (NoDup_count_occ' string_dec keys) Hwf key Hkey).
  - exact (Hin Hwf).
Qed.

Lemma scenario_isolation_wf : Map_wf (pendingUsage (this scenario_isolation)).
Proof.
  unfold Map_wf. cbn. constructor.
  - cbn. intros [H|[]]. discriminate H.
  - constructor; [intros [] | constructor].
Qed.

(** C3 at two pending batches, the first of which the backend refuses. *)
Lemma C3_witness :
  let w' := after (flushAllBatches test_env) scenario_isolation in
  fst (flushAllBatches test_env scenario_isolation) = Resolved tt
  /\ flush_calls (new_events scenario_isolation w') = ["si_error"; "si_123"]
  /\ batch_of "si_123" w' = []
  /\ batch_of "si_error" w' = [test_record].
Proof.
  destruct (C3_sweep_attempts_every_key_once test_env scenario_isolation
              scenario_isolation_wf)
    as (Hres & Hcalls & _ & _).
  cbv zeta. split; [exact Hres|]. split; [exact Hcalls|].
  split; reflexivity.
Defined.

(** ** C5: disposal *)

Lemma dispose_disposed env (w : World Strategy) :
  disposed (this w) = true -> dispose env w = (Resolved tt, w).
Proof.
  intros Hd. unfold dispose, bind, gets, ret. cbn [this]. now rewrite Hd.
Qed.

(** The run of [dispose] on an active strategy. *)
Lemma dispose_active env (w : World Strategy) :
  disposed (this w) = false ->
  let w1 := if flushOnDispose (this w)
            then after (flushAllBatches env) (timer_cleared w)
            else timer_cleared w in
  dispose env w
  = (Resolved tt, {| this := set_disposed true (this w1); trace := trace w1 |}).
Proof.
  intros Hd w1. subst w1.
  unfold dispose, bind, gets, ret, emit, modify, try_catch, timer_cleared, after.
  cbn [this trace]. rewrite Hd.
  destruct (flushInterval (this w));
    cbn [this trace set_flushInterval flushOnDispose];
    destruct (flushOnDispose (this w)); try reflexivity;
    match goal with
    | |- context [flushAllBatches env ?w0] =>
        destruct (sweep_of_store env w0) as (Hres & _);
        destruct (flushAllBatches env w0) as [o w2];
        cbn [fst] in Hres; subst o; reflexivity
    end.
Qed.

Lemma clear_calls_app t1 t2 :
  clear_calls (t1 ++ t2) = (clear_calls t1 + clear_calls t2)%nat.
Proof.
  induction t1 as [|ev t1 IH]; cbn; [reflexivity|].
  destruct ev; cbn; now rewrite ?IH.
Qed.



(** ** C6: the life cycle *)

Lemma recordUsage_disposed env customerId usageValue apiEndpoint
    (w : World Strategy) :
  disposed (this w) = true ->
  recordUsage env customerId usageValue apiEndpoint w
  = (Rejected (VError disposed_error), w).
Proof.
  intros Hd. unfold recordUsage, bind, gets, throw. cbn [this]. now rewrite Hd.
Qed.

Lemma dispose_makes_disposed env (w : World Strategy) :
  disposed (this (after (dispose env) w)) = true.
Proof.
  unfold after. destruct (disposed (this w)) eqn:Hd.
  - now rewrite dispose_disposed.
  - now rewrite dispose_active.
Qed.

(** A timer tick leaves every field but the pending usage alone. *)
Lemma timer_fires_same_settings env (w : World Strategy) :
  same_settings (this w) (this (after (timer_fires env) w)).
Proof.
  unfold after, timer_fires, bind, gets, ret. cbn [this].
  destruct (flushInterval (this w)); [|cbn; repeat split].
  unfold interval_callback, try_catch.
  destruct (sweep_of_store env w) as (Hres & Hset & _). unfold after in Hset.
  destruct (flushAllBatches env w) as [o w'].
  cbn [fst] in Hres. subst o. exact Hset.
Qed.

(** No call takes a disposed strategy back to the active state. *)
Lemma run_call_keeps_disposed env call (w : World Strategy) :
  disposed (this w) = true ->
  disposed (this (after (run_call env call) w)) = true.
Proof.
  intros Hd. destruct call as [customerId usageValue apiEndpoint| |]; cbn [run_call].
  - unfold after. now rewrite recordUsage_disposed.
  - apply dispose_makes_disposed.
  - destruct (timer_fires_same_settings env w) as (_ & _ & _ & _ & Hsame).
    now rewrite Hsame.
Qed.

Lemma run_calls_keep_disposed env calls :
  forall w : World Strategy,
    disposed (this w) = true -> disposed (this (run_calls env calls w)) = true.
Proof.
  induction calls as [|call calls IH]; intros w Hd; cbn [run_calls].
  - exact Hd.
  - apply IH, run_call_keeps_disposed, Hd.
Qed.

Lemma immediate_recordUsage_disposed env customerId usageValue apiEndpoint
    (w : World ImmediateMeterEventStrategy.Strategy) :
  ImmediateMeterEventStrategy.disposed (this w) = true ->
  ImmediateMeterEventStrategy.recordUsage env customerId usageValue apiEndpoint w
  = (Rejected (VError disposed_error), w).
Proof.
  intros Hd. unfold ImmediateMeterEventStrategy.recordUsage, bind, gets, throw.
  cbn [this]. now rewrite Hd.
Qed.

Lemma run_immediate_calls_keep_disposed env calls :
  forall w : World ImmediateMeterEventStrategy.Strategy,
    ImmediateMeterEventStrategy.disposed (this w) = true ->
    ImmediateMeterEventStrategy.disposed (this (run_immediate_calls env calls w))
    = true.
Proof.
  induction calls as [|call calls IH]; intros w Hd; cbn [run_immediate_calls].
  - exact Hd.
  - apply IH. destruct call as [customerId usageValue apiEndpoint|];
      cbn [run_immediate_call]; unfold after.
    + now rewrite immediate_recordUsage_disposed.
    + reflexivity.
Qed.

(** C6.  The transition to the disposed state is one-way, for the batched
    and for the immediate strategy alike: once [dispose] has settled,
    whatever the state it was called in and whatever calls follow
    (recording, disposing again, timer ticks), the strategy is still
    disposed, and every [recordUsage], whatever its arguments, rejects
    with the error [Strategy has been disposed and cannot record usage]
    and changes nothing. *)
Theorem C6_disposed_is_terminal (env : Env) :
  (forall (w : World Strategy) (calls : list Call)
          (customerId : option string) (usageValue : Z)
          (apiEndpoint : option string),
      let w' := run_calls env calls (after (dispose env) w) in
      disposed (this w') = true
      /\ recordUsage env customerId usageValue apiEndpoint w'
         = (Rejected (VError (new_Error
              "Strategy has been disposed and cannot record usage")), w'))
  /\ (forall (w : World ImmediateMeterEventStrategy.Strategy)
            (calls : list ImmediateCall)
            (customerId : option string) (usageValue : Z)
            (apiEndpoint : option string),
        let w' := run_immediate_calls env calls
                    (after ImmediateMeterEventStrategy.dispose w) in
        ImmediateMeterEventStrategy.disposed (this w') = true
        /\ ImmediateMeterEventStrategy.recordUsage env customerId usageValue
             apiEndpoint w'
           = (Rejected (VError (new_Error
                "Strategy has been disposed and cannot record usage")), w')).
Proof.
  split.
  - intros w calls customerId usageValue apiEndpoint w'.
    assert (Hd : disposed (this w') = true)
      by apply run_calls_keep_disposed, dispose_makes_disposed.
    split; [exact Hd | now apply recordUsage_disposed].
  - intros w calls customerId usageValue apiEndpoint w'.
    assert (Hd : ImmediateMeterEventStrategy.disposed (this w') = true)
      by (apply run_immediate_calls_keep_disposed; reflexivity).
    split; [exact Hd | now apply immediate_recordUsage_disposed].
Qed.

(** ** C9: what the wrapping error carries *)

(** C9, as stated, fails: a failure that carries a code and no status
    (or a status and no code) is wrapped, by [flushBatch] and by the
    immediate [recordUsage] alike, into a [StripeApiError] that has
    neither. *)
Lemma C9_counterexample :
  code error_with_code_only = Some "rate_limit"
  /\ statusCode error_with_status_only = Some 503
  /\ (exists e,
        fst (flushBatch (failing_env (VError error_with_code_only)) "si_1"
               scenario_three) = Rejected (VError e)
        /\ name e = StripeApiError
        /\ stripeCode e = None)
  /\ (exists e,
        fst (ImmediateMeterEventStrategy.recordUsage
               (failing_env (VError error_with_status_only))
               (Some "cus_123") 1 None immediate_start) = Rejected (VError e)
        /\ name e = StripeApiError
        /\ statusCode e = None).
Proof.
  split; [reflexivity|]. split; [reflexivity|].
  split; eexists; (split; [reflexivity|]); split; reflexivity.
Qed.

(** C9, amended.  Whenever a backend failure is wrapped into a
    [StripeApiError], by [flushBatch] or by the immediate strategy's
    [recordUsage], the wrapping error has the original error as its cause;
    it carries the code and the status of the failure when the failure
    has both a non-empty code and a non-zero status, and carries neither
    when one of the two is missing.  The layers above pass the wrapping
    error on with its code, status and cause as they are: the batched
    [recordUsage] rethrows it unchanged from a size-triggered flush, and
    [MeteringService.recordApiCall] only prefixes its message. *)
Theorem C9_code_and_status_preserved_together (env : Env) :
  (forall key (w : World Strategy) usageRecords error,
      Map_get key (pendingUsage (this w)) = Some usageRecords ->
      usageRecords <> [] ->
      createUsageRecord env (trace w ++ [EvFlushBatch key]) key
        (flush_params env key w usageRecords) = Rejected error ->
      exists e,
        fst (flushBatch env key w) = Rejected (VError e) /\ wraps error e)
  /\ (forall a c v apiEndpoint
             (w : World ImmediateMeterEventStrategy.Strategy) error,
      ImmediateMeterEventStrategy.disposed (this w) = false ->
      0 < v ->
      meterEventsCreate env (trace w)
        (meter_params env (String a c) v apiEndpoint w)
        = Rejected error ->
      exists e,
        fst (ImmediateMeterEventStrategy.recordUsage env (Some (String a c))
               v apiEndpoint w) = Rejected (VError e)
        /\ wraps error e)
  /\ (forall a c v apiEndpoint key (w : World Strategy) e,
      disposed (this w) = false ->
      0 < v ->
      getSubscriptionItemId env (trace w) (String a c) = Resolved key ->
      let w1 := appended env (String a c) v apiEndpoint key w in
      maxBatchSize (this w) <= Z.of_nat (length (batch_of key w1)) ->
      fst (flushBatch env key w1) = Rejected (VError e) ->
      fst (recordUsage env (Some (String a c)) v apiEndpoint w)
      = Rejected (VError e))
  /\ (forall (T : Type)
             (strategy_recordUsage :
                option string -> Z -> option string -> M T unit)
             a c v apiEndpoint (w : World T) e,
      0 < v ->
      fst (strategy_recordUsage (Some (String a c)) v apiEndpoint w)
      = Rejected (VError e) ->
      exists e',
        fst (MeteringService.recordApiCall strategy_recordUsage
               (Some (String a c)) v apiEndpoint w) = Rejected (VError e')
        /\ name e' = name e
        /\ stripeCode e' = stripeCode e
        /\ statusCode e' = statusCode e
        /\ cause e' = cause e
        /\ message e' = ("Failed to record API call: " ++ message e)%string).
Proof.
  split; [|split; [|split]].
  - intros key w usageRecords error Hget Hne Hrej.
    rewrite (flushBatch_rejected env key w usageRecords error Hget Hne Hrej).
    eexists. split; [reflexivity | apply wrapped_wraps].
  - intros a c v apiEndpoint w error Hd Hpos Hrej.
    rewrite (immediate_recordUsage_run env a c v apiEndpoint w Hd Hpos).
    cbv zeta. rewrite Hrej.
    eexists. split; [reflexivity | apply wrapped_wraps].
  - intros a c v apiEndpoint key w e Hd Hpos Hres w1 Hreach Hflush.
    rewrite (recordUsage_run env a c v apiEndpoint w Hd Hpos).
    cbv zeta. rewrite Hres. fold w1.
    replace (Z.of_nat (length (batch_of key w1)) >=? maxBatchSize (this w))
      with true by (symmetry; apply Z.geb_le; exact Hreach).
    exact Hflush.
  - intros T strategy_recordUsage a c v apiEndpoint w e Hpos Hrej.
    unfold MeteringService.recordApiCall, try_catch, throw.
    destruct (v <=? 0) eqn:E; [apply Z.leb_le in E; lia|].
    destruct (strategy_recordUsage (Some (String a c)) v apiEndpoint w)
      as [o w'].
    cbn [fst] in Hrej. subst o. eexists. split; [reflexivity|].
    cbn. auto.
Qed.

(** C9 at the Stripe error of the test suite, which has both a code and
    a status, through each of the layers. *)
Lemma C9_witness :
  (exists e,
      fst (flushBatch (failing_env (VError error_resource_missing)) "si_1"
             scenario_three) = Rejected (VError e)
      /\ stripeCode e = Some "resource_missing"
      /\ statusCode e = Some 404
      /\ cause e = Some error_resource_missing)
  /\ (exists e,
        fst (ImmediateMeterEventStrategy.recordUsage
               (failing_env (VError error_resource_missing))
               (Some "cus_123") 1 None immediate_start) = Rejected (VError e)
        /\ stripeCode e = Some "resource_missing"
        /\ statusCode e = Some 404
        /\ cause e = Some error_resource_missing)
  /\ (exists e,
        fst (MeteringService.recordApiCall
               (recordUsage (failing_env (VError error_resource_missing)))
               (Some "cus_123") 1 None scenario_one_of_two)
        = Rejected (VError e)
        /\ stripeCode e = Some "resource_missing"
        /\ statusCode e = Some 404
        /\ cause e = Some error_resource_missing).
Proof.
  destruct (C9_code_and_status_preserved_together
              (failing_env (VError error_resource_missing)))
    as (Hflush & Hrecord & Hrethrow & Hservice).
  split; [|split].
  - destruct (Hflush "si_1" scenario_three _ (VError error_resource_missing)
                eq_refl ltac:(discriminate) eq_refl)
      as (e & Hout & _ & Hcause & Hboth & _).
    destruct (Hboth eq_refl eq_refl) as [Hcode Hstatus].
    exists e. exact (conj Hout (conj Hcode (conj Hstatus Hcause))).
  - destruct (Hrecord "c"%char "us_123" 1 None immediate_start
                (VError error_resource_missing) eq_refl eq_refl eq_refl)
      as (e & Hout & _ & Hcause & Hboth & _).
    destruct (Hboth eq_refl eq_refl) as [Hcode Hstatus].
    exists e. exact (conj Hout (conj Hcode (conj Hstatus Hcause))).
  - pose proof (Hrethrow "c"%char "us_123" 1 None "si_123" scenario_one_of_two
                  (wrapped (flush_prefix "si_123") (VError error_resource_missing))
                  eq_refl eq_refl eq_refl (Z.le_refl 2) eq_refl) as Hthrown.
    destruct (Hservice _
                (recordUsage (failing_env (VError error_resource_missing)))
                "c"%char "us_123" 1 None scenario_one_of_two _ eq_refl Hthrown)
      as (e' & Hout & _ & Hcode & Hstatus & Hcause & _).
    exists e'. rewrite Hcode, Hstatus, Hcause.
    exact (conj Hout (conj eq_refl (conj eq_refl eq_refl))).
Defined.

(** ** The store stays a map *)

Lemma flushBatch_store env key (w : World Strategy) :
  pendingUsage (this (after (flushBatch env key) w)) = pendingUsage (this w)
  \/ pendingUsage (this (after (flushBatch env key) w))
     = Map_set key [] (pendingUsage (this w)).
Proof.
  unfold after.
  destruct (Map_get key (pendingUsage (this w))) as [[|r l]|] eqn:Hget.
  - rewrite flushBatch_idle by auto. now left.
  - rewrite (flushBatch_run env key w (r :: l) Hget) by discriminate.
    cbv zeta. destruct (createUsageRecord env _ key _); cbn; auto.
  - rewrite flushBatch_idle by auto. now left.
Qed.

Lemma flushBatch_wf env key (w : World Strategy) :
  Map_wf (pendingUsage (this w)) ->
  Map_wf (pendingUsage (this (after (flushBatch env key) w))).
Proof.
  intros Hwf. destruct (flushBatch_store env key w) as [-> | ->];
    [exact Hwf | now apply Map_wf_set].
Qed.

Lemma sweep_wf env (ids : list string) :
  forall w : World Strategy,
    Map_wf (pendingUsage (this w)) ->
    Map_wf (pendingUsage (this (after (sweep env ids) w))).
Proof.
  induction ids as [|id ids IH]; intros w Hwf; [exact Hwf|].
  unfold after, sweep. cbn [for_of]. unfold bind.
  rewrite guarded_flush_run.
  pose proof (flushBatch_wf env id w Hwf) as Hwf1. unfold after in Hwf1.
  destruct (flushBatch env id w) as [[[]|error] w1]; cbn [snd] in Hwf1;
    apply IH; exact Hwf1.
Qed.

Lemma flushAllBatches_wf env (w : World Strategy) :
  Map_wf (pendingUsage (this w)) ->
  Map_wf (pendingUsage (this (after (flushAllBatches env) w))).
Proof.
  intros Hwf. unfold after. rewrite flushAllBatches_sweep.
  now apply sweep_wf.
Qed.

(** Every call keeps the keys of the store distinct; the store of a new
    strategy is empty: the hypothesis [Map_wf] holds of every world a
    strategy can reach. *)
Lemma run_call_wf env call (w : World Strategy) :
  Map_wf (pendingUsage (this w)) ->
  Map_wf (pendingUsage (this (after (run_call env call) w))).
Proof.
  intros Hwf. destruct call as [customerId usageValue apiEndpoint| |];
    cbn [run_call].
  - unfold after. destruct (disposed (this w)) eqn:Hd.
    { now rewrite recordUsage_disposed. }
    destruct customerId as [[|a c]|];
      try (unfold recordUsage, bind, gets, throw; cbn [this]; rewrite Hd;
           exact Hwf).
    destruct (Z.ltb_spec 0 usageValue) as [Hpos|Hneg].
    + rewrite (recordUsage_run env a c usageValue apiEndpoint w Hd Hpos).
      cbv zeta.
      destruct (getSubscriptionItemId env (trace w) (String a c)) as [key|error];
        [|exact Hwf].
      assert (Hwf1 : Map_wf (pendingUsage
                      (this (appended env (String a c) usageValue apiEndpoint
                               key w))))
        by (unfold appended; cbn [this pendingUsage set_pendingUsage];
            now apply Map_wf_set).
      destruct (Z.of_nat _ >=? maxBatchSize (this w)); [|exact Hwf1].
      now apply flushBatch_wf.
    + unfold recordUsage, bind, gets, throw. cbn [this]. rewrite Hd.
      apply Z.leb_le in Hneg. rewrite Hneg. exact Hwf.
  - unfold after. destruct (disposed (this w)) eqn:Hd.
    + now rewrite dispose_disposed.
    + rewrite dispose_active by assumption. cbn [snd this pendingUsage set_disposed].
      assert (Hwf0 : Map_wf (pendingUsage (this (timer_cleared w))))
        by (unfold timer_cleared; destruct (flushInterval (this w)); exact Hwf).
      destruct (flushOnDispose (this w)); [now apply flushAllBatches_wf | exact Hwf0].
  - unfold after, timer_fires, bind, gets, ret. cbn [this].
    destruct (flushInterval (this w)); [|exact Hwf].
    unfold interval_callback, try_catch.
    pose proof (flushAllBatches_wf env w Hwf) as Hwf1. unfold after in Hwf1.
    destruct (sweep_of_store env w) as (Hres & _).
    destruct (flushAllBatches env w) as [o w'].
    cbn [fst] in Hres. subst o. exact Hwf1.
Qed.

Lemma reachable_wf env (config : BatchedUsageRecordConfig) (calls : list Call)
    (w : World Strategy) :
  constructor config = Resolved w ->
  Map_wf (pendingUsage (this (run_calls env calls w))).
Proof.
  intros Hnew.
  assert (Hwf : Map_wf (pendingUsage (this w))).
  { unfold constructor in Hnew.
    destruct (String.eqb (stripeApiKey config) EmptyString); [discriminate|].
    inversion Hnew. constructor. }
  clear Hnew. revert w Hwf.
  induction calls as [|call calls IH]; intros w Hwf; cbn [run_calls].
  - exact Hwf.
  - apply IH, run_call_wf, Hwf.
Qed.

(* ================================================================== *)
(** * More properties of the code                                      *)
(* ================================================================== *)

(** ** The immediate strategy *)

Lemma immediate_recordUsage_rejects_invalid env customerId usageValue apiEndpoint
    (w : World ImmediateMeterEventStrategy.Strategy) :
  ImmediateMeterEventStrategy.disposed (this w) = false ->
  customerId = None \/ customerId = Some EmptyString \/ usageValue <= 0 ->
  exists e,
    ImmediateMeterEventStrategy.recordUsage env customerId usageValue apiEndpoint w
    = (Rejected (VError e), w)
    /\ name e = InvalidInputError.
Proof.
  intros Hd Hbad.
  unfold ImmediateMeterEventStrategy.recordUsage, bind, gets, throw.
  cbn [this]. rewrite Hd.
  destruct customerId as [[|a c]|]; try (eexists; split; reflexivity).
  destruct Hbad as [Hbad|[Hbad|Hbad]]; try discriminate.
  apply Z.leb_le in Hbad. rewrite Hbad. eexists; split; reflexivity.
Qed.

(** X1.  On an active immediate strategy, a [recordUsage] with a non-empty
    customer and a positive value makes exactly one backend call and no
    other effect: a meter event for that customer and value, with action
    [increment], aggregation [sum], the idempotency key
    [prefix_customer_timestamp] and the endpoint label, which is
    [not_specified] when the endpoint is missing or empty.  The call
    resolves when the backend accepts the event and rejects with a
    [StripeApiError] when it does not; the instance is unchanged. *)
Theorem X1_immediate_one_meter_event_per_call
    (env : Env) (a : ascii) (c : string) (v : Z) (apiEndpoint : option string)
    (w : World ImmediateMeterEventStrategy.Strategy) :
  ImmediateMeterEventStrategy.disposed (this w) = false ->
  0 < v ->
  let customerId := String a c in
  let r := ImmediateMeterEventStrategy.recordUsage env (Some customerId) v
             apiEndpoint w in
  let params :=
    {| customer := customerId;
       value := v;
       me_action := INCREMENT;
       aggregation_method := SUM;
       idempotency_key :=
         (ImmediateMeterEventStrategy.idempotencyKeyPrefix (this w) ++ "_"
            ++ customerId ++ "_" ++ Number_toString (Date_now env (trace w)))%string;
       api_endpoint :=
         match apiEndpoint with
         | Some (String x endpoint) => String x endpoint
         | _ => "not_specified"
         end |} in
  new_events w (snd r) = [EvMeterEventsCreate params]
  /\ this (snd r) = this w
  /\ (meterEventsCreate env (trace w) params = Resolved tt ->
      fst r = Resolved tt)
  /\ (forall error,
        meterEventsCreate env (trace w) params = Rejected error ->
        exists e,
          fst r = Rejected (VError e)
          /\ name e = StripeApiError
          /\ message e
             = ("Failed to record meter event for customer " ++ customerId
                  ++ ": " ++ errorMessage_of error)%string
          /\ cause e = Some (cause_of error)).
Proof.
  intros Hd Hpos customerId r params. subst r. unfold customerId.
  rewrite (immediate_recordUsage_run env a c v apiEndpoint w Hd Hpos).
  cbv zeta. change (meter_params env (String a c) v apiEndpoint w) with params.
  destruct (meterEventsCreate env (trace w) params) as [[]|error] eqn:Hb;
    unfold log; cbn [fst snd]; rewrite new_events_log; cbn [this].
  - repeat split; try reflexivity. intros error Herr. discriminate.
  - split; [reflexivity|]. split; [reflexivity|]. split; [discriminate|].
    intros error' Herr. inversion Herr; subst error'.
    exists (wrapped (meter_prefix (String a c)) error).
    destruct (wrapped_fields (meter_prefix (String a c)) error)
      as (Hn & Hm & Hc & _).
    rewrite Hn, Hm, Hc. unfold meter_prefix. rewrite append_assoc. auto.
Qed.

(** X1 at the call [recordUsage('cus_123', 2, '/api/data')] of the suite. *)
Lemma X1_witness :
  new_events immediate_start
    (after (ImmediateMeterEventStrategy.recordUsage test_env (Some "cus_123") 2
              (Some "/api/data")) immediate_start)
  = [EvMeterEventsCreate
       {| customer := "cus_123"; value := 2; me_action := INCREMENT;
          aggregation_method := SUM;
          idempotency_key := "test_prefix_cus_123_1700000000123";
          api_endpoint := "/api/data" |}]
  /\ fst (ImmediateMeterEventStrategy.recordUsage test_env (Some "cus_123") 2
            (Some "/api/data") immediate_start) = Resolved tt.
Proof.
  destruct (X1_immediate_one_meter_event_per_call test_env "c" "us_123" 2
              (Some "/api/data") immediate_start eq_refl eq_refl)
    as (Hev & _ & Hok & _).
  exact (conj Hev (Hok eq_refl)).
Defined.

(** X2.  Whatever its arguments and whatever the backend answers, the
    immediate [recordUsage] never changes the instance (the strategy has
    no store and is not disposed by recording) and contacts the backend
    at most once; with a missing or empty customer, or a value that is
    not positive, on an active strategy, it rejects with an
    [InvalidInputError] without contacting it at all. *)
Theorem X2_immediate_recordUsage_keeps_instance
    (env : Env) (customerId : option string) (usageValue : Z)
    (apiEndpoint : option string)
    (w : World ImmediateMeterEventStrategy.Strategy) :
  let r := ImmediateMeterEventStrategy.recordUsage env customerId usageValue
             apiEndpoint w in
  this (snd r) = this w
  /\ (length (new_events w (snd r)) <= 1)%nat
  /\ (ImmediateMeterEventStrategy.disposed (this w) = false ->
      customerId = None \/ customerId = Some EmptyString \/ usageValue <= 0 ->
      snd r = w
      /\ exists e, fst r = Rejected (VError e) /\ name e = InvalidInputError).
Proof.
  intros r. subst r.
  destruct (ImmediateMeterEventStrategy.disposed (this w)) eqn:Hd.
  - rewrite immediate_recordUsage_disposed by assumption. cbn [fst snd].
    rewrite new_events_same. cbn. split; [reflexivity|]. split; [lia|].
    discriminate.
  - assert (Hinv : customerId = None \/ customerId = Some EmptyString
                   \/ usageValue <= 0 ->
            exists e,
              ImmediateMeterEventStrategy.recordUsage env customerId usageValue
                apiEndpoint w = (Rejected (VError e), w)
              /\ name e = InvalidInputError)
      by (apply immediate_recordUsage_rejects_invalid; exact Hd).
    destruct customerId as [[|a c]|].
    + destruct Hinv as (e & -> & Hn); [auto|]. cbn [fst snd].
      rewrite new_events_same. cbn. repeat split; eauto.
    + destruct (Z.ltb_spec 0 usageValue) as [Hpos|Hneg].
      * rewrite (immediate_recordUsage_run env a c usageValue apiEndpoint w Hd Hpos).
        cbv zeta.
        destruct (meterEventsCreate env (trace w) _) as [[]|error];
          unfold log; cbn [fst snd]; rewrite new_events_log; cbn;
          (split; [reflexivity|]); (split; [lia|]);
          intros _ [H|[H|H]]; try discriminate; lia.
      * destruct Hinv as (e & -> & Hn); [auto|]. cbn [fst snd].
        rewrite new_events_same. cbn. repeat split; eauto.
    + destruct Hinv as (e & -> & Hn); [auto|]. cbn [fst snd].
      rewrite new_events_same. cbn. repeat split; eauto.
Qed.

(** X2 at [recordUsage('', 1)] and [recordUsage('cus_123', -1)]. *)
Lemma X2_witness :
  snd (ImmediateMeterEventStrategy.recordUsage test_env (Some EmptyString) 1
         None immediate_start) = immediate_start
  /\ snd (ImmediateMeterEventStrategy.recordUsage test_env (Some "cus_123") (-1)
            None immediate_start) = immediate_start.
Proof.
  destruct (X2_immediate_recordUsage_keeps_instance test_env (Some EmptyString)
              1 None immediate_start) as (_ & _ & H1).
  destruct (X2_immediate_recordUsage_keeps_instance test_env (Some "cus_123")
              (-1) None immediate_start) as (_ & _ & H2).
  split.
  - exact (proj1 (H1 eq_refl (or_intror (or_introl eq_refl)))).
  - refine (proj1 (H2 eq_refl (or_intror (or_intror _)))). discriminate.
Defined.

Lemma append_cancel_l (a b c : string) : (a ++ b = a ++ c)%string -> b = c.
Proof.
  induction a as [|x a IH]; cbn; [auto|]. intros H. inversion H. auto.
Qed.

(** The decimal digits determine the number. *)
Lemma Number_toString_inj (n m : Z) :
  Number_toString n = Number_toString m -> n = m.
Proof.
  unfold Number_toString. intros H. apply DecimalZ.to_int_inj.
  assert (Hn : forall z, NilZero.int_of_string (NilZero.string_of_int (Z.to_int z))
                         = Some (Z.to_int z)).
  { intros z. apply NilZero.isi; destruct z; cbn; try discriminate;
      intros E; inversion E as [E'];
      now apply DecimalPos.Unsigned.to_uint_nonnil in E'. }
  pose proof (Hn n) as H1. rewrite H in H1. rewrite Hn in H1.
  now inversion H1.
Qed.

(** X3.  The idempotency key of a meter event is made of the prefix of
    the instance, the customer and the millisecond of the call, and of
    nothing else: two successive calls for the same customer carry the
    same key exactly when [Date.now()] gave the same millisecond for
    both, whatever their usage values and endpoints.  Two records of one
    customer within one millisecond are thus sent under one key; at
    different milliseconds the keys differ. *)
Theorem X3_idempotency_key_same_iff_same_millisecond
    (env : Env) (a : ascii) (c : string) (v1 v2 : Z)
    (e1 e2 : option string)
    (w : World ImmediateMeterEventStrategy.Strategy) :
  ImmediateMeterEventStrategy.disposed (this w) = false ->
  0 < v1 -> 0 < v2 ->
  let customerId := String a c in
  let w1 := after (ImmediateMeterEventStrategy.recordUsage env (Some customerId)
                     v1 e1) w in
  let w2 := after (ImmediateMeterEventStrategy.recordUsage env (Some customerId)
                     v2 e2) w1 in
  exists p1 p2,
    new_events w w1 = [EvMeterEventsCreate p1]
    /\ new_events w1 w2 = [EvMeterEventsCreate p2]
    /\ (idempotency_key p1 = idempotency_key p2
        <-> Date_now env (trace w) = Date_now env (trace w1)).
Proof.
  intros Hd Hv1 Hv2 customerId w1 w2.
  assert (Hw1 : w1 = log w [EvMeterEventsCreate
                              (meter_params env customerId v1 e1 w)]).
  { unfold w1, after, customerId.
    rewrite (immediate_recordUsage_run env a c v1 e1 w Hd Hv1). cbv zeta.
    destruct (meterEventsCreate env (trace w) _) as [[]|error]; reflexivity. }
  assert (Hd1 : ImmediateMeterEventStrategy.disposed (this w1) = false)
    by (rewrite Hw1; exact Hd).
  assert (Hw2 : w2 = log w1 [EvMeterEventsCreate
                               (meter_params env customerId v2 e2 w1)]).
  { unfold w2, after, customerId.
    rewrite (immediate_recordUsage_run env a c v2 e2 w1 Hd1 Hv2). cbv zeta.
    destruct (meterEventsCreate env (trace w1) _) as [[]|error]; reflexivity. }
  eexists. eexists.
  split; [rewrite Hw1 at 1; unfold log; apply new_events_log|].
  split; [rewrite Hw2; unfold log; apply new_events_log|].
  cbn [idempotency_key meter_params].
  replace (this w1) with (this w) by (rewrite Hw1; reflexivity).
  split.
  - intros H. do 4 apply append_cancel_l in H. now apply Number_toString_inj.
  - intros ->. reflexivity.
Qed.

(** X3 with a clock that stands still (one key for two records) and with
    a clock that advances (two keys). *)
Lemma X3_witness :
  (exists p1 p2,
      new_events immediate_start
        (after (ImmediateMeterEventStrategy.recordUsage test_env
                  (Some "cus_123") 1 None) immediate_start)
      = [EvMeterEventsCreate p1]
      /\ new_events
           (after (ImmediateMeterEventStrategy.recordUsage test_env
                     (Some "cus_123") 1 None) immediate_start)
           (after (ImmediateMeterEventStrategy.recordUsage test_env
                     (Some "cus_123") 5 None)
              (after (ImmediateMeterEventStrategy.recordUsage test_env
                        (Some "cus_123") 1 None) immediate_start))
         = [EvMeterEventsCreate p2]
      /\ value p1 = 1 /\ value p2 = 5
      /\ idempotency_key p1 = idempotency_key p2)
  /\ (exists p1 p2,
        new_events immediate_start
          (after (ImmediateMeterEventStrategy.recordUsage ticking_env
                    (Some "cus_123") 1 None) immediate_start)
        = [EvMeterEventsCreate p1]
        /\ new_events
             (after (ImmediateMeterEventStrategy.recordUsage ticking_env
                       (Some "cus_123") 1 None) immediate_start)
             (after (ImmediateMeterEventStrategy.recordUsage ticking_env
                       (Some "cus_123") 1 None)
                (after (ImmediateMeterEventStrategy.recordUsage ticking_env
                          (Some "cus_123") 1 None) immediate_start))
           = [EvMeterEventsCreate p2]
        /\ idempotency_key p1 <> idempotency_key p2).
Proof.
  split.
  - destruct (X3_idempotency_key_same_iff_same_millisecond test_env "c"
                "us_123" 1 5 None None immediate_start eq_refl eq_refl eq_refl)
      as (p1 & p2 & H1 & H2 & Hiff).
    exists p1, p2. split; [exact H1|]. split; [exact H2|].
    assert (Hp1 : [EvMeterEventsCreate p1]
                  = [EvMeterEventsCreate
                       (meter_params test_env "cus_123" 1 None immediate_start)])
      by (rewrite <- H1; reflexivity).
    assert (Hp2 : [EvMeterEventsCreate p2]
                  = [EvMeterEventsCreate
                       (meter_params test_env "cus_123" 5 None
                          (after (ImmediateMeterEventStrategy.recordUsage test_env
                                    (Some "cus_123") 1 None) immediate_start))])
      by (rewrite <- H2; reflexivity).
    inversion Hp1. inversion Hp2.
    split; [reflexivity|]. split; [reflexivity|].
    subst p1 p2. exact (proj2 Hiff eq_refl).
  - destruct (X3_idempotency_key_same_iff_same_millisecond ticking_env "c"
                "us_123" 1 1 None None immediate_start eq_refl eq_refl eq_refl)
      as (p1 & p2 & H1 & H2 & Hiff).
    exists p1, p2. split; [exact H1|]. split; [exact H2|].
    intros Heq. apply (proj1 Hiff) in Heq. discriminate Heq.
Defined.

(** X4.  The constructor of the immediate strategy throws exactly when the
    API key is empty.  Otherwise the instance is active and has performed
    no effect; its idempotency prefix is the configured one when that is
    a non-empty string, and a generated [meter_event_...] prefix when the
    option is absent or empty. *)
Theorem X4_immediate_constructor
    (env : Env) (key : string) (prefix : option string) :
  let config := {| ImmediateMeterEventStrategy.stripeApiKey := key;
                   ImmediateMeterEventStrategy.cfg_idempotencyKeyPrefix := prefix |} in
  (key = EmptyString ->
   ImmediateMeterEventStrategy.constructor env config
   = Rejected (VError (new_Error "Stripe API key is required")))
  /\ (key <> EmptyString ->
      exists w,
        ImmediateMeterEventStrategy.constructor env config = Resolved w
        /\ ImmediateMeterEventStrategy.disposed (this w) = false
        /\ trace w = []
        /\ ImmediateMeterEventStrategy.idempotencyKeyPrefix (this w)
           = match prefix with
             | Some (String x p) => String x p
             | _ => ("meter_event_" ++ Math_random_suffix env)%string
             end).
Proof.
  intros config. unfold ImmediateMeterEventStrategy.constructor. subst config.
  cbn [ImmediateMeterEventStrategy.stripeApiKey
       ImmediateMeterEventStrategy.cfg_idempotencyKeyPrefix].
  split.
  - intros ->. reflexivity.
  - intros Hne. apply String.eqb_neq in Hne. rewrite Hne.
    eexists. split; [reflexivity|]. cbn.
    destruct prefix as [[|x p]|]; auto.
Qed.

(** X4 at the configuration of the suite and at one with an empty prefix. *)
Lemma X4_witness :
  ImmediateMeterEventStrategy.constructor test_env
    {| ImmediateMeterEventStrategy.stripeApiKey := EmptyString;
       ImmediateMeterEventStrategy.cfg_idempotencyKeyPrefix := None |}
  = Rejected (VError (new_Error "Stripe API key is required"))
  /\ (exists w,
        ImmediateMeterEventStrategy.constructor test_env
          {| ImmediateMeterEventStrategy.stripeApiKey := "sk_test_mockkey";
             ImmediateMeterEventStrategy.cfg_idempotencyKeyPrefix :=
               Some EmptyString |} = Resolved w
        /\ ImmediateMeterEventStrategy.idempotencyKeyPrefix (this w)
           = "meter_event_k2j9x0q").
Proof.
  destruct (X4_immediate_constructor test_env EmptyString None) as [Hthrow _].
  destruct (X4_immediate_constructor test_env "sk_test_mockkey"
              (Some EmptyString)) as [_ Hnew].
  split; [exact (Hthrow eq_refl)|].
  destruct (Hnew ltac:(discriminate)) as (w & Hw & _ & _ & Hp).
  exists w. exact (conj Hw Hp).
Defined.

(** ** The batched strategy: construction and recording *)

(** X5.  The constructor of the batched strategy throws exactly when the
    API key is empty.  Otherwise it arms one interval and nothing else,
    and the instance is active, with an empty store, the timer armed at
    the interval it has kept; a configured interval or maximum that is
    not zero is kept as it is, negative values included, and
    [flushOnDispose] is off only when it was configured [false]. *)
Theorem X5_batched_constructor (config : BatchedUsageRecordConfig) :
  (stripeApiKey config = EmptyString ->
   constructor config
   = Rejected (VError (new_Error "Stripe API key is required")))
  /\ (stripeApiKey config <> EmptyString ->
      exists w,
        constructor config = Resolved w
        /\ disposed (this w) = false
        /\ pendingUsage (this w) = []
        /\ flushInterval (this w) = Some (Timer (batchIntervalMs (this w)))
        /\ trace w = [EvSetInterval (batchIntervalMs (this w))]
        /\ (forall ms, cfg_batchIntervalMs config = Some ms -> ms <> 0 ->
              batchIntervalMs (this w) = ms)
        /\ (forall n, cfg_maxBatchSize config = Some n -> n <> 0 ->
              maxBatchSize (this w) = n)
        /\ (flushOnDispose (this w) = false
            <-> cfg_flushOnDispose config = Some false)).
Proof.
  unfold constructor. split.
  - intros ->. reflexivity.
  - intros Hne. apply String.eqb_neq in Hne. rewrite Hne.
    eexists. split; [reflexivity|]. cbn [this trace disposed pendingUsage
      flushInterval batchIntervalMs maxBatchSize flushOnDispose].
    repeat split.
    + intros ms -> Hms. cbn. apply Z.eqb_neq in Hms. now rewrite Hms.
    + intros n -> Hn. cbn. apply Z.eqb_neq in Hn. now rewrite Hn.
    + destruct (cfg_flushOnDispose config) as [[|]|]; congruence.
    + intros ->. reflexivity.
Qed.

(** X5 at a configuration with a negative maximum. *)
Lemma X5_witness :
  exists w,
    constructor {| stripeApiKey := "test_key"; cfg_batchIntervalMs := Some 1000;
                   cfg_maxBatchSize := Some (-1); cfg_flushOnDispose := Some false |}
    = Resolved w
    /\ maxBatchSize (this w) = -1
    /\ batchIntervalMs (this w) = 1000
    /\ flushOnDispose (this w) = false.
Proof.
  destruct (X5_batched_constructor
              {| stripeApiKey := "test_key"; cfg_batchIntervalMs := Some 1000;
                 cfg_maxBatchSize := Some (-1); cfg_flushOnDispose := Some false |})
    as [_ Hnew].
  destruct (Hnew ltac:(discriminate))
    as (w & Hw & _ & _ & _ & _ & Hms & Hmax & Hflush).
  exists w. split; [exact Hw|]. split; [|split].
  - apply (Hmax (-1) eq_refl). discriminate.
  - apply (Hms 1000 eq_refl). discriminate.
  - exact (proj2 Hflush eq_refl).
Defined.

Lemma recordUsage_rejects_invalid env customerId usageValue apiEndpoint
    (w : World Strategy) :
  disposed (this w) = false ->
  customerId = None \/ customerId = Some EmptyString \/ usageValue <= 0 ->
  exists e,
    recordUsage env customerId usageValue apiEndpoint w = (Rejected (VError e), w)
    /\ name e = InvalidInputError.
Proof.
  intros Hd Hbad. unfold recordUsage, bind, gets, throw. cbn [this]. rewrite Hd.
  destruct customerId as [[|a c]|]; try (eexists; split; reflexivity).
  destruct Hbad as [Hbad|[Hbad|Hbad]]; try discriminate.
  apply Z.leb_le in Hbad. rewrite Hbad. eexists; split; reflexivity.
Qed.

(** A call of [recordUsage] either leaves the world as it is (disposed
    strategy, invalid input), or only logs the resolver call (the resolver
    threw), or appends under the resolved key and then stops or flushes
    that key. *)
Lemma recordUsage_cases env customerId usageValue apiEndpoint
    (w : World Strategy) :
  let w' := after (recordUsage env customerId usageValue apiEndpoint) w in
  w' = w
  \/ (exists c, w' = log w [EvGetSubscriptionItemId c])
  \/ (exists c key,
        customerId = Some c
        /\ disposed (this w) = false
        /\ 0 < usageValue
        /\ getSubscriptionItemId env (trace w) c = Resolved key
        /\ (w' = appended env c usageValue apiEndpoint key w
            \/ w' = after (flushBatch env key)
                      (appended env c usageValue apiEndpoint key w))).
Proof.
  intros w'. subst w'. unfold after.
  destruct (disposed (this w)) eqn:Hd.
  { left. now rewrite recordUsage_disposed. }
  destruct customerId as [[|a c]|].
  - left. destruct (recordUsage_rejects_invalid env (Some EmptyString)
                      usageValue apiEndpoint w Hd) as (e & -> & _); auto.
  - destruct (Z.ltb_spec 0 usageValue) as [Hpos|Hneg].
    + rewrite (recordUsage_run env a c usageValue apiEndpoint w Hd Hpos).
      cbv zeta.
      destruct (getSubscriptionItemId env (trace w) (String a c))
        as [key|error] eqn:Hres.
      * right. right. exists (String a c), key.
        split; [reflexivity|]. split; [reflexivity|]. split; [exact Hpos|].
        split; [exact Hres|].
        destruct (Z.of_nat _ >=? maxBatchSize (this w));
          [right | left]; reflexivity.
      * right. left. exists (String a c). reflexivity.
    + left. destruct (recordUsage_rejects_invalid env (Some (String a c))
                        usageValue apiEndpoint w Hd) as (e & -> & _); auto.
  - left. destruct (recordUsage_rejects_invalid env None
                      usageValue apiEndpoint w Hd) as (e & -> & _); auto.
Qed.

Lemma flushBatch_get_other env key key' (w : World Strategy) :
  key' <> key ->
  Map_get key' (pendingUsage (this (after (flushBatch env key) w)))
  = Map_get key' (pendingUsage (this w)).
Proof.
  intros Hne. destruct (flushBatch_store env key w) as [-> | ->];
    [reflexivity|]. apply Map_get_set_ne. congruence.
Qed.

(** X6.  Whatever its arguments and its outcome, a [recordUsage] of the
    batched strategy touches at most one batch, that of the key the
    customer resolved to: every other batch is exactly as it was, and so
    are the settings of the instance (interval, maximum, timer, disposed
    flag); it never clears the timer. *)
Theorem X6_recordUsage_touches_one_batch
    (env : Env) (customerId : option string) (usageValue : Z)
    (apiEndpoint : option string) (w : World Strategy) :
  let w' := after (recordUsage env customerId usageValue apiEndpoint) w in
  same_settings (this w) (this w')
  /\ clear_calls (new_events w w') = 0%nat
  /\ (pendingUsage (this w') = pendingUsage (this w)
      \/ exists c key,
           customerId = Some c
           /\ getSubscriptionItemId env (trace w) c = Resolved key
           /\ forall key', key' <> key ->
                Map_get key' (pendingUsage (this w'))
                = Map_get key' (pendingUsage (this w))).
Proof.
  intros w'.
  destruct (recordUsage_cases env customerId usageValue apiEndpoint w)
    as [Hw | [(c & Hw) | (c & key & Hc & Hd & Hpos & Hres & Hw)]];
    fold w' in Hw.
  - rewrite Hw, new_events_same. repeat split. now left.
  - rewrite Hw. unfold log. rewrite new_events_log. cbn [this].
    repeat split. now left.
  - assert (Happ : forall key', key' <> key ->
              Map_get key' (pendingUsage
                (this (appended env c usageValue apiEndpoint key w)))
              = Map_get key' (pendingUsage (this w))).
    { intros key' Hne. unfold appended. cbn [this pendingUsage set_pendingUsage].
      apply Map_get_set_ne. congruence. }
    destruct Hw as [Hw | Hw]; rewrite Hw.
    + split; [repeat split|]. split.
      * unfold appended. rewrite new_events_log. reflexivity.
      * right. exists c, key. auto.
    + set (w1 := appended env c usageValue apiEndpoint key w) in *.
      destruct (flushBatch_spec env key w1)
        as (Hset & _ & (post & Ht & _ & _) & _).
      split; [exact Hset|]. split.
      * assert (Hnew : new_events w (after (flushBatch env key) w1)
                       = EvGetSubscriptionItemId c :: EvFlushBatch key :: post).
        { apply new_events_app. rewrite Ht. unfold w1, appended. cbn [trace].
          now rewrite <- app_assoc. }
        rewrite Hnew. cbn [clear_calls].
        assert (Hpost : post = [] \/ exists p, post = [EvCreateUsageRecord key p]).
        { destruct (Map_get key (pendingUsage (this w1))) as [[|r l]|] eqn:Hget.
          - unfold after in Ht. rewrite flushBatch_idle in Ht by auto.
            cbn in Ht. left. apply app_inv_head in Ht. now inversion Ht.
          - rewrite (flushBatch_trace env key w1 (r :: l) Hget) in Ht
              by discriminate.
            right. apply app_inv_head in Ht. inversion Ht. eauto.
          - unfold after in Ht. rewrite flushBatch_idle in Ht by auto.
            cbn in Ht. left. apply app_inv_head in Ht. now inversion Ht. }
        destruct Hpost as [-> | [p ->]]; reflexivity.
      * right. exists c, key. split; [exact Hc|]. split; [exact Hres|].
        intros key' Hne. rewrite flushBatch_get_other by assumption.
        now apply Happ.
Qed.

(** X6 at the two batches of the suite: a record for [cus_123] leaves the
    batch of [si_error] alone. *)
Lemma X6_witness :
  Map_get "si_error"
    (pendingUsage (this (after (recordUsage test_env (Some "cus_123") 1 None)
                           scenario_isolation)))
  = Some [test_record].
Proof.
  destruct (X6_recordUsage_touches_one_batch test_env (Some "cus_123") 1 None
              scenario_isolation) as (_ & _ & [Hsame | (c & key & Hc & Hres & Hother)]).
  - rewrite Hsame. reflexivity.
  - inversion Hc; subst c. cbn in Hres. inversion Hres; subst key.
    rewrite (Hother "si_error") by discriminate. reflexivity.
Defined.

(** X7.  A [recordUsage] whose own flush fails rejects with the
    [StripeApiError] of the flush, but its entry has been recorded: the
    batch of the key is the old batch with the new entry at its end, so
    the usage stays pending although the caller saw a failure. *)
Theorem X7_rejected_by_flush_but_recorded
    (env : Env) (a : ascii) (c : string) (v : Z) (apiEndpoint : option string)
    (key : string) (error : JsValue) (w : World Strategy) :
  disposed (this w) = false ->
  0 < v ->
  getSubscriptionItemId env (trace w) (String a c) = Resolved key ->
  maxBatchSize (this w) <= Z.of_nat (length (batch_of key w)) + 1 ->
  let customerId := String a c in
  let w1 := appended env customerId v apiEndpoint key w in
  let entry := new_entry env customerId v apiEndpoint w in
  createUsageRecord env (trace w1 ++ [EvFlushBatch key]) key
    (flush_params env key w1 (batch_of key w ++ [entry])) = Rejected error ->
  let w' := after (recordUsage env (Some customerId) v apiEndpoint) w in
  (exists e,
      fst (recordUsage env (Some customerId) v apiEndpoint w)
      = Rejected (VError e)
      /\ name e = StripeApiError
      /\ cause e = Some (cause_of error))
  /\ batch_of key w' = batch_of key w ++ [entry].
Proof.
  intros Hd Hpos Hres Hreach customerId w1 entry Hrej w'.
  destruct (recordUsage_threshold env a c v apiEndpoint key w Hd Hpos Hres)
    as [Hflush _].
  destruct (Hflush Hreach) as (Hrun & _ & _).
  fold customerId in Hrun. fold w1 in Hrun.
  pose proof (flushBatch_rejected env key w1 (batch_of key w ++ [entry]) error
                (Map_get_appended env customerId v apiEndpoint key w)
                (snoc_not_nil _ _) Hrej) as Hf.
  unfold w', after. rewrite Hrun, Hf. cbn [fst snd]. split.
  - exists (wrapped (flush_prefix key) error).
    destruct (wrapped_fields (flush_prefix key) error) as (Hn & _ & Hc & _).
    auto.
  - pose proof (Map_get_appended env customerId v apiEndpoint key w) as Hm.
    fold w1 in Hm. unfold log, batch_of at 1. cbn [this]. rewrite Hm.
    reflexivity.
Qed.

(** X7 at the threshold of the suite with a backend that refuses. *)
Lemma X7_witness :
  rejects_with_StripeApiError
    (fst (recordUsage (failing_env (VError error_resource_missing))
            (Some "cus_123") 4 None scenario_one_of_two)) = true
  /\ map usageValue
       (batch_of "si_123"
          (after (recordUsage (failing_env (VError error_resource_missing))
                    (Some "cus_123") 4 None) scenario_one_of_two))
     = [1; 4].
Proof.
  destruct (X7_rejected_by_flush_but_recorded
              (failing_env (VError error_resource_missing)) "c" "us_123" 4 None
              "si_123" (VError error_resource_missing) scenario_one_of_two
              eq_refl eq_refl eq_refl (Z.le_refl 2) eq_refl)
    as ((e & Hout & Hname & _) & Hbatch).
  split.
  - rewrite Hout. cbn. now rewrite Hname.
  - rewrite Hbatch. reflexivity.
Defined.

(** X8.  A flush that failed can be tried again and submits the same
    quantity: after a rejected [flushBatch] of a key, the next
    [flushBatch] of that key makes one backend call whose quantity is
    again the sum of the whole batch, and empties the batch when the
    backend accepts it. *)
Theorem X8_failed_flush_is_retried_in_full
    (env : Env) (key : string) (w : World Strategy)
    (usageRecords : list BatchedUsageRecord) (error : JsValue) :
  Map_get key (pendingUsage (this w)) = Some usageRecords ->
  usageRecords <> [] ->
  createUsageRecord env (trace w ++ [EvFlushBatch key]) key
    (flush_params env key w usageRecords) = Rejected error ->
  let w1 := after (flushBatch env key) w in
  let w2 := after (flushBatch env key) w1 in
  let retry := {| quantity := Zsum (map usageValue usageRecords);
                  ur_timestamp :=
                    Date_now env (trace w1 ++ [EvFlushBatch key]) / 1000;
                  ur_action := INCREMENT |} in
  backend_calls (new_events w1 w2) = [(key, retry)]
  /\ (createUsageRecord env (trace w1 ++ [EvFlushBatch key]) key retry
      = Resolved tt ->
      fst (flushBatch env key w1) = Resolved tt /\ batch_of key w2 = []).
Proof.
  intros Hget Hne Hrej w1 w2 retry.
  assert (Hw1 : w1 = log w [EvFlushBatch key;
                            EvCreateUsageRecord key
                              (flush_params env key w usageRecords)])
    by (unfold w1, after;
        now rewrite (flushBatch_rejected env key w usageRecords error Hget Hne Hrej)).
  assert (Hget1 : Map_get key (pendingUsage (this w1)) = Some usageRecords)
    by (rewrite Hw1; exact Hget).
  assert (Hrun := flushBatch_run env key w1 usageRecords Hget1 Hne).
  cbv zeta in Hrun. change (flush_params env key w1 usageRecords) with retry in Hrun.
  split.
  - unfold w2, after. rewrite Hrun.
    destruct (createUsageRecord env _ key retry); unfold log; cbn [snd];
      rewrite new_events_log; reflexivity.
  - intros Hok. unfold w2, after. rewrite Hrun, Hok. cbn [fst snd].
    split; [reflexivity|]. unfold batch_of.
    cbn [this pendingUsage set_pendingUsage]. now rewrite Map_get_set_eq.
Qed.

(** X8 at a backend that refuses the first submission and accepts the
    second. *)
Lemma X8_witness :
  let w1 := after (flushBatch flaky_env "si_1") scenario_three in
  let w2 := after (flushBatch flaky_env "si_1") w1 in
  quantities (backend_calls (new_events scenario_three w1)) = [("si_1", 3)]
  /\ quantities (backend_calls (new_events w1 w2)) = [("si_1", 3)]
  /\ batch_of "si_1" w2 = [].
Proof.
  destruct (X8_failed_flush_is_retried_in_full flaky_env "si_1" scenario_three
              _ (VError (new_Error "Stripe API error"))
              eq_refl ltac:(discriminate) eq_refl) as [Hcalls Hok].
  cbv zeta. split; [reflexivity|]. split.
  - rewrite Hcalls. reflexivity.
  - exact (proj2 (Hok eq_refl)).
Defined.

(** ** The batched strategy: sweeps *)

Lemma guarded_flush_resolves env key (w : World Strategy) :
  fst (guarded_flush env key w) = Resolved tt.
Proof.
  rewrite guarded_flush_run.
  destruct (flushBatch env key w) as [[[]|error] w1]; reflexivity.
Qed.

Lemma sweep_cons env key ids (w : World Strategy) :
  sweep env (key :: ids) w = sweep env ids (after (guarded_flush env key) w).
Proof.
  unfold sweep at 1. cbn [for_of]. unfold bind, after.
  pose proof (guarded_flush_resolves env key w) as Hres.
  destruct (guarded_flush env key w) as [o w1]. cbn [fst] in Hres. now subst o.
Qed.

(** In a map, an entry is what its key gets. *)
Lemma Map_get_In {V : Type} (m : JsMap V) (k : string) (v : V) :
  Map_wf m -> In (k, v) m -> Map_get k m = Some v.
Proof.
  unfold Map_wf. induction m as [|[k' v'] m IH]; cbn; [tauto|].
  intros Hnd [Heq|Hin].
  - inversion Heq; subst. now rewrite String.eqb_refl.
  - inversion Hnd as [|? ? Hnot Hnd']; subst.
    destruct (String.eqb k k') eqn:E.
    + apply String.eqb_eq in E. subst k'. exfalso. apply Hnot.
      change k with (fst (k, v)). apply in_map. exact Hin.
    + now apply IH.
Qed.

(** What one turn of the loop submits. *)
Lemma guarded_flush_submits env key (w : World Strategy) usageRecords :
  Map_get key (pendingUsage (this w)) = Some usageRecords ->
  exists evs,
    trace (after (guarded_flush env key) w) = trace w ++ evs
    /\ quantities (backend_calls evs) = owed [(key, usageRecords)]
    /\ forall key', key' <> key ->
         Map_get key' (pendingUsage (this (after (guarded_flush env key) w)))
         = Map_get key' (pendingUsage (this w)).
Proof.
  intros Hget. unfold after. rewrite guarded_flush_run.
  destruct usageRecords as [|r l].
  - rewrite flushBatch_idle by auto. unfold log. cbn [snd trace this].
    eexists. split; [reflexivity|]. split; [reflexivity|]. reflexivity.
  - rewrite (flushBatch_run env key w (r :: l) Hget) by discriminate.
    cbv zeta.
    destruct (createUsageRecord env _ key _) as [[]|error];
      unfold log; cbn [snd trace this].
    + eexists. split; [reflexivity|]. split; [reflexivity|].
      intros key' Hne. cbn [pendingUsage set_pendingUsage].
      apply Map_get_set_ne. congruence.
    + rewrite <- app_assoc. eexists. split; [reflexivity|].
      split; [reflexivity|]. reflexivity.
Qed.

Lemma sweep_submits env (entries : JsMap (list BatchedUsageRecord)) :
  forall w : World Strategy,
    NoDup (Map_keys entries) ->
    (forall key usageRecords,
        In (key, usageRecords) entries ->
        Map_get key (pendingUsage (this w)) = Some usageRecords) ->
    exists evs,
      trace (after (sweep env (Map_keys entries)) w) = trace w ++ evs
      /\ quantities (backend_calls evs) = owed entries.
Proof.
  induction entries as [|[key usageRecords] entries IH]; intros w Hnd Hall.
  - exists []. split; [cbn; now rewrite app_nil_r | reflexivity].
  - change (Map_keys ((key, usageRecords) :: entries))
      with (key :: Map_keys entries) in *.
    inversion Hnd as [|? ? Hnot Hnd']; subst.
    destruct (guarded_flush_submits env key w usageRecords)
      as (evs1 & Ht1 & Hq1 & Hother); [apply Hall; now left|].
    set (w1 := after (guarded_flush env key) w) in *.
    destruct (IH w1 Hnd') as (evs2 & Ht2 & Hq2).
    { intros key' recs' Hin. rewrite Hother; [apply Hall; now right|].
      intros ->. apply Hnot. change key with (fst (key, recs')).
      apply in_map. exact Hin. }
    exists (evs1 ++ evs2).
    assert (Hstep : after (sweep env (key :: Map_keys entries)) w
                    = after (sweep env (Map_keys entries)) w1)
      by (unfold after at 1; rewrite sweep_cons; reflexivity).
    rewrite Hstep.
    split; [rewrite Ht2, Ht1; symmetry; apply app_assoc|].
    rewrite backend_calls_app. unfold quantities in *. rewrite map_app, Hq1, Hq2.
    destruct usageRecords; reflexivity.
Qed.

(** X9.  A sweep submits, for each batch of the store that is not empty,
    one submission with the sum of that batch, in the order in which the
    keys entered the store, and submits nothing else: empty batches are
    skipped, and a failure on one key changes nothing to what the other
    keys submit. *)
Theorem X9_sweep_submits_each_pending_batch (env : Env) (w : World Strategy) :
  Map_wf (pendingUsage (this w)) ->
  quantities (backend_calls (new_events w (after (flushAllBatches env) w)))
  = owed (pendingUsage (this w)).
Proof.
  intros Hwf. unfold after. rewrite flushAllBatches_sweep.
  destruct (sweep_submits env (pendingUsage (this w)) (log w [EvFlushAllBatches])
              Hwf) as (evs & Ht & Hq).
  { intros key recs Hin. unfold log. cbn [this]. now apply Map_get_In. }
  unfold after in Ht.
  rewrite (new_events_app w _ ([EvFlushAllBatches] ++ evs)).
  - rewrite backend_calls_app. exact Hq.
  - rewrite Ht. unfold log. cbn [trace]. now rewrite <- app_assoc.
Qed.

(** X9 at the two batches of the suite, the first refused by the backend. *)
Lemma X9_witness :
  quantities
    (backend_calls
       (new_events scenario_isolation
          (after (flushAllBatches test_env) scenario_isolation)))
  = [("si_error", 1); ("si_123", 2)].
Proof.
  rewrite (X9_sweep_submits_each_pending_batch test_env scenario_isolation
             scenario_isolation_wf).
  reflexivity.
Defined.

Lemma batch_of_absent key (w : World Strategy) :
  ~ In key (Map_keys (pendingUsage (this w))) -> batch_of key w = [].
Proof.
  intros Hnot. unfold batch_of.
  destruct (Map_get key (pendingUsage (this w))) as [recs|] eqn:Hget;
    [|reflexivity].
  exfalso. apply Hnot. apply Map_get_In_keys. eauto.
Qed.

(** With a backend that accepts, one turn of the loop is a flush that
    resolves: nothing is reported and the batch ends empty. *)
Lemma guarded_flush_accepted env key (w : World Strategy) :
  backend_accepts env ->
  let w' := after (guarded_flush env key) w in
  batch_of key w' = []
  /\ (forall key', key' <> key -> batch_of key' w' = batch_of key' w)
  /\ exists evs, trace w' = trace w ++ evs /\ console_errors evs = [].
Proof.
  intros Hacc w'. subst w'. unfold after. rewrite guarded_flush_run.
  destruct (flushBatch_spec env key w)
    as (_ & Hother & (post & Ht & _ & Hc) & _ & Hempty).
  unfold after in *.
  assert (Hres : fst (flushBatch env key w) = Resolved tt).
  { destruct (Map_get key (pendingUsage (this w))) as [[|r l]|] eqn:Hget.
    - now rewrite flushBatch_idle by auto.
    - rewrite (flushBatch_run env key w (r :: l) Hget) by discriminate.
      cbv zeta. now rewrite Hacc.
    - now rewrite flushBatch_idle by auto. }
  specialize (Hempty Hres).
  destruct (flushBatch env key w) as [o w1]. cbn [fst snd] in *. subst o.
  split; [exact Hempty|]. split; [exact Hother|].
  exists (EvFlushBatch key :: post). split; [exact Ht | exact Hc].
Qed.

Lemma sweep_accepted env (ids : list string) :
  backend_accepts env ->
  forall w : World Strategy,
    let w' := after (sweep env ids) w in
    (forall key, In key ids -> batch_of key w' = [])
    /\ (forall key, ~ In key ids -> batch_of key w' = batch_of key w)
    /\ exists evs, trace w' = trace w ++ evs /\ console_errors evs = [].
Proof.
  intros Hacc. induction ids as [|id ids IH]; intros w w'.
  - subst w'. unfold after, sweep. cbn. split; [tauto|]. split; [reflexivity|].
    exists []. now rewrite app_nil_r.
  - destruct (guarded_flush_accepted env id w Hacc)
      as (Hempty & Hother & evs1 & Ht1 & Hc1).
    set (w1 := after (guarded_flush env id) w) in *.
    destruct (IH w1) as (Hin2 & Hout2 & evs2 & Ht2 & Hc2).
    assert (Hw' : w' = after (sweep env ids) w1)
      by (unfold w', after; now rewrite sweep_cons).
    rewrite Hw'. split; [|split].
    + intros key Hin. destruct (in_dec string_dec key ids) as [Hi|Hn].
      * now apply Hin2.
      * rewrite (Hout2 key Hn). destruct Hin as [<-|Hin]; [exact Hempty | tauto].
    + intros key Hnot. rewrite Hout2 by (cbn in Hnot; tauto).
      apply Hother. cbn in Hnot. intros ->. tauto.
    + exists (evs1 ++ evs2).
      split; [rewrite Ht2, Ht1; symmetry; apply app_assoc|].
      now rewrite console_errors_app, Hc1, Hc2.
Qed.

(** X10.  When the backend accepts every submission, a sweep leaves every
    batch of the store empty and reports nothing on the console. *)
Theorem X10_accepted_sweep_empties_the_store (env : Env) (w : World Strategy) :
  backend_accepts env ->
  let w' := after (flushAllBatches env) w in
  fst (flushAllBatches env w) = Resolved tt
  /\ (forall key, batch_of key w' = [])
  /\ console_errors (new_events w w') = [].
Proof.
  intros Hacc w'.
  destruct (sweep_of_store env w) as (Hres & _ & _).
  split; [exact Hres|].
  destruct (sweep_accepted env (Map_keys (pendingUsage (this w))) Hacc
              (log w [EvFlushAllBatches]))
    as (Hin & Hout & evs & Ht & Hc).
  assert (Hw' : w' = after (sweep env (Map_keys (pendingUsage (this w))))
                      (log w [EvFlushAllBatches]))
    by (unfold w', after; now rewrite flushAllBatches_sweep).
  rewrite <- Hw' in Hin, Hout, Ht. split.
  - intros key.
    destruct (in_dec string_dec key (Map_keys (pendingUsage (this w))))
      as [Hi|Hn]; [now apply Hin|].
    rewrite (Hout key Hn). now apply batch_of_absent.
  - rewrite (new_events_app w w' ([EvFlushAllBatches] ++ evs)).
    + rewrite console_errors_app, Hc. reflexivity.
    + rewrite Ht. unfold log. cbn [trace]. now rewrite <- app_assoc.
Qed.

(** The collaborators of the suite accept every key but [si_error]; with a
    backend that accepts them all: *)
Lemma X10_witness :
  batch_of "si_error"
    (after (flushAllBatches (mock_env test_resolve (fun _ => Resolved tt)))
       scenario_isolation) = []
  /\ batch_of "si_123"
       (after (flushAllBatches (mock_env test_resolve (fun _ => Resolved tt)))
          scenario_isolation) = [].
Proof.
  destruct (X10_accepted_sweep_empties_the_store
              (mock_env test_resolve (fun _ => Resolved tt)) scenario_isolation
              (fun _ _ _ => eq_refl)) as (_ & Hall & _).
  split; apply Hall.
Defined.

(** ** The batched strategy: disposal *)

Lemma timer_cleared_facts (w : World Strategy) :
  flushInterval (this (timer_cleared w)) = None
  /\ pendingUsage (this (timer_cleared w)) = pendingUsage (this w)
  /\ disposed (this (timer_cleared w)) = disposed (this w)
  /\ new_events w (timer_cleared w)
     = match flushInterval (this w) with
       | Some _ => [EvClearInterval]
       | None => []
       end.
Proof.
  unfold timer_cleared. destruct (flushInterval (this w)) eqn:Ht.
  - cbn [this]. rewrite new_events_log. auto.
  - rewrite new_events_same. auto.
Qed.

(** X11.  [dispose] on an active strategy built with [flushOnDispose]
    false flushes nothing: no [flushBatch], no backend call, and the
    store is left as it was, so whatever was pending stays unsent.  The
    only effect is the release of the timer, once if it was armed. *)
Theorem X11_dispose_without_flush_sends_nothing
    (env : Env) (w : World Strategy) :
  disposed (this w) = false ->
  flushOnDispose (this w) = false ->
  let w' := after (dispose env) w in
  fst (dispose env w) = Resolved tt
  /\ pendingUsage (this w') = pendingUsage (this w)
  /\ disposed (this w') = true
  /\ flushInterval (this w') = None
  /\ new_events w w'
     = match flushInterval (this w) with
       | Some _ => [EvClearInterval]
       | None => []
       end.
Proof.
  intros Hd Hflush w'. subst w'. unfold after.
  rewrite dispose_active by assumption. rewrite Hflush. cbn [fst snd this].
  destruct (timer_cleared_facts w) as (Ht & Hp & _ & Hnew).
  split; [reflexivity|]. split; [exact Hp|]. split; [reflexivity|].
  split; [exact Ht|]. exact Hnew.
Qed.

(** X11 at two pending batches: they are still there after [dispose]. *)
Lemma X11_witness :
  pendingUsage (this (after (dispose test_env) scenario_no_flush))
  = [("si_error", [test_record]); ("si_123", [test_record; test_record])]
  /\ new_events scenario_no_flush (after (dispose test_env) scenario_no_flush)
     = [EvClearInterval].
Proof.
  destruct (X11_dispose_without_flush_sends_nothing test_env scenario_no_flush
              eq_refl eq_refl) as (_ & Hstore & _ & _ & Hnew).
  exact (conj Hstore Hnew).
Defined.

(** X12.  [dispose] on an active strategy that flushes on disposal, with
    a backend that accepts every submission, leaves no usage behind:
    every batch is empty, nothing is reported on the console, the timer
    is released and the strategy is disposed. *)
Theorem X12_dispose_with_accepting_backend_leaves_nothing
    (env : Env) (w : World Strategy) :
  backend_accepts env ->
  disposed (this w) = false ->
  flushOnDispose (this w) = true ->
  let w' := after (dispose env) w in
  (forall key, batch_of key w' = [])
  /\ console_errors (new_events w w') = []
  /\ flushInterval (this w') = None
  /\ disposed (this w') = true.
Proof.
  intros Hacc Hd Hflush w'.
  set (w0 := timer_cleared w).
  set (w2 := after (flushAllBatches env) w0).
  assert (Hw' : w' = {| this := set_disposed true (this w2); trace := trace w2 |})
    by (unfold w', after; rewrite dispose_active by assumption;
        rewrite Hflush; reflexivity).
  destruct (timer_cleared_facts w) as (Ht0 & _ & _ & Hnew0).
  fold w0 in Ht0, Hnew0.
  destruct (sweep_of_store env w0) as (_ & Hset & _ & evs & Ht & _).
  fold w2 in Hset, Ht.
  destruct (sweep_accepted env (Map_keys (pendingUsage (this w0))) Hacc
              (log w0 [EvFlushAllBatches]))
    as (Hin & Hout & evs' & Ht' & Hc').
  assert (Hw2 : w2 = after (sweep env (Map_keys (pendingUsage (this w0))))
                       (log w0 [EvFlushAllBatches]))
    by (unfold w2, after; now rewrite flushAllBatches_sweep).
  rewrite <- Hw2 in Hin, Hout, Ht'.
  split; [|split; [|split]].
  - intros key. rewrite Hw'. change (batch_of key w2 = []).
    destruct (in_dec string_dec key (Map_keys (pendingUsage (this w0))))
      as [Hi|Hn]; [now apply Hin|].
    rewrite (Hout key Hn). now apply batch_of_absent.
  - assert (Htr : trace w' = trace w ++ new_events w w0
                               ++ [EvFlushAllBatches] ++ evs').
    { rewrite Hw'. cbn [trace]. rewrite Ht'. unfold log. cbn [trace].
      rewrite <- !app_assoc. rewrite Hnew0. unfold w0, timer_cleared.
      destruct (flushInterval (this w)); cbn [trace];
        rewrite <- ?app_assoc; reflexivity. }
    rewrite (new_events_app w w' _ Htr). rewrite Hnew0.
    rewrite !console_errors_app, Hc'.
    destruct (flushInterval (this w)); reflexivity.
  - rewrite Hw'. cbn [this flushInterval set_disposed].
    destruct Hset as (_ & _ & _ & Hfi & _). now rewrite Hfi.
  - rewrite Hw'. reflexivity.
Qed.

(** X12 at the two batches of the suite with a backend that accepts. *)
Lemma X12_witness :
  batch_of "si_error" (after (dispose accepting_env) scenario_isolation) = []
  /\ batch_of "si_123" (after (dispose accepting_env) scenario_isolation) = [].
Proof.
  destruct (X12_dispose_with_accepting_backend_leaves_nothing accepting_env
              scenario_isolation (fun _ _ _ => eq_refl) eq_refl eq_refl)
    as (Hall & _).
  split; apply Hall.
Defined.

Lemma dispose_clears_timer env (w : World Strategy) :
  disposed (this w) = false ->
  flushInterval (this (after (dispose env) w)) = None.
Proof.
  intros Hd. unfold after. rewrite dispose_active by assumption.
  cbn [snd this flushInterval set_disposed].
  destruct (timer_cleared_facts w) as (Ht0 & _).
  destruct (flushOnDispose (this w)); [|exact Ht0].
  destruct (sweep_of_store env (timer_cleared w))
    as (_ & (_ & _ & _ & Hfi & _) & _).
  now rewrite Hfi.
Qed.

(** On a disposed strategy whose timer is released no call has any effect. *)
Lemma run_calls_inert env calls :
  forall w : World Strategy,
    disposed (this w) = true ->
    flushInterval (this w) = None ->
    run_calls env calls w = w.
Proof.
  induction calls as [|call calls IH]; intros w Hd Ht; cbn [run_calls];
    [reflexivity|].
  assert (Hstep : after (run_call env call) w = w).
  { unfold after. destruct call as [customerId usageValue apiEndpoint| |];
      cbn [run_call].
    - now rewrite recordUsage_disposed.
    - now rewrite dispose_disposed.
    - unfold timer_fires, bind, gets, ret. cbn [this]. now rewrite Ht. }
  rewrite Hstep. now apply IH.
Qed.

(** X13.  Once an active strategy has been disposed it is inert: whatever
    calls and timer ticks follow, the world never changes again.  No
    backend call is made, and a batch that the final flush could not
    send, or that was not flushed at all, is never sent later. *)
Theorem X13_nothing_happens_after_disposal
    (env : Env) (w : World Strategy) (calls : list Call) :
  disposed (this w) = false ->
  let w1 := after (dispose env) w in
  run_calls env calls w1 = w1
  /\ backend_calls (new_events w1 (run_calls env calls w1)) = []
  /\ pendingUsage (this (run_calls env calls w1)) = pendingUsage (this w1).
Proof.
  intros Hd w1.
  assert (Hinert : run_calls env calls w1 = w1).
  { apply run_calls_inert.
    - apply dispose_makes_disposed.
    - now apply dispose_clears_timer. }
  rewrite Hinert, new_events_same. auto.
Qed.

(** X13 at the two batches of the suite: the batch the backend refused at
    disposal is still there after a timer tick and a further [dispose]. *)
Lemma X13_witness :
  batch_of "si_error"
    (run_calls test_env [TimerFires; CallDispose; TimerFires]
       (after (dispose test_env) scenario_isolation))
  = [test_record].
Proof.
  destruct (X13_nothing_happens_after_disposal test_env scenario_isolation
              [TimerFires; CallDispose; TimerFires] eq_refl) as (Hsame & _).
  rewrite Hsame. reflexivity.
Defined.

(** ** The batched strategy: the keys of the store *)

Lemma begins_refl {A : Type} (l : list A) : begins l l.
Proof. exists []. now rewrite app_nil_r. Qed.

Lemma begins_trans {A : Type} (l1 l2 l3 : list A) :
  begins l1 l2 -> begins l2 l3 -> begins l1 l3.
Proof.
  intros [r1 ->] [r2 ->]. exists (r1 ++ r2). now rewrite app_assoc.
Qed.

Lemma Map_keys_set_begins {V : Type} (k : string) (v : V) (m : JsMap V) :
  begins (Map_keys m) (Map_keys (Map_set k v m)).
Proof.
  destruct (in_dec string_dec k (Map_keys m)) as [Hin|Hnot].
  - rewrite Map_keys_set_present by assumption. apply begins_refl.
  - rewrite Map_keys_set_absent by assumption. now exists [k].
Qed.

Lemma flushBatch_keys env key (w : World Strategy) :
  Map_keys (pendingUsage (this (after (flushBatch env key) w)))
  = Map_keys (pendingUsage (this w)).
Proof.
  unfold after.
  destruct (Map_get key (pendingUsage (this w))) as [[|r l]|] eqn:Hget.
  - now rewrite flushBatch_idle by auto.
  - rewrite (flushBatch_run env key w (r :: l) Hget) by discriminate.
    cbv zeta. destruct (createUsageRecord env _ key _); cbn; [|reflexivity].
    apply Map_keys_set_present. apply Map_get_In_keys. eauto.
  - now rewrite flushBatch_idle by auto.
Qed.

Lemma sweep_keys env (ids : list string) :
  forall w : World Strategy,
    Map_keys (pendingUsage (this (after (sweep env ids) w)))
    = Map_keys (pendingUsage (this w)).
Proof.
  induction ids as [|id ids IH]; intros w; [reflexivity|].
  unfold after. rewrite sweep_cons. fold (after (sweep env ids)
    (after (guarded_flush env id) w)). rewrite IH.
  unfold after. rewrite guarded_flush_run.
  pose proof (flushBatch_keys env id w) as Hk. unfold after in Hk.
  destruct (flushBatch env id w) as [[[]|error] w1]; exact Hk.
Qed.

Lemma flushAllBatches_keys env (w : World Strategy) :
  Map_keys (pendingUsage (this (after (flushAllBatches env) w)))
  = Map_keys (pendingUsage (this w)).
Proof.
  unfold after. rewrite flushAllBatches_sweep.
  apply (sweep_keys env _ (log w [EvFlushAllBatches])).
Qed.

Lemma interval_callback_is_sweep env (w : World Strategy) :
  interval_callback env w = flushAllBatches env w.
Proof.
  unfold interval_callback, try_catch.
  destruct (sweep_of_store env w) as (Hres & _).
  destruct (flushAllBatches env w) as [o w']. cbn [fst] in Hres. now subst o.
Qed.

Lemma run_call_keys env call (w : World Strategy) :
  begins (Map_keys (pendingUsage (this w)))
         (Map_keys (pendingUsage (this (after (run_call env call) w)))).
Proof.
  destruct call as [customerId usageValue apiEndpoint| |]; cbn [run_call].
  - destruct (recordUsage_cases env customerId usageValue apiEndpoint w)
      as [Hw | [(c & Hw) | (c & key & _ & _ & _ & _ & [Hw | Hw])]];
      rewrite Hw.
    + apply begins_refl.
    + apply begins_refl.
    + unfold appended. cbn [this pendingUsage set_pendingUsage].
      apply Map_keys_set_begins.
    + rewrite flushBatch_keys. unfold appended.
      cbn [this pendingUsage set_pendingUsage]. apply Map_keys_set_begins.
  - unfold after. destruct (disposed (this w)) eqn:Hd.
    + rewrite dispose_disposed by assumption. apply begins_refl.
    + rewrite dispose_active by assumption.
      cbn [snd this pendingUsage set_disposed].
      destruct (timer_cleared_facts w) as (_ & Hp & _).
      destruct (flushOnDispose (this w)).
      * rewrite flushAllBatches_keys, Hp. apply begins_refl.
      * rewrite Hp. apply begins_refl.
  - unfold after, timer_fires, bind, gets, ret. cbn [this].
    destruct (flushInterval (this w)); [|apply begins_refl].
    rewrite interval_callback_is_sweep.
    fold (after (flushAllBatches env) w). rewrite flushAllBatches_keys.
    apply begins_refl.
Qed.

(** X14.  The store never forgets a key: through any sequence of calls and
    timer ticks, the keys of the store are kept, in their order, and new
    keys only come after them.  A flush empties a batch but leaves its key
    in the map, so the map grows with every key the resolver has ever
    returned. *)
Theorem X14_keys_are_never_removed
    (env : Env) (calls : list Call) (w : World Strategy) :
  begins (Map_keys (pendingUsage (this w)))
         (Map_keys (pendingUsage (this (run_calls env calls w)))).
Proof.
  revert w. induction calls as [|call calls IH]; intros w; cbn [run_calls].
  - apply begins_refl.
  - eapply begins_trans; [apply run_call_keys | apply IH].
Qed.

(** ** The batched strategy: accounting *)

Lemma accepted_app env pre t1 t2 :
  accepted env pre (t1 ++ t2)
  = accepted env pre t1 + accepted env (pre ++ t1) t2.
Proof.
  revert pre. induction t1 as [|ev t1 IH]; intros pre; cbn [accepted app].
  - now rewrite app_nil_r.
  - rewrite IH, <- app_assoc. cbn [app]. lia.
Qed.

Lemma conserves_refl env (w : World Strategy) : conserves env w w 0.
Proof. exists []. rewrite app_nil_r. cbn. split; [reflexivity | lia]. Qed.

Lemma conserves_trans env (w1 w2 w3 : World Strategy) a b :
  conserves env w1 w2 a -> conserves env w2 w3 b -> conserves env w1 w3 (a + b).
Proof.
  intros (e1 & Ht1 & H1) (e2 & Ht2 & H2). exists (e1 ++ e2). split.
  - rewrite Ht2, Ht1. symmetry. apply app_assoc.
  - rewrite accepted_app. rewrite Ht1 in H2. lia.
Qed.

(** Events other than submissions count for nothing. *)
Lemma conserves_log env (w : World Strategy) ev :
  (forall key params, ev <> EvCreateUsageRecord key params) ->
  conserves env w (log w [ev]) 0.
Proof.
  intros Hev. exists [ev]. split; [reflexivity|].
  unfold pending_total, log. cbn [this accepted].
  destruct ev; try lia. exfalso. eapply Hev. reflexivity.
Qed.

Lemma store_total_set_present (k : string) (old new : list BatchedUsageRecord)
    (m : JsMap (list BatchedUsageRecord)) :
  Map_get k m = Some old ->
  Zsum (map (fun entry => batch_total (snd entry)) (Map_set k new m))
  = Zsum (map (fun entry => batch_total (snd entry)) m)
    - batch_total old + batch_total new.
Proof.
  unfold Zsum.
  induction m as [|[k' v'] m IH]; cbn [Map_get Map_set map fold_right snd];
    [discriminate|].
  destruct (String.eqb k k') eqn:E; cbn [map fold_right snd].
  - intros H. inversion H; subst. lia.
  - intros H. rewrite IH by assumption. lia.
Qed.

Lemma store_total_set_absent (k : string) (new : list BatchedUsageRecord)
    (m : JsMap (list BatchedUsageRecord)) :
  Map_get k m = None ->
  Zsum (map (fun entry => batch_total (snd entry)) (Map_set k new m))
  = Zsum (map (fun entry => batch_total (snd entry)) m) + batch_total new.
Proof.
  unfold Zsum.
  induction m as [|[k' v'] m IH]; cbn [Map_get Map_set map fold_right snd];
    [lia|].
  destruct (String.eqb k k') eqn:E; cbn [map fold_right snd]; [discriminate|].
  intros H. rewrite IH by assumption. lia.
Qed.

(** A flush moves usage from the store to the backend, or moves nothing. *)
Lemma flushBatch_conserves env key (w : World Strategy) :
  conserves env w (after (flushBatch env key) w) 0.
Proof.
  unfold after.
  destruct (Map_get key (pendingUsage (this w))) as [[|r l]|] eqn:Hget.
  - rewrite flushBatch_idle by auto. apply conserves_log. discriminate.
  - rewrite (flushBatch_run env key w (r :: l) Hget) by discriminate.
    cbv zeta. set (params := flush_params env key w (r :: l)).
    exists [EvFlushBatch key; EvCreateUsageRecord key params].
    destruct (createUsageRecord env (trace w ++ [EvFlushBatch key]) key params)
      as [[]|error] eqn:Hb; cbn [snd log trace]; (split; [reflexivity|]);
      cbn [accepted]; rewrite Hb; unfold pending_total; cbn [this].
    + cbn [pendingUsage set_pendingUsage].
      rewrite (store_total_set_present key (r :: l) [] _ Hget).
      unfold params, flush_params, batch_total. cbn [quantity].
      change (Zsum (map usageValue [])) with 0. lia.
    + unfold log. cbn [this]. lia.
  - rewrite flushBatch_idle by auto. apply conserves_log. discriminate.
Qed.

Lemma guarded_flush_conserves env key (w : World Strategy) :
  conserves env w (after (guarded_flush env key) w) 0.
Proof.
  pose proof (flushBatch_conserves env key w) as Hf.
  unfold after in *. rewrite guarded_flush_run.
  destruct (flushBatch env key w) as [[[]|error] w1]; cbn [snd] in *;
    [exact Hf|].
  replace 0 with (0 + 0) by lia.
  apply (conserves_trans env w w1 _ 0 0 Hf).
  apply conserves_log. discriminate.
Qed.

Lemma sweep_conserves env (ids : list string) :
  forall w : World Strategy, conserves env w (after (sweep env ids) w) 0.
Proof.
  induction ids as [|id ids IH]; intros w.
  - apply conserves_refl.
  - unfold after. rewrite sweep_cons.
    replace 0 with (0 + 0) by lia.
    eapply conserves_trans; [apply guarded_flush_conserves | apply IH].
Qed.

Lemma flushAllBatches_conserves env (w : World Strategy) :
  conserves env w (after (flushAllBatches env) w) 0.
Proof.
  unfold after. rewrite flushAllBatches_sweep.
  replace 0 with (0 + 0) by lia.
  eapply conserves_trans; [|apply sweep_conserves].
  apply conserves_log. discriminate.
Qed.

Lemma appended_conserves env c usageValue apiEndpoint key (w : World Strategy) :
  conserves env w (appended env c usageValue apiEndpoint key w) usageValue.
Proof.
  exists [EvGetSubscriptionItemId c]. split; [reflexivity|].
  cbn [accepted]. unfold pending_total, appended, batch_of.
  cbn [this pendingUsage set_pendingUsage].
  destruct (Map_get key (pendingUsage (this w))) as [old|] eqn:Hget.
  - rewrite (store_total_set_present key old _ _ Hget).
    unfold batch_total. rewrite Zsum_usage_snoc. cbn. lia.
  - rewrite (store_total_set_absent key _ _ Hget).
    unfold batch_total, Zsum. cbn. lia.
Qed.

Lemma run_call_conserves env call (w : World Strategy) :
  conserves env w (after (run_call env call) w) (appended_by env call w).
Proof.
  destruct call as [customerId usageValue apiEndpoint| |];
    cbn [run_call appended_by].
  - unfold after. destruct (disposed (this w)) eqn:Hd.
    { rewrite recordUsage_disposed by assumption. cbn [snd].
      destruct customerId as [[|a c]|]; apply conserves_refl. }
    destruct customerId as [[|a c]|].
    + destruct (recordUsage_rejects_invalid env (Some EmptyString) usageValue
                  apiEndpoint w Hd) as (e & -> & _); auto.
      apply conserves_refl.
    + destruct (Z.ltb_spec 0 usageValue) as [Hpos|Hneg].
      * rewrite (recordUsage_run env a c usageValue apiEndpoint w Hd Hpos).
        cbv zeta.
        replace (usageValue <=? 0) with false
          by (symmetry; apply Z.leb_gt; exact Hpos).
        destruct (getSubscriptionItemId env (trace w) (String a c))
          as [key|error].
        -- pose proof (appended_conserves env (String a c) usageValue
                         apiEndpoint key w) as Happ.
           destruct (Z.of_nat _ >=? maxBatchSize (this w)); [|exact Happ].
           replace usageValue with (usageValue + 0) at 2 by lia.
           eapply conserves_trans; [exact Happ|].
           apply flushBatch_conserves.
        -- apply conserves_log. discriminate.
      * destruct (recordUsage_rejects_invalid env (Some (String a c)) usageValue
                    apiEndpoint w Hd) as (e & -> & _); auto.
        replace (usageValue <=? 0) with true
          by (symmetry; apply Z.leb_le; exact Hneg).
        apply conserves_refl.
    + destruct (recordUsage_rejects_invalid env None usageValue
                  apiEndpoint w Hd) as (e & -> & _); auto.
      apply conserves_refl.
  - unfold after. destruct (disposed (this w)) eqn:Hd.
    + rewrite dispose_disposed by assumption. apply conserves_refl.
    + rewrite dispose_active by assumption. cbn [snd].
      assert (H0 : conserves env w (timer_cleared w) 0).
      { unfold timer_cleared. destruct (flushInterval (this w));
          [|apply conserves_refl].
        exists [EvClearInterval]. split; [reflexivity|].
        unfold pending_total.
        cbn [this pendingUsage set_flushInterval accepted]. lia. }
      assert (H1 : conserves env w
                     (if flushOnDispose (this w)
                      then after (flushAllBatches env) (timer_cleared w)
                      else timer_cleared w) 0).
      { destruct (flushOnDispose (this w)); [|exact H0].
        replace 0 with (0 + 0) by lia.
        eapply conserves_trans; [exact H0 | apply flushAllBatches_conserves]. }
      destruct H1 as (evs & Ht & Hsum). exists evs. split; [exact Ht|].
      exact Hsum.
  - unfold after, timer_fires, bind, gets, ret. cbn [this].
    destruct (flushInterval (this w)); [|apply conserves_refl].
    rewrite interval_callback_is_sweep. apply flushAllBatches_conserves.
Qed.

Lemma run_calls_conserves env calls :
  forall w : World Strategy,
    conserves env w (run_calls env calls w) (recorded env calls w).
Proof.
  induction calls as [|call calls IH]; intros w; cbn [run_calls recorded].
  - apply conserves_refl.
  - eapply conserves_trans; [apply run_call_conserves | apply IH].
Qed.

(** X15.  When each call has settled before the next one starts, no usage
    is lost and none is counted twice: along any such sequence of calls
    and timer ticks, with any resolver and any backend, the usage
    pending in the store plus the usage the backend accepted is the usage
    that was pending at the start plus the values of the records that
    went in (those that passed the checks and whose customer resolved).
    In particular a record rejected because its flush failed is counted
    as pending, and a failed submission counts for nothing. *)
Theorem X15_usage_is_conserved
    (env : Env) (calls : list Call) (w : World Strategy) :
  let w' := run_calls env calls w in
  pending_total w' + accepted env (trace w) (new_events w w')
  = pending_total w + recorded env calls w.
Proof.
  intros w'. destruct (run_calls_conserves env calls w) as (evs & Ht & Hsum).
  fold w' in Ht, Hsum. now rewrite (new_events_app w w' evs Ht).
Qed.

(** ** The batched strategy: the hook of the class itself *)

Lemma flushAllBatches_empty env (w : World Strategy) :
  pendingUsage (this w) = [] ->
  flushAllBatches env w = (Resolved tt, log w [EvFlushAllBatches]).
Proof.
  intros He. rewrite flushAllBatches_sweep, He. reflexivity.
Qed.

(** With the hook of the class, a [recordUsage] rejects, adds no usage
    and reaches no backend. *)
Lemma recordUsage_base_hook env customerId usageValue apiEndpoint
    (w : World Strategy) :
  uses_base_hook env ->
  exists e evs,
    recordUsage env customerId usageValue apiEndpoint w
    = (Rejected (VError e), log w evs)
    /\ backend_calls evs = []
    /\ (disposed (this w) = false ->
        (exists a c, customerId = Some (String a c)) ->
        0 < usageValue -> e = hook_error).
Proof.
  intros Hook.
  assert (Hlog : log w [] = w).
  { unfold log. rewrite app_nil_r. now destruct w. }
  destruct (disposed (this w)) eqn:Hd.
  { exists disposed_error, []. rewrite Hlog.
    split; [now apply recordUsage_disposed|]. split; [reflexivity|].
    discriminate. }
  destruct customerId as [[|a c]|].
  - destruct (recordUsage_rejects_invalid env (Some EmptyString)
                usageValue apiEndpoint w Hd) as (e & He & _); [auto|].
    exists e, []. rewrite Hlog. split; [exact He|]. split; [reflexivity|].
    intros _ (a & c & Hc). discriminate.
  - destruct (Z.ltb_spec 0 usageValue) as [Hpos|Hneg].
    + exists hook_error, [EvGetSubscriptionItemId (String a c)].
      rewrite (recordUsage_run env a c usageValue apiEndpoint w Hd Hpos).
      cbv zeta. rewrite (Hook (trace w) (String a c)).
      unfold base_getSubscriptionItemId.
      split; [reflexivity|]. split; [reflexivity|]. reflexivity.
    + destruct (recordUsage_rejects_invalid env (Some (String a c))
                  usageValue apiEndpoint w Hd) as (e & He & _); [auto|].
      exists e, []. rewrite Hlog. split; [exact He|]. split; [reflexivity|].
      intros _ _ Hpos. lia.
  - destruct (recordUsage_rejects_invalid env None
                usageValue apiEndpoint w Hd) as (e & He & _); [auto|].
    exists e, []. rewrite Hlog. split; [exact He|]. split; [reflexivity|].
    intros _ (a & c & Hc). discriminate.
Qed.

(** With the hook of the class, a call on an empty store leaves it empty
    and reaches no backend. *)
Lemma run_call_base_hook env call (w : World Strategy) :
  uses_base_hook env ->
  pendingUsage (this w) = [] ->
  exists evs,
    trace (after (run_call env call) w) = trace w ++ evs
    /\ backend_calls evs = []
    /\ pendingUsage (this (after (run_call env call) w)) = [].
Proof.
  intros Hook He. unfold after.
  destruct call as [customerId usageValue apiEndpoint| |]; cbn [run_call].
  - destruct (recordUsage_base_hook env customerId usageValue apiEndpoint w Hook)
      as (e & evs & -> & Hb & _).
    exists evs. cbn [snd log trace this]. auto.
  - destruct (disposed (this w)) eqn:Hd.
    + rewrite dispose_disposed by assumption. exists [].
      cbn [snd]. rewrite app_nil_r. auto.
    + rewrite dispose_active by assumption. cbn [snd this trace set_disposed pendingUsage].
      destruct (timer_cleared_facts w) as (_ & Hp & _ & _).
      assert (Ht : exists evs0, trace (timer_cleared w) = trace w ++ evs0
                                /\ backend_calls evs0 = []).
      { unfold timer_cleared. destruct (flushInterval (this w)).
        - exists [EvClearInterval]. auto.
        - exists []. now rewrite app_nil_r. }
      destruct Ht as (evs0 & Ht & Hb0).
      destruct (flushOnDispose (this w)).
      * unfold after. rewrite flushAllBatches_empty by (now rewrite Hp).
        cbn [snd log this trace]. exists (evs0 ++ [EvFlushAllBatches]).
        rewrite Ht, <- app_assoc, backend_calls_app, Hb0, Hp. auto.
      * exists evs0. rewrite Hp. auto.
  - unfold timer_fires, bind, gets, ret. cbn [this].
    destruct (flushInterval (this w)).
    + rewrite interval_callback_is_sweep, flushAllBatches_empty by assumption.
      exists [EvFlushAllBatches]. cbn [snd log this trace]. auto.
    + exists []. cbn [snd]. rewrite app_nil_r. auto.
Qed.

Lemma run_calls_base_hook env calls :
  uses_base_hook env ->
  forall w : World Strategy,
    pendingUsage (this w) = [] ->
    exists evs,
      trace (run_calls env calls w) = trace w ++ evs
      /\ backend_calls evs = []
      /\ pendingUsage (this (run_calls env calls w)) = [].
Proof.
  intros Hook. induction calls as [|call calls IH]; intros w He; cbn [run_calls].
  - exists []. rewrite app_nil_r. auto.
  - destruct (run_call_base_hook env call w Hook He) as (evs1 & Ht1 & Hb1 & He1).
    destruct (IH _ He1) as (evs2 & Ht2 & Hb2 & He2).
    exists (evs1 ++ evs2). rewrite Ht2, Ht1, <- app_assoc, backend_calls_app,
      Hb1, Hb2. auto.
Qed.

(** X16.  The class as it is, with its own [getSubscriptionItemId], never
    records anything: through any sequence of calls and timer ticks on a
    new instance the store stays empty and the backend is never reached,
    and every [recordUsage] rejects; on an active instance a valid
    [recordUsage] rejects with the error of the hook itself, [Subscription
    item ID resolution is not implemented in this example].  Usage is only
    ever recorded by a subclass that overrides the hook. *)
Theorem X16_hook_of_the_class_records_nothing
    (env : Env) (calls : list Call) (w : World Strategy) :
  uses_base_hook env ->
  pendingUsage (this w) = [] ->
  let w' := run_calls env calls w in
  pendingUsage (this w') = []
  /\ backend_calls (new_events w w') = []
  /\ (forall customerId usageValue apiEndpoint,
        exists e,
          fst (recordUsage env customerId usageValue apiEndpoint w')
          = Rejected (VError e))
  /\ (forall a c usageValue apiEndpoint,
        disposed (this w') = false ->
        0 < usageValue ->
        fst (recordUsage env (Some (String a c)) usageValue apiEndpoint w')
        = Rejected (VError hook_error)).
Proof.
  intros Hook He w'.
  destruct (run_calls_base_hook env calls Hook w He) as (evs & Ht & Hb & He').
  fold w' in Ht, He'.
  split; [exact He'|]. split.
  { unfold new_events. rewrite Ht, skipn_length_app. exact Hb. }
  split.
  - intros customerId usageValue apiEndpoint.
    destruct (recordUsage_base_hook env customerId usageValue apiEndpoint w' Hook)
      as (e & evs' & -> & _). now exists e.
  - intros a c usageValue apiEndpoint Hd Hpos.
    destruct (recordUsage_base_hook env (Some (String a c)) usageValue
                apiEndpoint w' Hook) as (e & evs' & -> & _ & Hhook).
    cbn [fst]. rewrite Hhook; eauto.
Qed.

(** X16 on a new instance: two records, a tick of the timer and a
    disposal send nothing. *)
Lemma X16_witness :
  backend_calls
    (new_events scenario_start
       (run_calls base_env
          [CallRecordUsage (Some "cus_123") 1 None;
           CallRecordUsage (Some "cus_a") 2 None; TimerFires; CallDispose]
          scenario_start))
  = [].
Proof.
  assert (Hook : uses_base_hook base_env) by (intros t customerId; reflexivity).
  exact (proj1 (proj2
    (X16_hook_of_the_class_records_nothing base_env
       [CallRecordUsage (Some "cus_123") 1 None;
        CallRecordUsage (Some "cus_a") 2 None; TimerFires; CallDispose]
       scenario_start Hook eq_refl))).
Defined.

(** ** The service *)

Lemma recordApiCall_invalid {T : Type}
    (strategy_recordUsage : option string -> Z -> option string -> M T unit)
    (customerId : option string) (v : Z) (apiEndpoint : option string)
    (w : World T) :
  customerId = None \/ customerId = Some EmptyString \/ v <= 0 ->
  exists e,
    MeteringService.recordApiCall strategy_recordUsage customerId v apiEndpoint w
    = (Rejected (VError e), w)
    /\ name e = Error
    /\ (message e = "Customer ID is required"
        \/ message e = "Usage value must be greater than zero").
Proof.
  intros Hbad. unfold MeteringService.recordApiCall, throw.
  destruct customerId as [[|a c]|].
  - eexists. split; [reflexivity|]. split; [reflexivity|]. now left.
  - destruct Hbad as [Hbad|[Hbad|Hbad]]; try discriminate.
    apply Z.leb_le in Hbad. rewrite Hbad.
    eexists. split; [reflexivity|]. split; [reflexivity|]. now right.
  - eexists. split; [reflexivity|]. split; [reflexivity|]. now left.
Qed.

(** X17.  [MeteringService.recordApiCall] checks its input before it
    reaches the strategy: with a missing or empty customer, or a usage
    value that is zero or negative, it rejects at once, whatever the
    strategy and whatever its state, and the strategy is not run.  The
    error is a plain [Error], not an [InvalidInputError], and its message
    is the bare [Customer ID is required] or [Usage value must be greater
    than zero], without the prefix of the errors that come from the
    strategy. *)
Theorem X17_service_rejects_invalid_input_itself {T : Type}
    (strategy_recordUsage : option string -> Z -> option string -> M T unit)
    (customerId : option string) (v : Z) (apiEndpoint : option string)
    (w : World T) :
  customerId = None \/ customerId = Some EmptyString \/ v <= 0 ->
  exists e,
    MeteringService.recordApiCall strategy_recordUsage customerId v apiEndpoint w
    = (Rejected (VError e), w)
    /\ name e = Error
    /\ (message e = "Customer ID is required"
        \/ message e = "Usage value must be greater than zero").
Proof. apply recordApiCall_invalid. Qed.

(** X17 over a disposed batched strategy: the input check of the service
    comes first, so the caller is told about the customer, not about the
    disposal. *)
Lemma X17_witness :
  let w := after (dispose test_env) scenario_start in
  exists e,
    MeteringService.recordApiCall (recordUsage test_env) None 1 None w
    = (Rejected (VError e), w)
    /\ name e = Error.
Proof.
  intros w.
  destruct (X17_service_rejects_invalid_input_itself (recordUsage test_env)
              None 1 None w (or_introl eq_refl)) as (e & He & Hn & _).
  exists e. split; [exact He|exact Hn].
Defined.

(** X18.  With a customer and a positive value, [recordApiCall] runs the
    [recordUsage] of the strategy once and leaves the world exactly as the
    strategy leaves it.  It resolves when the strategy resolves.  An error
    of the strategy comes back as the same error with [Failed to record API
    call: ] put before its message: class, code, status code and cause are
    kept.  A rejection that is not an error is replaced: the caller gets a
    plain [Error] saying [Failed to record API call: Unknown error
    occurred], and the value that was thrown is lost. *)
Theorem X18_service_forwards_and_prefixes {T : Type}
    (strategy_recordUsage : option string -> Z -> option string -> M T unit)
    (a : ascii) (c : string) (v : Z) (apiEndpoint : option string)
    (w : World T) :
  0 < v ->
  let customerId := Some (String a c) in
  let r := strategy_recordUsage customerId v apiEndpoint w in
  let r' := MeteringService.recordApiCall strategy_recordUsage customerId v
              apiEndpoint w in
  snd r' = snd r
  /\ (fst r = Resolved tt -> fst r' = Resolved tt)
  /\ (forall e, fst r = Rejected (VError e) ->
        exists e',
          fst r' = Rejected (VError e')
          /\ message e' = ("Failed to record API call: " ++ message e)%string
          /\ name e' = name e
          /\ code e' = code e
          /\ statusCode e' = statusCode e
          /\ stripeCode e' = stripeCode e
          /\ cause e' = cause e)
  /\ (forall error, fst r = Rejected error ->
        (forall e, error <> VError e) ->
        fst r' = Rejected (VError (new_Error
                   "Failed to record API call: Unknown error occurred"))).
Proof.
  intros Hpos customerId r r'. subst r r' customerId.
  unfold MeteringService.recordApiCall, try_catch, throw.
  destruct (v <=? 0) eqn:E; [apply Z.leb_le in E; lia|].
  destruct (strategy_recordUsage (Some (String a c)) v apiEndpoint w)
    as [[[]|error] w1]; cbn [fst snd].
  - split; [reflexivity|]. split; [reflexivity|].
    split; intros; discriminate.
  - split; [reflexivity|]. split; [discriminate|]. split.
    + intros e He. inversion He; subst error.
      eexists. split; [reflexivity|]. cbn. auto 10.
    + intros error' He Hne. inversion He; subst error'.
      destruct error as [s|co st|e]; try reflexivity.
      exfalso. exact (Hne e eq_refl).
Qed.

(** X18 over the batched strategy of the test suite: the failure of the
    flush that the second record triggers reaches the caller of the
    service as a [StripeApiError] with the prefix of the service before
    that of the flush, and the record stays in the store. *)
Lemma X18_witness :
  let r := MeteringService.recordApiCall (recordUsage test_env)
             (Some "cus_error") 1 None
             (after (recordUsage test_env (Some "cus_error") 1 None)
                scenario_small) in
  (exists e,
     fst r = Rejected (VError e)
     /\ name e = StripeApiError
     /\ message e = "Failed to record API call: Failed to flush usage records for subscription item si_error: Stripe API error")
  /\ length (batch_of "si_error" (snd r)) = 2%nat.
Proof.
  intros r.
  destruct (X18_service_forwards_and_prefixes (recordUsage test_env)
              "c"%char "us_error" 1 None
              (after (recordUsage test_env (Some "cus_error") 1 None)
                 scenario_small) eq_refl) as (Hw & _ & Herr & _).
  split.
  - destruct (Herr (wrapped (flush_prefix "si_error")
                      (VError (new_Error "Stripe API error"))) eq_refl)
      as (e' & He' & Hm & Hn & _).
    exists e'. split; [exact He'|]. split; [exact Hn|exact Hm].
  - subst r. rewrite Hw. reflexivity.
Defined.

(** On valid input the immediate strategy rejects in two ways only: it
    is disposed, or the backend refused the meter event. *)
Lemma immediate_recordUsage_errors env a c usageValue apiEndpoint
    (w : World ImmediateMeterEventStrategy.Strategy) error :
  0 < usageValue ->
  let r := ImmediateMeterEventStrategy.recordUsage env (Some (String a c))
             usageValue apiEndpoint w in
  fst r = Rejected error ->
  (error = VError disposed_error /\ snd r = w)
  \/ (exists error0,
        error = VError (wrapped (meter_prefix (String a c)) error0)
        /\ snd r = log w [EvMeterEventsCreate
                            (meter_params env (String a c) usageValue
                               apiEndpoint w)]).
Proof.
  intros Hpos r. subst r.
  destruct (ImmediateMeterEventStrategy.disposed (this w)) eqn:Hd.
  { rewrite immediate_recordUsage_disposed by assumption. cbn [fst snd].
    intros H. inversion H. now left. }
  rewrite (immediate_recordUsage_run env a c usageValue apiEndpoint w Hd Hpos).
  cbv zeta.
  destruct (meterEventsCreate env (trace w) _) as [[]|error0];
    cbn [fst snd]; [discriminate|].
  intros H. inversion H. right. exists error0. split; reflexivity.
Qed.

(** X19.  Through the service, the immediate strategy never reports an
    [InvalidInputError]: invalid input is stopped by the service with a
    plain [Error], so the checks of the strategy are never the ones that
    fire.  A rejected [recordApiCall] is either a plain [Error] with
    nothing sent (invalid input, disposed strategy), or a [StripeApiError]
    after exactly one meter event (the backend refused). *)
Theorem X19_service_over_immediate_error_classes
    (env : Env) (customerId : option string) (v : Z)
    (apiEndpoint : option string)
    (w : World ImmediateMeterEventStrategy.Strategy) (error : JsValue) :
  let r := MeteringService.recordApiCall
             (ImmediateMeterEventStrategy.recordUsage env)
             customerId v apiEndpoint w in
  fst r = Rejected error ->
  exists e,
    error = VError e
    /\ ((name e = Error /\ snd r = w)
        \/ (name e = StripeApiError
            /\ exists c,
                 customerId = Some c
                 /\ snd r = log w [EvMeterEventsCreate
                                     (meter_params env c v apiEndpoint w)])).
Proof.
  intros r. subst r.
  assert (Hinv : customerId = None \/ customerId = Some EmptyString \/ v <= 0 ->
                 fst (MeteringService.recordApiCall
                        (ImmediateMeterEventStrategy.recordUsage env)
                        customerId v apiEndpoint w) = Rejected error ->
                 exists e, error = VError e
                   /\ ((name e = Error
                        /\ snd (MeteringService.recordApiCall
                                  (ImmediateMeterEventStrategy.recordUsage env)
                                  customerId v apiEndpoint w) = w)
                       \/ (name e = StripeApiError
                           /\ exists c, customerId = Some c
                              /\ snd (MeteringService.recordApiCall
                                        (ImmediateMeterEventStrategy.recordUsage env)
                                        customerId v apiEndpoint w)
                                 = log w [EvMeterEventsCreate
                                            (meter_params env c v apiEndpoint w)]))).
  { intros Hbad.
    destruct (recordApiCall_invalid (ImmediateMeterEventStrategy.recordUsage env)
                customerId v apiEndpoint w Hbad) as (e & -> & Hn & _).
    cbn [fst snd]. intros H. inversion H. exists e. auto. }
  destruct customerId as [[|a c]|]; [apply Hinv; auto| |apply Hinv; auto].
  destruct (Z.ltb_spec 0 v) as [Hpos|Hneg]; [|apply Hinv; auto].
  clear Hinv.
  pose proof (immediate_recordUsage_errors env a c v apiEndpoint w) as Herrs.
  cbv zeta in Herrs.
  unfold MeteringService.recordApiCall, try_catch, throw.
  destruct (v <=? 0) eqn:E; [apply Z.leb_le in E; lia|].
  destruct (ImmediateMeterEventStrategy.recordUsage env (Some (String a c)) v
              apiEndpoint w) as [[[]|error0] w1]; cbn [fst snd] in *;
    [discriminate|].
  intros H. inversion H.
  destruct (Herrs error0 Hpos eq_refl) as [(-> & Hw) | (error1 & -> & Hw)].
  - eexists. split; [reflexivity|]. left. split; [reflexivity|exact Hw].
  - eexists. split; [reflexivity|]. right.
    split; [|exists (String a c); split; [reflexivity|exact Hw]].
    cbn [name MeteringService.set_message].
    now destruct (wrapped_fields (meter_prefix (String a c)) error1).
Qed.

(** X19 when the backend of the suite refuses the customer. *)
Lemma X19_witness :
  exists e,
    fst (MeteringService.recordApiCall
           (ImmediateMeterEventStrategy.recordUsage test_env)
           (Some "cus_error") 1 None immediate_start)
    = Rejected (VError e)
    /\ name e = StripeApiError.
Proof.
  destruct (X19_service_over_immediate_error_classes test_env
              (Some "cus_error") 1 None immediate_start _ eq_refl)
    as (e & He & [(Hn & Hw) | (Hn & _)]).
  - exfalso. vm_compute in Hw. discriminate Hw.
  - exists e. split; [|exact Hn]. rewrite <- He. reflexivity.
Defined.

(** X20.  The usage value of [recordApiCall] defaults to 1 only when it
    is left out: a call with a customer and no value on an active
    immediate strategy sends one meter event of value 1, while an
    explicit value of 0 is not replaced by the default but rejected
    by the check of the service, with nothing sent. *)
Theorem X20_omitted_usage_value_counts_one
    (env : Env) (a : ascii) (c : string) (apiEndpoint : option string)
    (w : World ImmediateMeterEventStrategy.Strategy) :
  ImmediateMeterEventStrategy.disposed (this w) = false ->
  let customerId := String a c in
  after (recordApiCall_default (ImmediateMeterEventStrategy.recordUsage env)
           (Some customerId) None apiEndpoint) w
  = log w [EvMeterEventsCreate (meter_params env customerId 1 apiEndpoint w)]
  /\ recordApiCall_default (ImmediateMeterEventStrategy.recordUsage env)
       (Some customerId) (Some 0) apiEndpoint w
     = (Rejected (VError (new_Error "Usage value must be greater than zero")), w).
Proof.
  intros Hd customerId. subst customerId. split; [|reflexivity].
  unfold after, recordApiCall_default, MeteringService.recordApiCall,
    try_catch, throw.
  cbn [Z.leb Z.compare].
  rewrite (immediate_recordUsage_run env a c 1 apiEndpoint w Hd eq_refl).
  cbv zeta.
  destruct (meterEventsCreate env (trace w) _) as [[]|error]; reflexivity.
Qed.

(** X20 on the immediate strategy of the suite. *)
Lemma X20_witness :
  map (fun ev => match ev with
                 | EvMeterEventsCreate params => value params
                 | _ => 0
                 end)
    (trace (after (recordApiCall_default
                     (ImmediateMeterEventStrategy.recordUsage test_env)
                     (Some "cus_123") None None) immediate_start))
  = [1].
Proof.
  destruct (X20_omitted_usage_value_counts_one test_env "c"%char "us_123" None
              immediate_start eq_refl) as (Hw & _).
  rewrite Hw. reflexivity.
Defined.

Lemma dispose_resolves env (w : World Strategy) :
  fst (dispose env w) = Resolved tt.
Proof.
  destruct (disposed (this w)) eqn:Hd.
  - now rewrite dispose_disposed.
  - now rewrite dispose_active.
Qed.

(** X21.  [MeteringService.dispose] over a batched strategy resolves,
    whatever the state of the strategy and the backend, and so it does
    over a strategy that has no [dispose], which it leaves alone.  After
    it, a [recordApiCall] with valid input rejects with the error of the
    disposed strategy under the prefix of the service, [Failed to record
    API call: Strategy has been disposed and cannot record usage], and
    changes nothing. *)
Theorem X21_service_dispose_then_record
    (env : Env) (w : World Strategy) (a : ascii) (c : string) (v : Z)
    (apiEndpoint : option string) :
  0 < v ->
  let w1 := after (service_dispose (Some (dispose env))) w in
  fst (service_dispose (Some (dispose env)) w) = Resolved tt
  /\ service_dispose None w = (Resolved tt, w)
  /\ MeteringService.recordApiCall (recordUsage env) (Some (String a c)) v
       apiEndpoint w1
     = (Rejected (VError (new_Error
          "Failed to record API call: Strategy has been disposed and cannot record usage")),
        w1).
Proof.
  intros Hpos w1. subst w1. cbn [service_dispose].
  split; [apply dispose_resolves|]. split; [reflexivity|].
  unfold MeteringService.recordApiCall, try_catch, throw.
  destruct (v <=? 0) eqn:E; [apply Z.leb_le in E; lia|].
  rewrite recordUsage_disposed by apply dispose_makes_disposed.
  reflexivity.
Qed.

(** X21 on the two batches of the suite. *)
Lemma X21_witness :
  let w1 := after (service_dispose (Some (dispose test_env))) scenario_isolation in
  fst (MeteringService.recordApiCall (recordUsage test_env) (Some "cus_123") 1
         None w1)
  = Rejected (VError (new_Error
      "Failed to record API call: Strategy has been disposed and cannot record usage")).
Proof.
  intros w1.
  destruct (X21_service_dispose_then_record test_env scenario_isolation
              "c"%char "us_123" 1 None eq_refl) as (_ & _ & Hrec).
  fold w1 in Hrec. now rewrite Hrec.
Defined.

(** ** The factory *)

(** X22.  [MeteringServiceFactory.createService] builds a service exactly
    when there is a configuration with a non-empty API key whose strategy
    type is [immediate] or [batched]; every failure is a
    [ConfigurationError], never the plain [Error] of the constructors of
    the strategies, whose own key check cannot fire.  The checks come in
    this order: the configuration, the key, the strategy type.  An
    immediate service is built without any effect; a batched one arms
    its timer, once, at the interval of the instance, and starts with an
    empty store. *)
Theorem X22_createService_outcomes
    (env : Env) (config : option MeteringServiceFactory.MeteringConfig) :
  match MeteringServiceFactory.createService env config with
  | Resolved (MeteringServiceFactory.ImmediateService strategy) =>
      exists cfg,
        config = Some cfg
        /\ MeteringServiceFactory.stripeApiKey cfg <> EmptyString
        /\ MeteringServiceFactory.strategyType cfg = "immediate"
        /\ trace strategy = []
        /\ ImmediateMeterEventStrategy.disposed (this strategy) = false
  | Resolved (MeteringServiceFactory.BatchedService strategy) =>
      exists cfg,
        config = Some cfg
        /\ MeteringServiceFactory.stripeApiKey cfg <> EmptyString
        /\ MeteringServiceFactory.strategyType cfg = "batched"
        /\ trace strategy = [EvSetInterval (batchIntervalMs (this strategy))]
        /\ flushInterval (this strategy)
           = Some (Timer (batchIntervalMs (this strategy)))
        /\ pendingUsage (this strategy) = []
        /\ disposed (this strategy) = false
  | Rejected error =>
      exists msg,
        error = VError (MeteringServiceFactory.new_ConfigurationError msg)
        /\ ((config = None /\ msg = "Configuration is required")
            \/ (exists cfg,
                  config = Some cfg
                  /\ MeteringServiceFactory.stripeApiKey cfg = EmptyString
                  /\ msg = "Stripe API key is required")
            \/ (exists cfg,
                  config = Some cfg
                  /\ MeteringServiceFactory.stripeApiKey cfg <> EmptyString
                  /\ MeteringServiceFactory.strategyType cfg <> "immediate"
                  /\ MeteringServiceFactory.strategyType cfg <> "batched"
                  /\ msg
                     = ("Unknown strategy type: "
                        ++ MeteringServiceFactory.strategyType cfg)%string))
  end.
Proof.
  unfold MeteringServiceFactory.createService.
  destruct config as [cfg|].
  2:{ eexists. split; [reflexivity|]. left. split; reflexivity. }
  destruct (String.eqb_spec (MeteringServiceFactory.stripeApiKey cfg) EmptyString)
    as [Hkey|Hkey].
  { eexists. split; [reflexivity|]. right. left. exists cfg. auto. }
  destruct (String.eqb_spec (MeteringServiceFactory.strategyType cfg) "immediate")
    as [Himm|Himm].
  { unfold ImmediateMeterEventStrategy.constructor.
    cbn [ImmediateMeterEventStrategy.stripeApiKey].
    destruct (String.eqb_spec (MeteringServiceFactory.stripeApiKey cfg)
                EmptyString) as [Hk|_]; [contradiction|].
    exists cfg. cbn [this trace ImmediateMeterEventStrategy.disposed]. auto. }
  destruct (String.eqb_spec (MeteringServiceFactory.strategyType cfg) "batched")
    as [Hbat|Hbat].
  { unfold constructor. cbn [stripeApiKey].
    destruct (String.eqb_spec (MeteringServiceFactory.stripeApiKey cfg)
                EmptyString) as [Hk|_]; [contradiction|].
    exists cfg. cbn [this trace batchIntervalMs flushInterval pendingUsage disposed].
    auto 10. }
  eexists. split; [reflexivity|]. right. right. exists cfg. auto 10.
Qed.

(** ** The batched strategy: a record during a flush *)

(** The two halves, run without anything in between, are [flushBatch]. *)
Lemma flushBatch_in_two_halves env key (w : World Strategy) :
  flushBatch_resumed env key w = flushBatch env key w.
Proof.
  unfold flushBatch_resumed, flushBatch_until_await, flushBatch_from_await,
    flushBatch, bind, emit, gets, ask, ret, try_catch, await_call, modify,
    throw, wrap_backend_error.
  cbn [this trace].
  destruct (Map_get key (pendingUsage (this w))) as [[|r l]|]; try reflexivity.
  cbn [this trace].
  destruct (createUsageRecord env _ key _) as [[]|error]; reflexivity.
Qed.

Lemma flushBatch_until_await_run env key (w : World Strategy) usageRecords :
  Map_get key (pendingUsage (this w)) = Some usageRecords ->
  usageRecords <> [] ->
  let params := flush_params env key w usageRecords in
  flushBatch_until_await env key w
  = (Resolved (Some (createUsageRecord env (trace w ++ [EvFlushBatch key]) key
                       params)),
     log w [EvFlushBatch key; EvCreateUsageRecord key params]).
Proof.
  intros Hget Hne params. subst params.
  unfold flushBatch_until_await, bind, emit, gets, ask, ret, flush_params, log.
  cbn [this trace]. rewrite Hget.
  destruct usageRecords as [|r l]; [contradiction|].
  cbn [this trace]. rewrite totalUsage_sum, <- app_assoc. reflexivity.
Qed.

(** X23.  Usage recorded while a flush of its key is in flight is lost.
    [flushBatch] sums the batch, sends the sum and, once the backend has
    accepted it, empties the array of the store.  A [recordUsage] that
    runs between the two, for a customer of the same key, resolves and puts
    its entry into that same array; the end of the flush then empties the
    array, new entry included.  The backend has been sent the old sum
    only, the store holds nothing, and both callers were told that all
    went well: the new usage is neither pending nor submitted. *)
Theorem X23_usage_recorded_during_a_flush_is_lost
    (env : Env) (key : string) (a : ascii) (c : string) (v : Z)
    (apiEndpoint : option string) (usageRecords : list BatchedUsageRecord)
    (w : World Strategy) :
  disposed (this w) = false ->
  0 < v ->
  Map_get key (pendingUsage (this w)) = Some usageRecords ->
  usageRecords <> [] ->
  Z.of_nat (length usageRecords) + 1 < maxBatchSize (this w) ->
  createUsageRecord env (trace w ++ [EvFlushBatch key]) key
    (flush_params env key w usageRecords) = Resolved tt ->
  let w1 := after (flushBatch_until_await env key) w in
  getSubscriptionItemId env (trace w1) (String a c) = Resolved key ->
  let w2 := after (recordUsage env (Some (String a c)) v apiEndpoint) w1 in
  let w3 := after (flushBatch_from_await key (Resolved tt)) w2 in
  fst (flushBatch_until_await env key w) = Resolved (Some (Resolved tt))
  /\ fst (recordUsage env (Some (String a c)) v apiEndpoint w1) = Resolved tt
  /\ batch_of key w2
     = usageRecords ++ [new_entry env (String a c) v apiEndpoint w1]
  /\ fst (flushBatch_from_await key (Resolved tt) w2) = Resolved tt
  /\ batch_of key w3 = []
  /\ map (fun call => quantity (snd call)) (backend_calls (new_events w w3))
     = [Zsum (map usageValue usageRecords)].
Proof.
  intros Hd Hpos Hget Hne Hmax Hok w1 Hres w2 w3.
  assert (Hw1 : w1 = log w [EvFlushBatch key;
                            EvCreateUsageRecord key
                              (flush_params env key w usageRecords)]).
  { unfold w1, after.
    now rewrite (flushBatch_until_await_run env key w usageRecords Hget Hne). }
  assert (Hd1 : disposed (this w1) = false) by (now rewrite Hw1).
  assert (Hb1 : batch_of key w1 = usageRecords).
  { rewrite Hw1. unfold batch_of, log. cbn [this]. now rewrite Hget. }
  assert (Hm1 : maxBatchSize (this w1) = maxBatchSize (this w))
    by (now rewrite Hw1).
  pose proof (recordUsage_run env a c v apiEndpoint w1 Hd1 Hpos) as Hrun.
  cbv zeta in Hrun. rewrite Hres in Hrun.
  rewrite batch_of_appended in Hrun. rewrite Hb1, Hm1 in Hrun.
  rewrite length_app in Hrun. cbn [length] in Hrun.
  destruct (Z.of_nat (length usageRecords + 1) >=? maxBatchSize (this w)) eqn:E.
  { apply Z.geb_le in E. lia. }
  assert (Hw2 : w2 = appended env (String a c) v apiEndpoint key w1).
  { unfold w2, after. now rewrite Hrun. }
  split.
  { now rewrite (flushBatch_until_await_run env key w usageRecords Hget Hne), Hok. }
  split; [now rewrite Hrun|].
  split; [now rewrite Hw2, batch_of_appended, Hb1|].
  split; [reflexivity|].
  split.
  { unfold w3, after, flushBatch_from_await, try_catch, modify, batch_of.
    cbn [snd this pendingUsage set_pendingUsage]. now rewrite Map_get_set_eq. }
  unfold w3, after, flushBatch_from_await, try_catch, modify. cbn [snd].
  rewrite Hw2. unfold appended. cbn [trace]. rewrite Hw1. unfold log.
  cbn [trace]. unfold new_events. cbn [trace].
  rewrite <- app_assoc, skipn_length_app. reflexivity.
Qed.

(** X23 on the two batches of the suite: usage 7 recorded for [si_123]
    while its batch of two is being flushed.  The backend is sent 2 and
    the store ends empty. *)
Lemma X23_witness :
  let w1 := after (flushBatch_until_await test_env "si_123") scenario_isolation in
  let w2 := after (recordUsage test_env (Some "cus_123") 7 None) w1 in
  let w3 := after (flushBatch_from_await "si_123" (Resolved tt)) w2 in
  batch_of "si_123" w3 = []
  /\ map (fun call => quantity (snd call))
       (backend_calls (new_events scenario_isolation w3)) = [2].
Proof.
  intros w1 w2 w3.
  destruct (X23_usage_recorded_during_a_flush_is_lost test_env "si_123"
              "c"%char "us_123" 7 None [test_record; test_record]
              scenario_isolation eq_refl eq_refl eq_refl ltac:(discriminate)
              eq_refl eq_refl eq_refl) as (_ & _ & _ & _ & Hb & Hq).
  split; [exact Hb | exact Hq].
Defined.

(** X24.  Nothing keeps two flushes of one key from overlapping, and
    when they do the batch is submitted twice.  A flush that starts
    while another flush of the same key is waiting for the backend (a
    tick of the timer during the flush of a full batch, say) finds the
    batch still in the store and sends its sum again; when the backend
    accepts both, both flushes resolve, the batch ends empty, and the
    backend has been given the usage two times. *)
Theorem X24_overlapping_flushes_submit_twice
    (env : Env) (key : string) (usageRecords : list BatchedUsageRecord)
    (w : World Strategy) :
  backend_accepts env ->
  Map_get key (pendingUsage (this w)) = Some usageRecords ->
  usageRecords <> [] ->
  let w1 := after (flushBatch_until_await env key) w in
  let w2 := after (flushBatch_until_await env key) w1 in
  let w3 := after (flushBatch_from_await key (Resolved tt)) w2 in
  let w4 := after (flushBatch_from_await key (Resolved tt)) w3 in
  fst (flushBatch_until_await env key w) = Resolved (Some (Resolved tt))
  /\ fst (flushBatch_until_await env key w1) = Resolved (Some (Resolved tt))
  /\ fst (flushBatch_from_await key (Resolved tt) w2) = Resolved tt
  /\ fst (flushBatch_from_await key (Resolved tt) w3) = Resolved tt
  /\ batch_of key w4 = []
  /\ map (fun call => (fst call, quantity (snd call)))
       (backend_calls (new_events w w4))
     = [(key, Zsum (map usageValue usageRecords));
        (key, Zsum (map usageValue usageRecords))].
Proof.
  intros Hacc Hget Hne w1 w2 w3 w4.
  pose proof (flushBatch_until_await_run env key w usageRecords Hget Hne) as H1.
  cbv zeta in H1. rewrite Hacc in H1.
  assert (Hw1 : w1 = log w [EvFlushBatch key;
                            EvCreateUsageRecord key
                              (flush_params env key w usageRecords)]).
  { unfold w1, after. now rewrite H1. }
  assert (Hget1 : Map_get key (pendingUsage (this w1)) = Some usageRecords).
  { now rewrite Hw1. }
  pose proof (flushBatch_until_await_run env key w1 usageRecords Hget1 Hne) as H2.
  cbv zeta in H2. rewrite Hacc in H2.
  assert (Hw2 : w2 = log w1 [EvFlushBatch key;
                             EvCreateUsageRecord key
                               (flush_params env key w1 usageRecords)]).
  { unfold w2, after. now rewrite H2. }
  split; [now rewrite H1|]. split; [now rewrite H2|].
  split; [reflexivity|]. split; [reflexivity|].
  split.
  { unfold w4, after, flushBatch_from_await, try_catch, modify, batch_of.
    cbn [snd this pendingUsage set_pendingUsage]. now rewrite Map_get_set_eq. }
  unfold w4, w3, after, flushBatch_from_await, try_catch, modify. cbn [snd trace].
  rewrite Hw2. unfold log at 1. cbn [trace]. rewrite Hw1. unfold log.
  cbn [trace]. unfold new_events. cbn [trace].
  rewrite <- app_assoc, skipn_length_app. reflexivity.
Qed.

(** X24 on the two batches of the suite, with a backend that accepts
    everything: the batch of two of [si_123] is submitted twice. *)
Lemma X24_witness :
  let w1 := after (flushBatch_until_await accepting_env "si_123")
              scenario_isolation in
  let w2 := after (flushBatch_until_await accepting_env "si_123") w1 in
  map (fun call => (fst call, quantity (snd call)))
    (backend_calls (new_events scenario_isolation w2))
  = [("si_123", 2); ("si_123", 2)].
Proof.
  intros w1 w2.
  assert (Hacc : backend_accepts accepting_env)
    by (intros t subscriptionItemId params; reflexivity).
  destruct (X24_overlapping_flushes_submit_twice accepting_env "si_123"
              [test_record; test_record] scenario_isolation Hacc eq_refl
              ltac:(discriminate)) as (_ & _ & _ & _ & _ & Hq).
  exact Hq.
Defined.
